(** * Aoclytic: leaderboard transformation, client cache and fetch proxy

    A shallow embedding of the data-reshaping functions of [src/src/App.jsx]
    and of its earlier revision [src/unnamed/part_000], of the submit handler
    of [App.jsx] with its fifteen-minute cache, and of the serverless proxy
    [src/unnamed/part_001].
    The values the component derives from its state (module [Component]),
    the submit handler of the earlier revision (module [LegacyClient]), the
    development proxy of [src/vite.config.js] (module [DevProxy]) and the
    client served by the proxy (module [Deployment]) follow.

    Conventions.
    - A JavaScript number that holds an integer is a [Z]; [NaN] is kept as a
      separate constructor because [Number(key)] can produce it.  Integers are
      assumed to stay in the range where JavaScript numbers are exact and
      print in plain decimal (identifiers, day numbers, epoch seconds).
    - A JSON object is the list of its own properties in the order
      [Object.keys] enumerates them.  Property reads [o[k]] are modelled for
      own properties; keys are never names inherited from [Object.prototype]
      (member ids, day numbers and part numbers are decimal numerals).
    - A string is the sequence of bytes of its UTF-8 encoding, so a
      character outside ASCII is two to four bytes long.  A sequence of bytes
      that is not well-formed UTF-8 stands for no string of the program
      (strings with unpaired surrogates are not represented).
    - Locale-dependent library calls ([Date.prototype.toLocaleString],
      [String.prototype.localeCompare]) are fields of the class [Host].
    - The functions of the transformation layer are given twice: as functions
      of the document (modules [App] and [Legacy]), and, for [App.jsx], as
      computations over a heap of mutable objects (module [Heap]), where
      arrays and objects are cells and [push], [sort] and assignment update
      them in place.  The two are proved to agree. *)

From Stdlib Require Import ZArith List String Ascii Sorted.
From Stdlib Require Import DecimalString DecimalN DecimalPos.
From Stdlib Require OrderedTypeEx.
From stdpp Require Import gmap strings list.

Local Open Scope Z_scope.

(** ** JavaScript primitives used by the sources *)
Module JS.

Inductive number : Type :=
| Num (z : Z)
| NaN.

(** [a - b] on numbers. *)
Definition sub (a b : number) : number :=
  match a, b with
  | Num x, Num y => Num (x - y)
  | _, _ => NaN
  end.

(** [a <= b] on numbers; a comparison with [NaN] is false. *)
Definition le (a b : number) : Prop :=
  match a, b with
  | Num x, Num y => x <= y
  | _, _ => False
  end.

(** The test [v > 0] that [Array.prototype.sort] applies to the value its
    comparator returns; [NaN] counts as [+0]. *)
Definition positive_result (n : number) : bool :=
  match n with
  | Num z => 0 <? z
  | NaN => false
  end.

(** [Number(s)] for a string of decimal digits (the empty string gives 0,
    leading zeros are accepted); every other string is mapped to [NaN]. *)
Definition Number (s : string) : number :=
  match NilEmpty.uint_of_string s with
  | Some d => Num (Z.of_N (N.of_uint d))
  | None => NaN
  end.

(** [n.toString()]. *)
Definition toString (n : number) : string :=
  match n with
  | Num z => NilZero.string_of_int (Z.to_int z)
  | NaN => "NaN"
  end.

(** [String(z)] and the interpolation of an integer in a template literal. *)
Definition String_of (z : Z) : string := toString (Num z).

(** Truthiness of a string and of an integer number. *)
Definition truthy_string (s : string) : bool :=
  if decide (s = "") then false else true.

Definition truthy_int (z : Z) : bool := negb (z =? 0).

(** [Array.prototype.sort(cmp)]: the sort is stable, so for a consistent
    comparator its result is the one of a stable insertion sort, which is
    what is used here.  An element moves behind another one only when the
    comparator returns a positive number. *)
Section Sort.
Context {A : Type} (cmp : A -> A -> number).

Fixpoint insert (x : A) (l : list A) : list A :=
  match l with
  | [] => [x]
  | y :: l' =>
      if positive_result (cmp x y) then y :: insert x l' else x :: l
  end.

Definition sort (l : list A) : list A := foldr insert [] l.
End Sort.

(** Objects used as string-keyed maps, in enumeration order. *)
Definition object (V : Type) : Type := list (string * V).

Fixpoint get {V : Type} (o : object V) (k : string) : option V :=
  match o with
  | [] => None
  | (k', v) :: o' => if decide (k' = k) then Some v else get o' k
  end.

Definition Object_keys {V : Type} (o : object V) : list string := map fst o.
Definition Object_values {V : Type} (o : object V) : list V := map snd o.
Definition Object_entries {V : Type} (o : object V) : list (string * V) := o.

(** [x ?? {}] for an optional object. *)
Definition or_empty {V : Type} (o : option (object V)) : object V :=
  match o with
  | Some x => x
  | None => []
  end.

(** [String.prototype.trim] removes the characters of WhiteSpace and
    LineTerminator from both ends: U+0009 to U+000D, U+0020, U+00A0, U+1680,
    U+2000 to U+200A, U+2028, U+2029, U+202F, U+205F, U+3000 and U+FEFF.
    In UTF-8 the first six are one byte long, U+00A0 is two bytes long
    (C2 A0) and the others are three bytes long. *)
Definition is_space (c : ascii) : bool :=
  let n := nat_of_ascii c in
  ((n =? 32) || (n =? 9) || (n =? 10) || (n =? 11) || (n =? 12) || (n =? 13))%nat.

(** U+00A0. *)
Definition is_space2 (c1 c2 : ascii) : bool :=
  ((nat_of_ascii c1 =? 194) && (nat_of_ascii c2 =? 160))%nat.

Definition is_space3 (c1 c2 c3 : ascii) : bool :=
  let a := nat_of_ascii c1 in
  let b := nat_of_ascii c2 in
  let c := nat_of_ascii c3 in
  (((a =? 225) && (b =? 154) && (c =? 128))                    (* U+1680 *)
   || ((a =? 226) && (b =? 128) && (128 <=? c) && (c <=? 138)) (* U+2000 to U+200A *)
   || ((a =? 226) && (b =? 128) && (c =? 168))                 (* U+2028 *)
   || ((a =? 226) && (b =? 128) && (c =? 169))                 (* U+2029 *)
   || ((a =? 226) && (b =? 128) && (c =? 175))                 (* U+202F *)
   || ((a =? 226) && (b =? 129) && (c =? 159))                 (* U+205F *)
   || ((a =? 227) && (b =? 128) && (c =? 128))                 (* U+3000 *)
   || ((a =? 239) && (b =? 187) && (c =? 191)))%nat.           (* U+FEFF *)

Fixpoint trim_start (s : string) : string :=
  match s with
  | String c1 s1 =>
      if is_space c1 then trim_start s1
      else
        match s1 with
        | String c2 s2 =>
            if is_space2 c1 c2 then trim_start s2
            else
              match s2 with
              | String c3 s3 => if is_space3 c1 c2 c3 then trim_start s3 else s
              | EmptyString => s
              end
        | EmptyString => s
        end
  | EmptyString => EmptyString
  end.

Fixpoint rev_string (acc s : string) : string :=
  match s with
  | String c s' => rev_string (String c acc) s'
  | EmptyString => acc
  end.

(** [trim_start] on a reversed string, where the bytes of a character come
    last byte first. *)
Fixpoint trim_start_reversed (s : string) : string :=
  match s with
  | String c1 s1 =>
      if is_space c1 then trim_start_reversed s1
      else
        match s1 with
        | String c2 s2 =>
            if is_space2 c2 c1 then trim_start_reversed s2
            else
              match s2 with
              | String c3 s3 =>
                  if is_space3 c3 c2 c1 then trim_start_reversed s3 else s
              | EmptyString => s
              end
        | EmptyString => s
        end
  | EmptyString => EmptyString
  end.

Definition trim (s : string) : string :=
  rev_string "" (trim_start_reversed (rev_string "" (trim_start s))).

End JS.

(** The locale-dependent part of the host environment. *)
Class Host : Type := {
  (** [new Date(ms).toLocaleString()] *)
  Date_toLocaleString : Z -> string;
  (** [a.localeCompare(b)] *)
  localeCompare : string -> string -> JS.number;
}.

(** ** Data model: the leaderboard document *)

Module Completion.
Record t : Type := { get_star_ts : Z }.
End Completion.

Module Member.
Record t : Type := {
  id : Z;
  name : option string;
  completion_day_level : option (JS.object (JS.object Completion.t));
}.
End Member.

Module Leaderboard.
Record t : Type := { members : option (JS.object Member.t) }.
End Leaderboard.

(** [leaderboard?.members ?? {}], then [Object.values]. *)
Definition members_of (leaderboard : option Leaderboard.t) : list Member.t :=
  JS.Object_values (JS.or_empty (leaderboard ≫= Leaderboard.members)).

(** [member.completion_day_level?.[day]?.[part]] *)
Definition completion_at (member : Member.t) (day part : string)
  : option Completion.t :=
  Member.completion_day_level member ≫= (fun days =>
  JS.get days day ≫= (fun parts => JS.get parts part)).

(** [member.name || `Anonymous #${member.id}`] *)
Definition display_name (member : Member.t) : string :=
  match Member.name member with
  | Some n => if JS.truthy_string n then n else "Anonymous #" +:+ JS.String_of (Member.id member)
  | None => "Anonymous #" +:+ JS.String_of (Member.id member)
  end.

(** Derived rows. *)
Module Row.
Record t : Type := {
  id : Z;
  name : string;
  completedAt : string;
  timestamp : Z;
}.
End Row.

Module RankedRow.
Record t : Type := {
  id : Z;
  name : string;
  completedAt : string;
  timestamp : Z;
  rank : Z;
}.
End RankedRow.

Module SubmissionRow.
Record t : Type := {
  day : string;
  part : string;
  completedAt : string;
}.
End SubmissionRow.

Module Selection.
Record t : Type := { day : string; part : string }.
End Selection.

(** The record [{ 1: bool, 2: bool }] kept per day by [computePartAvailability]. *)
Module Flags.
Record t : Type := { part1 : bool; part2 : bool }.
Definition set1 (f : t) : t := {| part1 := true; part2 := part2 f |}.
Definition set2 (f : t) : t := {| part1 := part1 f; part2 := true |}.
End Flags.

(** A completion object is truthy, [undefined] is not. *)
Definition truthy_object {A : Type} (o : option A) : bool :=
  match o with
  | Some _ => true
  | None => false
  end.

(** ** The transformation layer of [src/src/App.jsx] *)
Module App.
Section Transformation.
Context `{Host}.

Definition formatCompletionTime (timestamp : Z) : string :=
  if negb (JS.truthy_int timestamp) then ""
  else Date_toLocaleString (timestamp * 1000).

Definition findDefaultSelection (leaderboard : option Leaderboard.t)
  : Selection.t :=
  let members := members_of leaderboard in
  let allDays :=
    flat_map (fun member =>
      JS.Object_keys (JS.or_empty (Member.completion_day_level member)))
      members in
  let firstDay :=
    match head (JS.sort JS.sub (map JS.Number allDays)) with
    | Some n => JS.toString n
    | None => "1"
    end in
  let hasPart2 :=
    existsb (fun member => truthy_object (completion_at member firstDay "2"))
      members in
  let hasPart1 :=
    existsb (fun member => truthy_object (completion_at member firstDay "1"))
      members in
  {| Selection.day := firstDay;
     Selection.part := if hasPart2 then "2" else if hasPart1 then "1" else "1" |}.

Definition findDefaultPlayerId (leaderboard : option Leaderboard.t) : string :=
  let players :=
    map (fun member => (JS.String_of (Member.id member), display_name member))
      (members_of leaderboard) in
  let players := JS.sort (fun a b => localeCompare (snd a) (snd b)) players in
  match head players with
  | Some p => fst p
  | None => ""
  end.

Definition buildLeaderboard (leaderboard : option Leaderboard.t)
  (day part : string) : list RankedRow.t :=
  match leaderboard with
  | None => []
  | Some lb =>
      let members := JS.Object_values (JS.or_empty (Leaderboard.members lb)) in
      let rows :=
        foldl (fun rows member =>
          match completion_at member day part with
          | None => rows
          | Some completion =>
              rows ++ [ {| Row.id := Member.id member;
                           Row.name := display_name member;
                           Row.completedAt :=
                             formatCompletionTime (Completion.get_star_ts completion);
                           Row.timestamp := Completion.get_star_ts completion |} ]
          end) [] members in
      imap (fun index row =>
        {| RankedRow.id := Row.id row;
           RankedRow.name := Row.name row;
           RankedRow.completedAt := Row.completedAt row;
           RankedRow.timestamp := Row.timestamp row;
           RankedRow.rank := Z.of_nat index + 1 |})
        (JS.sort (fun a b =>
           JS.sub (JS.Num (Row.timestamp a)) (JS.Num (Row.timestamp b))) rows)
  end.

Definition buildPlayerSubmissions (leaderboard : option Leaderboard.t)
  (playerId : string) (dayNumbers : list string) : list SubmissionRow.t :=
  match leaderboard with
  | None => []
  | Some lb =>
      if negb (JS.truthy_string playerId) then []
      else
        match find (fun member =>
                String.eqb (JS.String_of (Member.id member)) playerId)
                (JS.Object_values (JS.or_empty (Leaderboard.members lb))) with
        | None => []
        | Some player =>
            foldl (fun rows day =>
              foldl (fun rows part =>
                rows ++ [ {| SubmissionRow.day := day;
                             SubmissionRow.part := JS.String_of part;
                             SubmissionRow.completedAt :=
                               match completion_at player day (JS.String_of part) with
                               | Some completion =>
                                   formatCompletionTime
                                     (Completion.get_star_ts completion)
                               | None => "Not completed"
                               end |} ])
                rows [1; 2])
              [] dayNumbers
        end
  end.

Definition computePartAvailability (leaderboard : option Leaderboard.t)
  : gmap string Flags.t :=
  foldl (fun availability member =>
    foldl (fun availability '(day, parts) =>
      let availability :=
        match availability !! day with
        | Some _ => availability
        | None => <[day := {| Flags.part1 := false; Flags.part2 := false |}]> availability
        end in
      let availability :=
        if truthy_object (JS.get parts "1")
        then alter Flags.set1 day availability else availability in
      if truthy_object (JS.get parts "2")
      then alter Flags.set2 day availability else availability)
      availability
      (JS.Object_entries (JS.or_empty (Member.completion_day_level member))))
    ∅ (members_of leaderboard).

End Transformation.
End App.

(** ** The transformation layer of the earlier revision, [src/unnamed/part_000] *)
Module Legacy.
Section Transformation.
Context `{Host}.

Definition formatCompletionTime (timestamp : Z) : string :=
  Date_toLocaleString (timestamp * 1000).

Definition findDefaultSelection (leaderboard : option Leaderboard.t)
  : Selection.t :=
  let members := members_of leaderboard in
  let allDays :=
    flat_map (fun member =>
      JS.Object_keys (JS.or_empty (Member.completion_day_level member)))
      members in
  let firstDay :=
    match head (JS.sort JS.sub (map JS.Number allDays)) with
    | Some n => JS.toString n
    | None => "1"
    end in
  let hasPart2 :=
    existsb (fun member => truthy_object (completion_at member firstDay "2"))
      members in
  let hasPart1 :=
    existsb (fun member => truthy_object (completion_at member firstDay "1"))
      members in
  {| Selection.day := firstDay;
     Selection.part := if hasPart2 then "2" else if hasPart1 then "1" else "1" |}.

Definition buildLeaderboard (leaderboard : option Leaderboard.t)
  (day part : string) : list RankedRow.t :=
  match leaderboard with
  | None => []
  | Some lb =>
      let members := JS.Object_values (JS.or_empty (Leaderboard.members lb)) in
      let rows :=
        foldl (fun rows member =>
          match completion_at member day part with
          | None => rows
          | Some completion =>
              rows ++ [ {| Row.id := Member.id member;
                           Row.name := display_name member;
                           Row.completedAt :=
                             formatCompletionTime (Completion.get_star_ts completion);
                           Row.timestamp := Completion.get_star_ts completion |} ]
          end) [] members in
      imap (fun index row =>
        {| RankedRow.id := Row.id row;
           RankedRow.name := Row.name row;
           RankedRow.completedAt := Row.completedAt row;
           RankedRow.timestamp := Row.timestamp row;
           RankedRow.rank := Z.of_nat index + 1 |})
        (JS.sort (fun a b =>
           JS.sub (JS.Num (Row.timestamp a)) (JS.Num (Row.timestamp b))) rows)
  end.

Definition computePartAvailability (leaderboard : option Leaderboard.t)
  : gmap string Flags.t :=
  foldl (fun availability member =>
    foldl (fun availability '(day, parts) =>
      let availability :=
        match availability !! day with
        | Some _ => availability
        | None => <[day := {| Flags.part1 := false; Flags.part2 := false |}]> availability
        end in
      let availability :=
        if truthy_object (JS.get parts "1")
        then alter Flags.set1 day availability else availability in
      if truthy_object (JS.get parts "2")
      then alter Flags.set2 day availability else availability)
      availability
      (JS.Object_entries (JS.or_empty (Member.completion_day_level member))))
    ∅ (members_of leaderboard).

End Transformation.
End Legacy.

(** ** The submit handler of [src/src/App.jsx] and its cache *)
Module Client.

Record CacheEntry : Type := { data : Leaderboard.t; fetchedAt : Z }.

(** The state cells [handleSubmit] reads or writes; [cache] is
    [cacheRef.current], keyed by [`${year}:${leaderboardCode}`]. *)
Record State : Type := {
  year : string;
  leaderboardCode : string;
  sessionToken : string;
  selectedDay : string;
  selectedPart : string;
  selectedPlayerId : string;
  leaderboard : option Leaderboard.t;
  loading : bool;
  error : string;
  cache : gmap string CacheEntry;
}.

Definition setError (e : string) (st : State) : State :=
  {| year := year st; leaderboardCode := leaderboardCode st;
     sessionToken := sessionToken st; selectedDay := selectedDay st;
     selectedPart := selectedPart st; selectedPlayerId := selectedPlayerId st;
     leaderboard := leaderboard st; loading := loading st; error := e;
     cache := cache st |}.

Definition setLoading (b : bool) (st : State) : State :=
  {| year := year st; leaderboardCode := leaderboardCode st;
     sessionToken := sessionToken st; selectedDay := selectedDay st;
     selectedPart := selectedPart st; selectedPlayerId := selectedPlayerId st;
     leaderboard := leaderboard st; loading := b; error := error st;
     cache := cache st |}.

Definition setLeaderboard (l : option Leaderboard.t) (st : State) : State :=
  {| year := year st; leaderboardCode := leaderboardCode st;
     sessionToken := sessionToken st; selectedDay := selectedDay st;
     selectedPart := selectedPart st; selectedPlayerId := selectedPlayerId st;
     leaderboard := l; loading := loading st; error := error st;
     cache := cache st |}.

Definition setSelectedDay (d : string) (st : State) : State :=
  {| year := year st; leaderboardCode := leaderboardCode st;
     sessionToken := sessionToken st; selectedDay := d;
     selectedPart := selectedPart st; selectedPlayerId := selectedPlayerId st;
     leaderboard := leaderboard st; loading := loading st; error := error st;
     cache := cache st |}.

Definition setSelectedPart (p : string) (st : State) : State :=
  {| year := year st; leaderboardCode := leaderboardCode st;
     sessionToken := sessionToken st; selectedDay := selectedDay st;
     selectedPart := p; selectedPlayerId := selectedPlayerId st;
     leaderboard := leaderboard st; loading := loading st; error := error st;
     cache := cache st |}.

Definition setSelectedPlayerId (p : string) (st : State) : State :=
  {| year := year st; leaderboardCode := leaderboardCode st;
     sessionToken := sessionToken st; selectedDay := selectedDay st;
     selectedPart := selectedPart st; selectedPlayerId := p;
     leaderboard := leaderboard st; loading := loading st; error := error st;
     cache := cache st |}.

(** [cacheRef.current[key] = entry] *)
Definition cachePut (key : string) (entry : CacheEntry) (st : State) : State :=
  {| year := year st; leaderboardCode := leaderboardCode st;
     sessionToken := sessionToken st; selectedDay := selectedDay st;
     selectedPart := selectedPart st; selectedPlayerId := selectedPlayerId st;
     leaderboard := leaderboard st; loading := loading st; error := error st;
     cache := <[key := entry]> (cache st) |}.

(** The request [handleSubmit] sends: [POST url] with the JSON body
    [{ year, leaderboardCode, sessionToken }]. *)
Record Request : Type := {
  url : string;
  body_year : string;
  body_leaderboardCode : string;
  body_sessionToken : string;
}.

(** What [response.json()] gives. *)
Inductive JsonResult : Type :=
| Unparsable (message : string)
| Json (doc : Leaderboard.t).

(** What [fetch] gives: a rejection, or a response with its status. *)
Inductive FetchOutcome : Type :=
| Rejected (message : string)
| Responded (status : Z) (body : JsonResult).

(** [response.ok]: the status is in the range 200..299. *)
Definition ok (status : Z) : bool := (200 <=? status) && (status <=? 299).

(** Interaction with the browser: each constructor is one call, the
    continuation receives its result. *)
Inductive io (A : Type) : Type :=
| Ret (a : A)
| window_confirm (message : string) (k : bool -> io A)
| Date_now (k : Z -> io A)
| fetch (request : Request) (k : FetchOutcome -> io A).
Arguments Ret {A} a.
Arguments window_confirm {A} message k.
Arguments Date_now {A} k.
Arguments fetch {A} request k.

Fixpoint bind {A B : Type} (m : io A) (f : A -> io B) : io B :=
  match m with
  | Ret a => f a
  | window_confirm msg k => window_confirm msg (fun b => bind (k b) f)
  | Date_now k => Date_now (fun t => bind (k t) f)
  | fetch r k => fetch r (fun o => bind (k o) f)
  end.

#[export] Instance io_bind : MBind io := fun A B f m => bind m f.

Definition FIFTEEN_MIN : Z := 15 * 60 * 1000.

Definition validation_message : string :=
  "Please enter both the private leaderboard code and your AoC session token.".

Definition confirm_message : string :=
  "The Advent of Code API asks clients to avoid hitting this endpoint more than once every 15 minutes. Continue?".

Definition status_message (status : Z) : string :=
  "Unable to load leaderboard (status " +:+ JS.String_of status +:+ "). "
  +:+ "Ensure you are signed in to Advent of Code and have access to this board.".

Definition cacheKey (st : State) : string :=
  year st +:+ ":" +:+ leaderboardCode st.

Definition request_of (st : State) : Request :=
  {| url := "/api/leaderboard"; body_year := year st;
     body_leaderboardCode := leaderboardCode st;
     body_sessionToken := sessionToken st |}.

Section Handler.
Context `{Host}.

(** The four setters that follow a loaded document. *)
Definition show (doc : Leaderboard.t) (st : State) : State :=
  let defaults := App.findDefaultSelection (Some doc) in
  setSelectedPlayerId (App.findDefaultPlayerId (Some doc))
    (setSelectedPart (Selection.part defaults)
      (setSelectedDay (Selection.day defaults)
        (setLeaderboard (Some doc) st))).

(** The part of the [try] block after the cache check: the network call.
    [inl message] is a thrown error. *)
Definition fetchLeaderboard (st : State) : io (string + State) :=
  response ← fetch (request_of st) Ret;
  match response with
  | Rejected message => Ret (inl message)
  | Responded status body =>
      if negb (ok status) then Ret (inl (status_message status))
      else
        match body with
        | Unparsable message => Ret (inl message)
        | Json json =>
            now ← Date_now Ret;
            Ret (inr (show json
              (cachePut (cacheKey st) {| data := json; fetchedAt := now |} st)))
        end
  end.

(** The [try] block. *)
Definition tryBlock (st : State) : io (string + State) :=
  match cache st !! cacheKey st with
  | Some cached =>
      now ← Date_now Ret;
      if now - fetchedAt cached <? FIFTEEN_MIN
      then Ret (inr (show (data cached) st))
      else fetchLeaderboard st
  | None => fetchLeaderboard st
  end.

Definition handleSubmit (st : State) : io State :=
  let st := setError "" st in
  if negb (JS.truthy_string (JS.trim (leaderboardCode st)))
     || negb (JS.truthy_string (JS.trim (sessionToken st)))
  then Ret (setError validation_message st)
  else
    proceed ← window_confirm confirm_message Ret;
    if negb proceed then Ret st
    else
      let st := setLeaderboard None (setLoading true st) in
      r ← tryBlock st;
      let st :=
        match r with
        | inr st' => st'
        | inl message =>
            setError
              (if JS.truthy_string message then message
               else "Something went wrong while loading data.") st
        end in
      Ret (setLoading false st).
End Handler.

(** The browser as seen by one run: the answer to [window.confirm], the
    successive readings of [Date.now()] and the network. *)
Record World : Type := {
  confirm_answer : string -> bool;
  clock : nat -> Z;
  network : Request -> FetchOutcome;
}.

Inductive event : Type :=
| Confirmed (message : string) (answer : bool)
| Clock (t : Z)
| Fetched (request : Request) (outcome : FetchOutcome).

(** [run w n p]: the result of [p] and the calls it made, [n] being the
    number of clock readings taken before. *)
Fixpoint run {A : Type} (w : World) (n : nat) (p : io A) : A * list event :=
  match p with
  | Ret a => (a, [])
  | window_confirm msg k =>
      let b := confirm_answer w msg in
      let '(a, tr) := run w n (k b) in (a, Confirmed msg b :: tr)
  | Date_now k =>
      let t := clock w n in
      let '(a, tr) := run w (S n) (k t) in (a, Clock t :: tr)
  | fetch r k =>
      let o := network w r in
      let '(a, tr) := run w n (k o) in (a, Fetched r o :: tr)
  end.

(** The network calls of a trace. *)
Definition fetches (tr : list event) : list Request :=
  omap (fun e => match e with Fetched r _ => Some r | _ => None end) tr.

End Client.

(** ** The form of [src/src/App.jsx]

    [<form onSubmit={handleSubmit}>] holds three [required] inputs: the year,
    the leaderboard code and the session token, in this order.  On a submit
    the browser first validates the constraints of the inputs; it fires the
    submit event, which runs [handleSubmit], only when none fails, and
    otherwise reports the failing inputs to the user without calling the
    handler. *)
Module Form.





Section Submit.
Context `{Host}.
Import Client.

End Submit.

End Form.

(** ** The proxy of [src/unnamed/part_001] *)
Module Proxy.

  (** A JSON value of the request body, as far as the handler looks at it. *)
Inductive json : Type :=
| JNull
| JBool (b : bool)
| JNum (z : Z)
| JStr (s : string)
| JObject.

(** Truthiness; an absent field is [undefined]. *)
Definition truthy (v : option json) : bool :=
  match v with
  | None | Some JNull => false
  | Some (JBool b) => b
  | Some (JNum z) => JS.truthy_int z
  | Some (JStr s) => JS.truthy_string s
  | Some JObject => true
  end.

(** Interpolation [`${v}`]. *)
Definition interpolate (v : option json) : string :=
  match v with
  | None => "undefined"
  | Some JNull => "null"
  | Some (JBool b) => if b then "true" else "false"
  | Some (JNum z) => JS.String_of z
  | Some (JStr s) => s
  | Some JObject => "[object Object]"
  end.

Record Body : Type := {
  year : option json;
  leaderboardCode : option json;
  sessionToken : option json;
}.

Record Request : Type := { method : string; body : option Body }.

(** [req.body || {}] *)
Definition body_or_empty (b : option Body) : Body :=
  match b with
  | Some b => b
  | None => {| year := None; leaderboardCode := None; sessionToken := None |}
  end.

Record UpstreamRequest : Type := {
  upstream_url : string;
  upstream_headers : list (string * string);
}.

(** The request sent upstream for the fields of a body. *)
Definition upstream_request (b : Body) : UpstreamRequest :=
  {| upstream_url :=
       "https://adventofcode.com/" +:+ interpolate (year b)
       +:+ "/leaderboard/private/view/"
       +:+ interpolate (leaderboardCode b) +:+ ".json";
     upstream_headers :=
       [ ("cookie", "session=" +:+ interpolate (sessionToken b));
         ("accept", "application/json");
         ("user-agent", "Aoclytic (Vercel proxy)") ] |}.

Section Handler.
  (** The type of the document the upstream serves. *)
Context {Data : Type}.

Inductive UpstreamJson : Type :=
| Unparsable (message : string)
| Json (data : Data).

Inductive UpstreamOutcome : Type :=
| Rejected (message : string)
| Responded (status : Z) (body : UpstreamJson).

Inductive ResponseBody : Type :=
| Ended
| ErrorJson (error : string)
| DataJson (data : Data).

Record Response : Type := {
  status : Z;
  headers : list (string * string);
  sent : ResponseBody;
}.

(** [upstream.ok] *)
Definition ok (status : Z) : bool := (200 <=? status) && (status <=? 299).

Definition handler (req : Request) (fetch : UpstreamRequest -> UpstreamOutcome)
  : Response :=
  if String.eqb (method req) "OPTIONS" then
    {| status := 204;
       headers := [ ("Access-Control-Allow-Origin", "*");
                    ("Access-Control-Allow-Methods", "POST, OPTIONS");
                    ("Access-Control-Allow-Headers", "Content-Type") ];
       sent := Ended |}
  else if negb (String.eqb (method req) "POST") then
    {| status := 405; headers := []; sent := Ended |}
  else
    let b := body_or_empty (body req) in
    if negb (truthy (year b)) || negb (truthy (leaderboardCode b))
       || negb (truthy (sessionToken b))
    then {| status := 400; headers := [];
            sent := ErrorJson "Missing required fields" |}
    else
      match fetch (upstream_request b) with
      | Rejected message =>
          {| status := 500; headers := [];
             sent := ErrorJson (if JS.truthy_string message then message
                                else "Fetch failed") |}
      | Responded upstream_status upstream_body =>
          if negb (ok upstream_status) then
            {| status := upstream_status; headers := [];
               sent := ErrorJson ("Upstream status " +:+ JS.String_of upstream_status) |}
          else
            match upstream_body with
            | Unparsable message =>
                {| status := 500; headers := [];
                   sent := ErrorJson (if JS.truthy_string message then message
                                      else "Fetch failed") |}
            | Json data =>
                {| status := 200;
                   headers := [ ("Access-Control-Allow-Origin", "*") ];
                   sent := DataJson data |}
            end
      end.
End Handler.
Arguments UpstreamOutcome : clear implicits.
Arguments UpstreamJson : clear implicits.
Arguments Response : clear implicits.
Arguments ResponseBody : clear implicits.

End Proxy.

(** ** The values the component of [src/src/App.jsx] derives from its state *)
Module Component.

(** [a === b] on numbers; [NaN] is equal to nothing. *)
Definition strict_equal (a b : JS.number) : bool :=
  match a, b with
  | JS.Num x, JS.Num y => x =? y
  | _, _ => false
  end.

(** [Array.from({ length }, (_, i) => f(i))] *)
Definition Array_from {A : Type} (length : nat) (f : nat -> A) : list A :=
  map f (seq 0 length).

Definition getDayNumbers (year : string) : list string :=
  let totalDays :=
    if strict_equal (JS.Number year) (JS.Num 2025) then 12%nat else 25%nat in
  Array_from totalDays (fun i => JS.String_of (Z.of_nat i + 1)).

(** [availability[day]?.[part]], [part] being the number 1 or 2. *)
Definition part_flag (availability : gmap string Flags.t) (day : string)
  (part : Z) : bool :=
  match availability !! day with
  | Some flags =>
      if part =? 1 then Flags.part1 flags
      else if part =? 2 then Flags.part2 flags
      else false
  | None => false
  end.

Section Derived.
Context `{Host}.

(** The [players] memo; a player [{ id, name }] is the pair of its fields. *)
Definition players (leaderboard : option Leaderboard.t) : list (string * string) :=
  match leaderboard with
  | None => []
  | Some lb =>
      JS.sort (fun a b => localeCompare (snd a) (snd b))
        (map (fun member => (JS.String_of (Member.id member), display_name member))
           (JS.Object_values (JS.or_empty (Leaderboard.members lb))))
  end.

(** [players.find(p => p.id === selectedPlayerId)?.name
     ?? (selectedPlayerId ? `Player #${selectedPlayerId}` : "")] *)
Definition selectedPlayerName (leaderboard : option Leaderboard.t)
  (selectedPlayerId : string) : string :=
  match find (fun player => String.eqb (fst player) selectedPlayerId)
          (players leaderboard) with
  | Some player => snd player
  | None =>
      if JS.truthy_string selectedPlayerId then "Player #" +:+ selectedPlayerId
      else ""
  end.

(** The memos [dayNumbers], [availability], [leaderboardRows] and
    [playerSubmissions]. *)
Definition dayNumbers (st : Client.State) : list string :=
  getDayNumbers (Client.year st).

Definition availability (st : Client.State) : gmap string Flags.t :=
  App.computePartAvailability (Client.leaderboard st).

Definition leaderboardRows (st : Client.State) : list RankedRow.t :=
  App.buildLeaderboard (Client.leaderboard st) (Client.selectedDay st)
    (Client.selectedPart st).

Definition playerSubmissions (st : Client.State) : list SubmissionRow.t :=
  App.buildPlayerSubmissions (Client.leaderboard st) (Client.selectedPlayerId st)
    (dayNumbers st).

(** The effect that runs when [leaderboard] changes:
    [setSelectedPlayerId(current => current || findDefaultPlayerId(leaderboard))]. *)
Definition leaderboardEffect (st : Client.State) : Client.State :=
  match Client.leaderboard st with
  | None => st
  | Some lb =>
      Client.setSelectedPlayerId
        (if JS.truthy_string (Client.selectedPlayerId st)
         then Client.selectedPlayerId st
         else App.findDefaultPlayerId (Some lb)) st
  end.

Definition handlePartSelect (day part : string) (st : Client.State) : Client.State :=
  Client.setSelectedPart part (Client.setSelectedDay day st).

(** [hasCompletions] of a part button of a day tile; it decides the class
    [has-data] of the button. *)
Definition hasCompletions (st : Client.State) (day : string) (part : Z) : bool :=
  part_flag (availability st) day part.

End Derived.
End Component.

(** ** The submit handler of the earlier revision, [src/unnamed/part_000] *)
Module LegacyClient.

Record State : Type := {
  year : string;
  leaderboardCode : string;
  sessionToken : string;
  selectedDay : string;
  selectedPart : string;
  leaderboard : option Leaderboard.t;
  loading : bool;
  error : string;
}.

Definition setError (e : string) (st : State) : State :=
  {| year := year st; leaderboardCode := leaderboardCode st;
     sessionToken := sessionToken st; selectedDay := selectedDay st;
     selectedPart := selectedPart st; leaderboard := leaderboard st;
     loading := loading st; error := e |}.

Definition setLoading (b : bool) (st : State) : State :=
  {| year := year st; leaderboardCode := leaderboardCode st;
     sessionToken := sessionToken st; selectedDay := selectedDay st;
     selectedPart := selectedPart st; leaderboard := leaderboard st;
     loading := b; error := error st |}.

Definition setLeaderboard (l : option Leaderboard.t) (st : State) : State :=
  {| year := year st; leaderboardCode := leaderboardCode st;
     sessionToken := sessionToken st; selectedDay := selectedDay st;
     selectedPart := selectedPart st; leaderboard := l;
     loading := loading st; error := error st |}.

Definition setSelectedDay (d : string) (st : State) : State :=
  {| year := year st; leaderboardCode := leaderboardCode st;
     sessionToken := sessionToken st; selectedDay := d;
     selectedPart := selectedPart st; leaderboard := leaderboard st;
     loading := loading st; error := error st |}.

Definition setSelectedPart (p : string) (st : State) : State :=
  {| year := year st; leaderboardCode := leaderboardCode st;
     sessionToken := sessionToken st; selectedDay := selectedDay st;
     selectedPart := p; leaderboard := leaderboard st;
     loading := loading st; error := error st |}.

(** The request [handleSubmit] sends: a GET of [url] with these headers
    and this [credentials] mode. *)
Record Request : Type := {
  url : string;
  headers : list (string * string);
  credentials : string;
}.

Definition request_of (st : State) : Request :=
  {| url := "/aoc/" +:+ year st +:+ "/leaderboard/private/view/"
            +:+ leaderboardCode st +:+ ".json";
     headers := [ ("Accept", "application/json");
                  ("X-Aoc-Session", JS.trim (sessionToken st)) ];
     credentials := "omit" |}.

(** [TOTAL_DAYS] and [dayNumbers]. *)
Definition TOTAL_DAYS : nat := 25.

Definition dayNumbers : list string :=
  Component.Array_from TOTAL_DAYS (fun i => JS.String_of (Z.of_nat i + 1)).

(** [handleSubmit], given what [fetch] answers; the result is the state
    after the handler and the requests it made. *)
Definition handleSubmit (fetch : Request -> Client.FetchOutcome) (st : State)
  : State * list Request :=
  let st := setError "" st in
  if negb (JS.truthy_string (JS.trim (leaderboardCode st)))
     || negb (JS.truthy_string (JS.trim (sessionToken st)))
  then (setError Client.validation_message st, [])
  else
    let st := setLeaderboard None (setLoading true st) in
    let thrown (message : string) : State :=
      setError (if JS.truthy_string message then message
                else "Something went wrong while loading data.") st in
    let st' :=
      match fetch (request_of st) with
      | Client.Rejected message => thrown message
      | Client.Responded status body =>
          if negb (Client.ok status) then thrown (Client.status_message status)
          else
            match body with
            | Client.Unparsable message => thrown message
            | Client.Json json =>
                let defaults := Legacy.findDefaultSelection (Some json) in
                setSelectedPart (Selection.part defaults)
                  (setSelectedDay (Selection.day defaults)
                    (setLeaderboard (Some json) st))
            end
      end in
    (setLoading false st', [request_of st]).

End LegacyClient.

(** ** The development proxy of [src/vite.config.js] *)
Module DevProxy.

Definition target : string := "https://adventofcode.com".

(** [path.replace(/^\/aoc/, '')] *)
Definition rewrite (path : string) : string :=
  if String.prefix "/aoc" path
  then String.substring 4 (String.length path - 4) path
  else path.

(** The characters that a URL path and a header value carry as they are
    written: letters, digits, [-], [_] and [~].  A path or a value made of
    them reaches the proxy as the client wrote it. *)
Definition unreserved (c : ascii) : bool :=
  let n := nat_of_ascii c in
  (((48 <=? n) && (n <=? 57)) || ((65 <=? n) && (n <=? 90))
   || ((97 <=? n) && (n <=? 122)) || (n =? 45) || (n =? 95) || (n =? 126))%nat.

Fixpoint plain (s : string) : bool :=
  match s with
  | String c s' => unreserved c && plain s'
  | EmptyString => true
  end.

(** The headers of a request as Node hands them to the listener: the names
    are in lower case. *)
Definition lower (c : ascii) : ascii :=
  let n := nat_of_ascii c in
  if ((65 <=? n) && (n <=? 90))%nat then ascii_of_nat (n + 32) else c.

Fixpoint toLowerCase (s : string) : string :=
  match s with
  | String c s' => String (lower c) (toLowerCase s')
  | EmptyString => EmptyString
  end.

Definition incoming_headers (sent : list (string * string))
  : list (string * string) :=
  map (fun '(name, value) => (toLowerCase name, value)) sent.

(** The [proxyReq] listener: the headers it sets on the outgoing request,
    from the headers of the incoming one. *)
Definition on_proxyReq (req_headers : list (string * string))
  : list (string * string) :=
  match JS.get req_headers "x-aoc-session" with
  | Some session =>
      if JS.truthy_string session then [ ("cookie", "session=" +:+ session) ]
      else []
  | None => []
  end.

End DevProxy.

(** ** The client of [App.jsx] served by the proxy of [part_001] *)
Module Deployment.





End Deployment.

(** ** The transformation layer on a heap of mutable objects

    The functions of [App.jsx] once more, this time with the document, the
    arrays and the objects they build held in a heap, and with [push], [sort]
    and property assignment updating cells in place as they do in
    JavaScript. *)
Module Heap.

Definition loc : Type := positive.

Inductive val : Type :=
| Undefined
| Null
| Bool (b : bool)
| Number (n : JS.number)
| Str (s : string)
| Ref (l : loc).

Inductive cell : Type :=
| Obj (props : JS.object val)
| Arr (items : list val).

(** The result of running a computation: a fault (a [TypeError], or a step
    the model does not cover: a dangling reference, a property read on a
    primitive or an array where the document format has an object), or a
    value and the heap after. *)
Inductive outcome (A : Type) : Type :=
| Fault
| Done (a : A) (h : gmap loc cell).
Arguments Fault {A}.
Arguments Done {A} a h.

Definition M (A : Type) : Type := gmap loc cell -> outcome A.

#[export] Instance M_ret : MRet M := fun A a h => Done a h.
#[export] Instance M_bind : MBind M := fun A B f m h =>
  match m h with
  | Done a h' => f a h'
  | Fault => Fault
  end.

Definition fault {A : Type} : M A := fun _ => Fault.

Definition alloc (c : cell) : M val := fun h =>
  let l := fresh (dom h) in Done (Ref l) (<[l := c]> h).

Definition read (l : loc) : M cell := fun h =>
  match h !! l with
  | Some c => Done c h
  | None => Fault
  end.

Definition write (l : loc) (c : cell) : M unit := fun h =>
  Done tt (<[l := c]> h).

(** Conversions. *)
Definition truthy (v : val) : bool :=
  match v with
  | Undefined | Null => false
  | Bool b => b
  | Number (JS.Num z) => JS.truthy_int z
  | Number JS.NaN => false
  | Str s => JS.truthy_string s
  | Ref _ => true
  end.

Definition nullish (v : val) : bool :=
  match v with
  | Undefined | Null => true
  | _ => false
  end.

Definition to_number (v : val) : JS.number :=
  match v with
  | Undefined => JS.NaN
  | Null => JS.Num 0
  | Bool b => JS.Num (if b then 1 else 0)
  | Number n => n
  | Str s => JS.Number s
  | Ref _ => JS.NaN
  end.

Definition to_string (v : val) : string :=
  match v with
  | Undefined => "undefined"
  | Null => "null"
  | Bool b => if b then "true" else "false"
  | Number n => JS.toString n
  | Str s => s
  | Ref _ => "[object Object]"
  end.

(** [o[k]] *)
Definition get (o : val) (k : string) : M val :=
  match o with
  | Ref l =>
      c ← read l;
      match c with
      | Obj props => mret (default Undefined (JS.get props k))
      | Arr _ => fault
      end
  | _ => fault
  end.

(** [o?.[k]] *)
Definition get_opt (o : val) (k : string) : M val :=
  if nullish o then mret Undefined else get o k.

(** [o ?? {}] *)
Definition or_empty (o : val) : M val :=
  if nullish o then alloc (Obj []) else mret o.

(** The properties of an object after [o[k] = v]. *)
Fixpoint assign (props : JS.object val) (k : string) (v : val) : JS.object val :=
  match props with
  | [] => [(k, v)]
  | (k', v') :: props' =>
      if decide (k' = k) then (k, v) :: props' else (k', v') :: assign props' k v
  end.

(** [o[k] = v] *)
Definition set (o : val) (k : string) (v : val) : M unit :=
  match o with
  | Ref l =>
      c ← read l;
      match c with
      | Obj props => write l (Obj (assign props k v))
      | Arr _ => fault
      end
  | _ => fault
  end.

(** The elements of an array. *)
Definition items_of (a : val) : M (list val) :=
  match a with
  | Ref l =>
      c ← read l;
      match c with
      | Arr items => mret items
      | Obj _ => fault
      end
  | _ => fault
  end.

Definition props_of (o : val) : M (JS.object val) :=
  match o with
  | Ref l =>
      c ← read l;
      match c with
      | Obj props => mret props
      | Arr _ => fault
      end
  | _ => fault
  end.

(** [a[i]] *)
Definition Array_at (a : val) (i : nat) : M val :=
  items ← items_of a; mret (default Undefined (items !! i)).

(** [a.push(v)] *)
Definition Array_push (a : val) (v : val) : M unit :=
  match a with
  | Ref l => items ← items_of a; write l (Arr (items ++ [v]))
  | _ => fault
  end.

(** [Object.values(o)], [Object.keys(o)], [Object.entries(o)]: a new array. *)
Definition Object_values (o : val) : M val :=
  props ← props_of o; alloc (Arr (map snd props)).

Definition Object_keys (o : val) : M val :=
  props ← props_of o; alloc (Arr (map (fun p => Str (fst p)) props)).

Fixpoint pairs (props : JS.object val) : M (list val) :=
  match props with
  | [] => mret []
  | (k, v) :: props' =>
      e ← alloc (Arr [Str k; v]); es ← pairs props'; mret (e :: es)
  end.

Definition Object_entries (o : val) : M val :=
  props ← props_of o; es ← pairs props; alloc (Arr es).

(** Iteration over the elements an array has when the call starts. *)
Fixpoint each (f : val -> M unit) (items : list val) : M unit :=
  match items with
  | [] => mret tt
  | x :: items' => _ ← f x; each f items'
  end.

Definition Array_forEach (a : val) (f : val -> M unit) : M unit :=
  items ← items_of a; each f items.

Fixpoint map_from (f : val -> nat -> M val) (i : nat) (items : list val)
  : M (list val) :=
  match items with
  | [] => mret []
  | x :: items' => y ← f x i; ys ← map_from f (S i) items'; mret (y :: ys)
  end.

(** [a.map(f)]: a new array. *)
Definition Array_map (a : val) (f : val -> nat -> M val) : M val :=
  items ← items_of a; ys ← map_from f 0 items; alloc (Arr ys).

Fixpoint flat (f : val -> M val) (items : list val) : M (list val) :=
  match items with
  | [] => mret []
  | x :: items' => r ← f x; ys ← items_of r; zs ← flat f items'; mret (ys ++ zs)
  end.

(** [a.flatMap(f)] for a callback that returns arrays: a new array. *)
Definition Array_flatMap (a : val) (f : val -> M val) : M val :=
  items ← items_of a; ys ← flat f items; alloc (Arr ys).

Fixpoint any (f : val -> M val) (items : list val) : M bool :=
  match items with
  | [] => mret false
  | x :: items' => r ← f x; if truthy r then mret true else any f items'
  end.

(** [a.some(f)] *)
Definition Array_some (a : val) (f : val -> M val) : M bool :=
  items ← items_of a; any f items.

Fixpoint first (f : val -> M bool) (items : list val) : M val :=
  match items with
  | [] => mret Undefined
  | x :: items' => r ← f x; if r : bool then mret x else first f items'
  end.

(** [a.find(f)] *)
Definition Array_find (a : val) (f : val -> M bool) : M val :=
  items ← items_of a; first f items.

(** [a.sort(cmp)]: the stable insertion sort of [JS.sort] with a comparator
    that may read the heap; the array cell is overwritten with the result. *)
Fixpoint insert (cmp : val -> val -> M JS.number) (x : val) (items : list val)
  : M (list val) :=
  match items with
  | [] => mret [x]
  | y :: items' =>
      c ← cmp x y;
      if JS.positive_result c
      then (r ← insert cmp x items'; mret (y :: r))
      else mret (x :: items)
  end.

Fixpoint sorted (cmp : val -> val -> M JS.number) (items : list val)
  : M (list val) :=
  match items with
  | [] => mret []
  | x :: items' => s ← sorted cmp items'; insert cmp x s
  end.

Definition Array_sort (a : val) (cmp : val -> val -> M JS.number) : M val :=
  match a with
  | Ref l =>
      items ← items_of a; s ← sorted cmp items; _ ← write l (Arr s); mret a
  | _ => fault
  end.

Section Transformation.
Context `{Host}.

(** [new Date(ms).toLocaleString()] *)
Definition date_string (ms : JS.number) : string :=
  match ms with
  | JS.Num z => Date_toLocaleString z
  | JS.NaN => "Invalid Date"
  end.

Definition times (a b : JS.number) : JS.number :=
  match a, b with
  | JS.Num x, JS.Num y => JS.Num (x * y)
  | _, _ => JS.NaN
  end.

Definition formatCompletionTime (timestamp : val) : val :=
  if negb (truthy timestamp) then Str ""
  else Str (date_string (times (to_number timestamp) (JS.Num 1000))).

(** [member.name || `Anonymous #${member.id}`] *)
Definition name_or_anonymous (member : val) : M val :=
  name ← get member "name";
  if truthy name then mret name
  else (id ← get member "id"; mret (Str ("Anonymous #" +:+ to_string id))).

(** [member.completion_day_level?.[day]?.[part]] *)
Definition completion_of (member : val) (day part : string) : M val :=
  days ← get member "completion_day_level";
  parts ← get_opt days day;
  get_opt parts part.

(** [Object.values(leaderboard?.members ?? {})] *)
Definition member_values (leaderboard : val) : M val :=
  ms ← get_opt leaderboard "members";
  ms ← or_empty ms;
  Object_values ms.

Definition findDefaultSelection (leaderboard : val) : M val :=
  members ← member_values leaderboard;
  allDays ← Array_flatMap members (fun member =>
    days ← get member "completion_day_level";
    days ← or_empty days;
    Object_keys days);
  numbers ← Array_map allDays (fun k _ => mret (Number (to_number k)));
  numbers ← Array_sort numbers (fun a b => mret (JS.sub (to_number a) (to_number b)));
  smallest ← Array_at numbers 0;
  let firstDay := if nullish smallest then "1" else to_string smallest in
  hasPart2 ← Array_some members (fun member => completion_of member firstDay "2");
  hasPart1 ← Array_some members (fun member => completion_of member firstDay "1");
  alloc (Obj [ ("day", Str firstDay);
               ("part", Str (if hasPart2 : bool then "2"
                             else if hasPart1 : bool then "1" else "1")) ]).

Definition findDefaultPlayerId (leaderboard : val) : M val :=
  members ← member_values leaderboard;
  players ← Array_map members (fun member _ =>
    id ← get member "id";
    name ← name_or_anonymous member;
    alloc (Obj [ ("id", Str (to_string id)); ("name", name) ]));
  _ ← Array_sort players (fun a b =>
    na ← get a "name";
    nb ← get b "name";
    match na with
    | Str s => mret (localeCompare s (to_string nb))
    | _ => fault
    end);
  p ← Array_at players 0;
  id ← get_opt p "id";
  mret (if nullish id then Str "" else id).

Definition buildLeaderboard (leaderboard : val) (day part : string) : M val :=
  if negb (truthy leaderboard) then alloc (Arr [])
  else
    ms ← get leaderboard "members";
    ms ← or_empty ms;
    members ← Object_values ms;
    rows ← alloc (Arr []);
    _ ← Array_forEach members (fun member =>
      completion ← completion_of member day part;
      if negb (truthy completion) then mret tt
      else
        id ← get member "id";
        name ← name_or_anonymous member;
        completedAt ← (ts ← get completion "get_star_ts";
                       mret (formatCompletionTime ts));
        timestamp ← get completion "get_star_ts";
        row ← alloc (Obj [ ("id", id); ("name", name);
                           ("completedAt", completedAt);
                           ("timestamp", timestamp) ]);
        Array_push rows row);
    sorted_rows ← Array_sort rows (fun a b =>
      ta ← get a "timestamp";
      tb ← get b "timestamp";
      mret (JS.sub (to_number ta) (to_number tb)));
    Array_map sorted_rows (fun row index =>
      props ← props_of row;
      alloc (Obj (assign props "rank" (Number (JS.Num (Z.of_nat index + 1)))))).

Definition buildPlayerSubmissions (leaderboard playerId dayNumbers : val)
  : M val :=
  if negb (truthy leaderboard) || negb (truthy playerId) then alloc (Arr [])
  else
    ms ← get leaderboard "members";
    ms ← or_empty ms;
    members ← Object_values ms;
    player ← Array_find members (fun member =>
      id ← get member "id";
      mret (String.eqb (to_string id) (to_string playerId)));
    if negb (truthy player) then alloc (Arr [])
    else
      rows ← alloc (Arr []);
      _ ← Array_forEach dayNumbers (fun day =>
        parts ← alloc (Arr [Number (JS.Num 1); Number (JS.Num 2)]);
        Array_forEach parts (fun part =>
          completion ← completion_of player (to_string day) (to_string part);
          status ← (if truthy completion
                    then (ts ← get completion "get_star_ts";
                          mret (formatCompletionTime ts))
                    else mret (Str "Not completed"));
          row ← alloc (Obj [ ("day", day); ("part", Str (to_string part));
                             ("completedAt", status) ]);
          Array_push rows row));
      mret rows.

Definition computePartAvailability (leaderboard : val) : M val :=
  availability ← alloc (Obj []);
  members ← member_values leaderboard;
  _ ← Array_forEach members (fun member =>
    days ← get member "completion_day_level";
    days ← or_empty days;
    entries ← Object_entries days;
    Array_forEach entries (fun entry =>
      day ← Array_at entry 0;
      parts ← Array_at entry 1;
      current ← get availability (to_string day);
      _ ← (if nullish current
           then (flags ← alloc (Obj [ ("1", Bool false); ("2", Bool false) ]);
                 set availability (to_string day) flags)
           else mret tt);
      p1 ← get parts "1";
      _ ← (if truthy p1
           then (flags ← get availability (to_string day); set flags "1" (Bool true))
           else mret tt);
      p2 ← get parts "2";
      if truthy p2
      then (flags ← get availability (to_string day); set flags "2" (Bool true))
      else mret tt));
  mret availability.

End Transformation.

End Heap.

(** ** Auxiliary definitions used in the statements *)

(** The row [buildLeaderboard] pushes for a member with a completion. *)
Definition row_of (format : Z -> string) (member : Member.t)
  (completion : Completion.t) : Row.t :=
  {| Row.id := Member.id member;
     Row.name := display_name member;
     Row.completedAt := format (Completion.get_star_ts completion);
     Row.timestamp := Completion.get_star_ts completion |}.

Definition with_rank (index : nat) (row : Row.t) : RankedRow.t :=
  {| RankedRow.id := Row.id row;
     RankedRow.name := Row.name row;
     RankedRow.completedAt := Row.completedAt row;
     RankedRow.timestamp := Row.timestamp row;
     RankedRow.rank := Z.of_nat index + 1 |}.

Definition by_timestamp (a b : Row.t) : JS.number :=
  JS.sub (JS.Num (Row.timestamp a)) (JS.Num (Row.timestamp b)).

(** The rows of the members that have the completion, sorted and ranked. *)
Definition ranked (format : Z -> string) (day part : string)
  (members : list Member.t) : list RankedRow.t :=
  imap with_rank
    (JS.sort by_timestamp
       (omap (fun member => row_of format member <$> completion_at member day part)
          members)).

(** Every day key under any member's [completion_day_level]. *)
Definition all_days (leaderboard : option Leaderboard.t) : list string :=
  flat_map (fun member =>
    JS.Object_keys (JS.or_empty (Member.completion_day_level member)))
    (members_of leaderboard).

(** A day-number string: the decimal numeral of a natural number (one that a
    JavaScript number holds exactly). *)
Definition day_number_key (k : string) : Prop :=
  ∃ n : N, (n < 2 ^ 53)%N ∧ k = JS.String_of (Z.of_N n).

(** The day keys of a document are day-number strings. *)
Definition well_keyed (leaderboard : option Leaderboard.t) : Prop :=
  ∀ k, k ∈ all_days leaderboard -> day_number_key k.

(** The text [buildPlayerSubmissions] shows for a player, day and part. *)
Definition submission_status (format : Z -> string) (player : Member.t)
  (day part : string) : string :=
  match completion_at player day part with
  | Some completion => format (Completion.get_star_ts completion)
  | None => "Not completed"
  end.

(** One row of [buildPlayerSubmissions]. *)
Definition submission (format : Z -> string) (player : Member.t)
  (day part : string) : SubmissionRow.t :=
  {| SubmissionRow.day := day;
     SubmissionRow.part := part;
     SubmissionRow.completedAt := submission_status format player day part |}.

(** The integer a number holds (0 for [NaN]). *)
Definition number_value (n : JS.number) : Z :=
  match n with
  | JS.Num z => z
  | JS.NaN => 0
  end.

(** The day [findDefaultSelection] picks. *)
Definition first_day (days : list string) : string :=
  match head (JS.sort JS.sub (map JS.Number days)) with
  | Some n => JS.toString n
  | None => "1"
  end.

(** The body of the inner loop of [computePartAvailability]. *)
Definition availability_step (availability : gmap string Flags.t)
  (entry : string * JS.object Completion.t) : gmap string Flags.t :=
  let '(day, parts) := entry in
  let availability :=
    match availability !! day with
    | Some _ => availability
    | None => <[day := {| Flags.part1 := false; Flags.part2 := false |}]> availability
    end in
  let availability :=
    if truthy_object (JS.get parts "1")
    then alter Flags.set1 day availability else availability in
  if truthy_object (JS.get parts "2")
  then alter Flags.set2 day availability else availability.

(** A ranked row without its rank. *)
Definition forget_rank (r : RankedRow.t) : Row.t :=
  {| Row.id := RankedRow.id r;
     Row.name := RankedRow.name r;
     Row.completedAt := RankedRow.completedAt r;
     Row.timestamp := RankedRow.timestamp r |}.

(** The rows [buildLeaderboard] pushes, in the order of the members. *)
Definition pushed_rows (format : Z -> string) (day part : string)
  (members : list Member.t) : list Row.t :=
  omap (fun member => row_of format member <$> completion_at member day part)
    members.

(** The row of the earlier revision for a row of [App.jsx]. *)
Definition legacy_row `{Host} (row : Row.t) : Row.t :=
  {| Row.id := Row.id row; Row.name := Row.name row;
     Row.completedAt := Legacy.formatCompletionTime (Row.timestamp row);
     Row.timestamp := Row.timestamp row |}.

(** The day entries of all members, in the order [computePartAvailability]
    visits them. *)
Definition day_entries (leaderboard : option Leaderboard.t)
  : list (string * JS.object Completion.t) :=
  flat_map (fun member =>
    JS.Object_entries (JS.or_empty (Member.completion_day_level member)))
    (members_of leaderboard).

(** No member lists a day twice (the keys of an object are distinct). *)
Definition unique_day_keys (leaderboard : option Leaderboard.t) : Prop :=
  ∀ member, member ∈ members_of leaderboard ->
    NoDup (JS.Object_keys (JS.or_empty (Member.completion_day_level member))).

(** Every day entry holds a completion for part 1 or for part 2. *)
Definition days_have_stars (leaderboard : option Leaderboard.t) : Prop :=
  ∀ member day parts,
    member ∈ members_of leaderboard ->
    (day, parts) ∈ JS.or_empty (Member.completion_day_level member) ->
    is_Some (JS.get parts "1") ∨ is_Some (JS.get parts "2").

(** A comparator on names that orders them: of two names one is not after
    the other, and "not after" is transitive. *)
Definition orders_names (cmp : string -> string -> JS.number) : Prop :=
  (∀ a b, JS.positive_result (cmp a b) = true -> JS.positive_result (cmp b a) = false)
  ∧ (∀ a b c, JS.positive_result (cmp a b) = false ->
        JS.positive_result (cmp b c) = false ->
        JS.positive_result (cmp a c) = false).

(** What a thrown error leaves in [error]. *)
Definition shown_error (message : string) : string :=
  if JS.truthy_string message then message
  else "Something went wrong while loading data.".

(** The message [handleSubmit] ends with when the network call gives
    [outcome], if it is a failure. *)
Definition failure_of (outcome : Client.FetchOutcome) : option string :=
  match outcome with
  | Client.Rejected message => Some message
  | Client.Responded status body =>
      if negb (Client.ok status) then Some (Client.status_message status)
      else match body with
           | Client.Unparsable message => Some message
           | Client.Json _ => None
           end
  end.

(** The cached entry is used: there is one and it is younger than fifteen
    minutes at the time [now]. *)
Definition fresh_entry (st : Client.State) (now : Z) : option Client.CacheEntry :=
  match Client.cache st !! Client.cacheKey st with
  | Some cached =>
      if now - Client.fetchedAt cached <? Client.FIFTEEN_MIN then Some cached
      else None
  | None => None
  end.

(** ** Documents in the heap *)

(** [represents_object R h v o]: [v] is a heap object with the keys of [o],
    in order, whose values are related to those of [o] by [R]. *)
Definition represents_object {A : Type} (R : Heap.val -> A -> Prop)
  (h : gmap Heap.loc Heap.cell) (v : Heap.val) (o : JS.object A) : Prop :=
  ∃ l props, v = Heap.Ref l ∧ h !! l = Some (Heap.Obj props)
    ∧ Forall2 (fun p q => fst p = fst q ∧ R (snd p) (snd q)) props o.

(** An optional property: absent, [undefined] or [null] when there is none. *)
Definition represents_optional {A : Type} (R : Heap.val -> A -> Prop)
  (v : option Heap.val) (o : option A) : Prop :=
  match o with
  | Some a => ∃ x, v = Some x ∧ R x a
  | None => v = None ∨ v = Some Heap.Undefined ∨ v = Some Heap.Null
  end.

Definition represents_completion (h : gmap Heap.loc Heap.cell) (v : Heap.val)
  (c : Completion.t) : Prop :=
  ∃ l props, v = Heap.Ref l ∧ h !! l = Some (Heap.Obj props)
    ∧ JS.get props "get_star_ts"
      = Some (Heap.Number (JS.Num (Completion.get_star_ts c))).

Definition represents_member (h : gmap Heap.loc Heap.cell) (v : Heap.val)
  (m : Member.t) : Prop :=
  ∃ l props, v = Heap.Ref l ∧ h !! l = Some (Heap.Obj props)
    ∧ JS.get props "id" = Some (Heap.Number (JS.Num (Member.id m)))
    ∧ represents_optional (fun x s => x = Heap.Str s)
        (JS.get props "name") (Member.name m)
    ∧ represents_optional
        (represents_object (represents_object (represents_completion h) h) h)
        (JS.get props "completion_day_level") (Member.completion_day_level m).

(** The value of the [leaderboard] state cell: [null], or a document. *)
Definition represents (h : gmap Heap.loc Heap.cell) (v : Heap.val)
  (leaderboard : option Leaderboard.t) : Prop :=
  match leaderboard with
  | None => v = Heap.Null
  | Some d =>
      ∃ l props, v = Heap.Ref l ∧ h !! l = Some (Heap.Obj props)
        ∧ represents_optional (represents_object (represents_member h) h)
            (JS.get props "members") (Leaderboard.members d)
  end.

(** An array of strings, as [dayNumbers] is. *)
Definition represents_strings (h : gmap Heap.loc Heap.cell) (v : Heap.val)
  (l : list string) : Prop :=
  ∃ a, v = Heap.Ref a ∧ h !! a = Some (Heap.Arr (Heap.Str <$> l)).

(** Results in the heap. *)
Definition represents_array {B : Type}
  (R : gmap Heap.loc Heap.cell -> Heap.val -> B -> Prop)
  (h : gmap Heap.loc Heap.cell) (v : Heap.val) (xs : list B) : Prop :=
  ∃ l items, v = Heap.Ref l ∧ h !! l = Some (Heap.Arr items)
    ∧ Forall2 (R h) items xs.

Definition represents_row (h : gmap Heap.loc Heap.cell) (v : Heap.val)
  (r : Row.t) : Prop :=
  ∃ l, v = Heap.Ref l
    ∧ h !! l = Some (Heap.Obj
        [ ("id", Heap.Number (JS.Num (Row.id r)));
          ("name", Heap.Str (Row.name r));
          ("completedAt", Heap.Str (Row.completedAt r));
          ("timestamp", Heap.Number (JS.Num (Row.timestamp r))) ]).

Definition represents_ranked (h : gmap Heap.loc Heap.cell) (v : Heap.val)
  (r : RankedRow.t) : Prop :=
  ∃ l, v = Heap.Ref l
    ∧ h !! l = Some (Heap.Obj
        [ ("id", Heap.Number (JS.Num (RankedRow.id r)));
          ("name", Heap.Str (RankedRow.name r));
          ("completedAt", Heap.Str (RankedRow.completedAt r));
          ("timestamp", Heap.Number (JS.Num (RankedRow.timestamp r)));
          ("rank", Heap.Number (JS.Num (RankedRow.rank r))) ]).

Definition represents_submission (h : gmap Heap.loc Heap.cell) (v : Heap.val)
  (r : SubmissionRow.t) : Prop :=
  ∃ l, v = Heap.Ref l
    ∧ h !! l = Some (Heap.Obj
        [ ("day", Heap.Str (SubmissionRow.day r));
          ("part", Heap.Str (SubmissionRow.part r));
          ("completedAt", Heap.Str (SubmissionRow.completedAt r)) ]).

Definition represents_selection (h : gmap Heap.loc Heap.cell) (v : Heap.val)
  (s : Selection.t) : Prop :=
  ∃ l, v = Heap.Ref l
    ∧ h !! l = Some (Heap.Obj
        [ ("day", Heap.Str (Selection.day s));
          ("part", Heap.Str (Selection.part s)) ]).

Definition represents_availability (h : gmap Heap.loc Heap.cell) (v : Heap.val)
  (availability : gmap string Flags.t) : Prop :=
  ∃ l props, v = Heap.Ref l ∧ h !! l = Some (Heap.Obj props)
    ∧ ∀ day,
        match availability !! day with
        | Some f =>
            ∃ lf, JS.get props day = Some (Heap.Ref lf)
              ∧ h !! lf = Some (Heap.Obj
                  [ ("1", Heap.Bool (Flags.part1 f));
                    ("2", Heap.Bool (Flags.part2 f)) ])
        | None => JS.get props day = None
        end.

(** [runs m h Q]: run in [h], [m] returns a value and a heap that satisfy [Q]. *)
Definition runs {A : Type} (m : Heap.M A) (h : gmap Heap.loc Heap.cell)
  (Q : A -> gmap Heap.loc Heap.cell -> Prop) : Prop :=
  ∃ a h', m h = Heap.Done a h' ∧ Q a h'.

(** [reads m h a]: run in [h], [m] returns [a] and leaves the heap as it is. *)
Definition reads {A : Type} (m : Heap.M A)
  (h : gmap Heap.loc Heap.cell) (a : A) : Prop := m h = Heap.Done a h.

(** A [{ id, name }] object of the [players] array. *)
Definition represents_player (h : gmap Heap.loc Heap.cell) (y : Heap.val)
  (p : string * string) : Prop :=
  ∃ l, y = Heap.Ref l
    ∧ h !! l = Some (Heap.Obj
        [ ("id", Heap.Str (fst p)); ("name", Heap.Str (snd p)) ]).

(** With [h] the heap at the call and [lav] the cell of [availability]: the
    availability object built so far holds one flags object per day of
    the mapping, each in a cell of its own allocated after the call. *)
Definition tracks (h : gmap Heap.loc Heap.cell) (lav : Heap.loc)
  (hk : gmap Heap.loc Heap.cell) (av : gmap string Flags.t) : Prop :=
  h ⊆ hk
  ∧ ∃ props, hk !! lav = Some (Heap.Obj props)
    ∧ (∀ day,
         match av !! day with
         | Some f =>
             ∃ lf, JS.get props day = Some (Heap.Ref lf)
               ∧ hk !! lf = Some (Heap.Obj
                   [ ("1", Heap.Bool (Flags.part1 f));
                     ("2", Heap.Bool (Flags.part2 f)) ])
               ∧ h !! lf = None ∧ lf ≠ lav
         | None => JS.get props day = None
         end)
    ∧ (∀ d1 d2 lf, JS.get props d1 = Some (Heap.Ref lf) ->
         JS.get props d2 = Some (Heap.Ref lf) -> d1 = d2).

(** The array cells of [h1] are in [h2] with the same elements. *)
Definition arrays_kept (h1 h2 : gmap Heap.loc Heap.cell) : Prop :=
  ∀ l items, h1 !! l = Some (Heap.Arr items) -> h2 !! l = Some (Heap.Arr items).

(** [returns h v doc m R expected]: run in the heap [h], where [v] represents
    the document [doc], the call [m] returns a value [r] and a heap [h'] such
    that every cell of [h] is in [h'] with the content it had, [v] still
    represents [doc], and [r] represents [expected]. *)
Definition returns {B : Type} (h : gmap Heap.loc Heap.cell) (v : Heap.val)
  (doc : option Leaderboard.t) (m : Heap.M Heap.val)
  (R : gmap Heap.loc Heap.cell -> Heap.val -> B -> Prop) (expected : B) : Prop :=
  ∃ r h', m h = Heap.Done r h' ∧ h ⊆ h' ∧ represents h' v doc ∧ R h' r expected.

(** ** Sample documents *)

(** The document of the specification's example. *)
Definition example_doc : Leaderboard.t :=
  {| Leaderboard.members := Some
       [ ("1", {| Member.id := 1; Member.name := Some "Ann";
                  Member.completion_day_level := Some
                    [ ("1", [ ("1", {| Completion.get_star_ts := 1000 |});
                              ("2", {| Completion.get_star_ts := 2000 |}) ]) ] |});
         ("2", {| Member.id := 2; Member.name := None;
                  Member.completion_day_level := Some
                    [ ("1", [ ("1", {| Completion.get_star_ts := 500 |}) ]) ] |}) ] |}.

(** A host used to run the functions on sample inputs. *)
Definition test_host : Host :=
  {| Date_toLocaleString := fun ms => "T" +:+ JS.String_of ms;
     localeCompare := fun a b =>
       if String.ltb a b then JS.Num (-1) else if String.eqb a b then JS.Num 0 else JS.Num 1 |}.

(** Earliest day "3", with only part 1 solved on that day. *)
Definition day3_doc : Leaderboard.t :=
  {| Leaderboard.members := Some
       [ ("7", {| Member.id := 7; Member.name := Some "Bo";
                  Member.completion_day_level := Some
                    [ ("3", [ ("1", {| Completion.get_star_ts := 300 |}) ]);
                      ("5", [ ("1", {| Completion.get_star_ts := 510 |});
                              ("2", {| Completion.get_star_ts := 520 |}) ]) ] |});
         ("9", {| Member.id := 9; Member.name := None;
                  Member.completion_day_level := Some
                    [ ("4", [ ("1", {| Completion.get_star_ts := 400 |});
                              ("2", {| Completion.get_star_ts := 450 |}) ]) ] |}) ] |}.

(** A completion whose timestamp is 0. *)
Definition zero_member : Member.t :=
  {| Member.id := 4; Member.name := Some "Cy";
     Member.completion_day_level := Some
       [ ("1", [ ("1", {| Completion.get_star_ts := 0 |}) ]) ] |}.

Definition zero_doc : Leaderboard.t :=
  {| Leaderboard.members := Some
       [ ("3", {| Member.id := 3; Member.name := Some "Al";
                  Member.completion_day_level := Some
                    [ ("1", [ ("1", {| Completion.get_star_ts := 100 |}) ]) ] |});
         ("4", zero_member) ] |}.

(** A filled-in form, nothing cached yet. *)
Definition filled_state : Client.State :=
  {| Client.year := "2024"; Client.leaderboardCode := "123456";
     Client.sessionToken := "secret";
     Client.selectedDay := "1"; Client.selectedPart := "1";
     Client.selectedPlayerId := "";
     Client.leaderboard := None; Client.loading := false; Client.error := "";
     Client.cache := ∅ |}.




(** A browser in which the user confirms, the clock reads 2000 and 2001 at
    its first two readings and more than fifteen minutes later from the third
    on, and the proxy answers 400 to a body without a year and serves the
    example document otherwise. *)
Definition sample_world : Client.World :=
  {| Client.confirm_answer := fun _ => true;
     Client.clock := fun n =>
       match n with
       | 0%nat => 2000
       | 1%nat => 2001
       | _ => 1000000 + Z.of_nat n
       end;
     Client.network := fun r =>
       if JS.truthy_string (Client.body_year r)
       then Client.Responded 200 (Client.Json example_doc)
       else Client.Responded 400 (Client.Unparsable "") |}.

(** The example document in a heap, with the array [["1", "2"]]. *)
Definition example_heap : gmap Heap.loc Heap.cell :=
  list_to_map
    [ (1%positive, Heap.Obj [ ("get_star_ts", Heap.Number (JS.Num 1000)) ]);
      (2%positive, Heap.Obj [ ("get_star_ts", Heap.Number (JS.Num 2000)) ]);
      (3%positive, Heap.Obj [ ("1", Heap.Ref 1%positive); ("2", Heap.Ref 2%positive) ]);
      (4%positive, Heap.Obj [ ("1", Heap.Ref 3%positive) ]);
      (5%positive, Heap.Obj [ ("id", Heap.Number (JS.Num 1)); ("name", Heap.Str "Ann");
                              ("completion_day_level", Heap.Ref 4%positive) ]);
      (6%positive, Heap.Obj [ ("get_star_ts", Heap.Number (JS.Num 500)) ]);
      (7%positive, Heap.Obj [ ("1", Heap.Ref 6%positive) ]);
      (8%positive, Heap.Obj [ ("1", Heap.Ref 7%positive) ]);
      (9%positive, Heap.Obj [ ("id", Heap.Number (JS.Num 2));
                              ("completion_day_level", Heap.Ref 8%positive) ]);
      (10%positive, Heap.Obj [ ("1", Heap.Ref 5%positive); ("2", Heap.Ref 9%positive) ]);
      (11%positive, Heap.Obj [ ("members", Heap.Ref 10%positive) ]);
      (12%positive, Heap.Arr [ Heap.Str "1"; Heap.Str "2" ]) ].

(** The form of [filled_state] with the example document loaded. *)
Definition loaded_state : Client.State :=
  {| Client.year := "2024"; Client.leaderboardCode := "123456";
     Client.sessionToken := "secret";
     Client.selectedDay := "1"; Client.selectedPart := "1";
     Client.selectedPlayerId := "";
     Client.leaderboard := Some example_doc; Client.loading := false;
     Client.error := ""; Client.cache := ∅ |}.

(** A browser in which the user declines the confirmation. *)
Definition declining_world : Client.World :=
  {| Client.confirm_answer := fun _ => false;
     Client.clock := fun _ => 2000;
     Client.network := fun _ => Client.Responded 200 (Client.Json example_doc) |}.

(** A browser whose requests are answered 404. *)
Definition failing_world : Client.World :=
  {| Client.confirm_answer := fun _ => true;
     Client.clock := fun _ => 2000;
     Client.network := fun _ => Client.Responded 404 (Client.Unparsable "") |}.



(** A filled-in form of the earlier revision; the token has a trailing
    space. *)
Definition legacy_state : LegacyClient.State :=
  {| LegacyClient.year := "2024"; LegacyClient.leaderboardCode := "123456";
     LegacyClient.sessionToken := "secret ";
     LegacyClient.selectedDay := "1"; LegacyClient.selectedPart := "1";
     LegacyClient.leaderboard := None; LegacyClient.loading := false;
     LegacyClient.error := "" |}.

(** * Properties *)

(** ** [Array.prototype.sort] *)
Section SortFacts.
Context {A : Type} (cmp : A -> A -> JS.number).

Lemma insert_perm x l : Permutation (JS.insert cmp x l) (x :: l).
Proof.
  induction l as [|y l IH]; simpl; [done|].
  destruct (JS.positive_result (cmp x y)); [|done].
  rewrite IH. apply perm_swap.
Qed.

Lemma sort_perm l : Permutation (JS.sort cmp l) l.
Proof.
  induction l as [|x l IH]; simpl; [done|].
  rewrite insert_perm. by constructor.
Qed.

Lemma sort_elem_of x l : x ∈ JS.sort cmp l ↔ x ∈ l.
Proof. by rewrite sort_perm. Qed.

(** When the comparator is the difference of an integer key on the
    elements satisfying [P], the result is ordered by that key. *)
Context (P : A -> Prop) (key : A -> Z).
Hypothesis cmp_key :
  forall a b, P a -> P b -> JS.positive_result (cmp a b) = (key b <? key a).

Lemma insert_sorted x l :
  P x -> Forall P l ->
  StronglySorted (fun a b => key a <= key b) l ->
  StronglySorted (fun a b => key a <= key b) (JS.insert cmp x l).
Proof.
  intros Px Pl Hs. induction Hs as [|y l Hs IH Hy]; simpl.
  - repeat constructor.
  - apply Forall_cons in Pl as [Py Pl].
    rewrite (cmp_key x y Px Py). destruct (Z.ltb_spec (key y) (key x)) as [Hlt|Hge].
    + constructor; [by apply IH|].
      rewrite insert_perm. constructor; [lia|done].
    + constructor; [by constructor|].
      constructor; [done|].
      eapply Forall_impl; [exact Hy|]. simpl. intros; lia.
Qed.

Lemma sort_sorted l :
  Forall P l -> StronglySorted (fun a b => key a <= key b) (JS.sort cmp l).
Proof.
  induction 1 as [|x l Px Pl IH]; simpl; [constructor|].
  apply insert_sorted; [done| |done].
  by rewrite sort_perm.
Qed.

(** The first element of the result is a minimum of the input. *)
Lemma sort_head l x :
  Forall P l -> head (JS.sort cmp l) = Some x ->
  x ∈ l ∧ ∀ y, y ∈ l -> key x <= key y.
Proof.
  intros Pl Hx. pose proof (sort_sorted l Pl) as Hs.
  destruct (JS.sort cmp l) as [|x' s] eqn:E; simplify_eq/=.
  apply StronglySorted_inv in Hs as [_ Hall].
  split.
  - apply sort_elem_of. rewrite E. left.
  - intros y Hy. apply sort_elem_of in Hy. rewrite E in Hy.
    apply elem_of_cons in Hy as [->|Hy]; [lia|].
    rewrite Forall_forall in Hall. by apply Hall.
Qed.

Lemma sort_nil_inv l : JS.sort cmp l = [] -> l = [].
Proof.
  intros E. apply Permutation_nil. by rewrite <- E, sort_perm.
Qed.
End SortFacts.

Lemma StronglySorted_lookup {A : Type} (R : A -> A -> Prop) (l : list A) :
  StronglySorted R l ->
  forall (i j : nat) a b, (i < j)%nat -> l !! i = Some a -> l !! j = Some b -> R a b.
Proof.
  induction 1 as [|x l Hs IH Hx]; intros i j a b Hij Ha Hb; [done|].
  destruct j as [|j]; [lia|]. simpl in Hb.
  destruct i as [|i]; simpl in Ha.
  - simplify_eq. rewrite Forall_forall in Hx. apply Hx.
    by eapply list_elem_of_lookup_2.
  - eapply (IH i j); [lia|done..].
Qed.

(** ** [buildLeaderboard] *)
Section BuildLeaderboardFacts.
Context (format : Z -> string) (day part : string).

(** The [forEach] loop pushes one row per member that has the completion. *)
Lemma forEach_push (members : list Member.t) (rows : list Row.t) :
  foldl (fun rows member =>
    match completion_at member day part with
    | None => rows
    | Some completion => rows ++ [row_of format member completion]
    end) rows members
  = rows ++ omap (fun member => row_of format member <$> completion_at member day part)
              members.
Proof.
  revert rows. induction members as [|m members IH]; intros rows; simpl.
  - by rewrite app_nil_r.
  - rewrite IH. destruct (completion_at m day part); simpl; [|done].
    by rewrite <- app_assoc.
Qed.

Lemma by_timestamp_key (a b : Row.t) :
  True -> True ->
  JS.positive_result (by_timestamp a b) = (Row.timestamp b <? Row.timestamp a).
Proof.
  intros _ _. unfold by_timestamp; simpl.
  destruct (Z.ltb_spec 0 (Row.timestamp a - Row.timestamp b)),
    (Z.ltb_spec (Row.timestamp b) (Row.timestamp a)); lia || done.
Qed.

Lemma ranked_lookup members (i : nat) (r : RankedRow.t) :
  ranked format day part members !! i = Some r ->
  ∃ row, JS.sort by_timestamp
           (omap (fun member => row_of format member <$> completion_at member day part)
              members) !! i = Some row
         ∧ r = with_rank i row.
Proof.
  unfold ranked. rewrite list_lookup_imap.
  destruct (_ !! i) as [row|] eqn:E; simpl; [|done].
  intros [= <-]. eauto.
Qed.

Lemma ranked_sorted members (i j : nat) (ri rj : RankedRow.t) :
  (i <= j)%nat -> ranked format day part members !! i = Some ri -> ranked format day part members !! j = Some rj ->
  RankedRow.timestamp ri <= RankedRow.timestamp rj.
Proof.
  intros Hij Hi Hj.
  apply ranked_lookup in Hi as (a & Ha & ->).
  apply ranked_lookup in Hj as (b & Hb & ->). simpl.
  destruct (decide (i = j)) as [->|Hne]; [by simplify_eq|].
  eapply (StronglySorted_lookup (fun a b => Row.timestamp a <= Row.timestamp b));
    [|by apply Nat.le_neq|done..].
  eapply (sort_sorted by_timestamp (fun _ => True)); [by apply by_timestamp_key|].
  by apply Forall_forall.
Qed.

Lemma ranked_rank members (i : nat) (r : RankedRow.t) :
  ranked format day part members !! i = Some r -> RankedRow.rank r = Z.of_nat i + 1.
Proof. intros Hi. by apply ranked_lookup in Hi as (a & Ha & ->). Qed.

(** Every row comes from a member that has the completion. *)
Lemma ranked_source members (r : RankedRow.t) :
  r ∈ ranked format day part members ->
  ∃ member completion,
    member ∈ members ∧ completion_at member day part = Some completion
    ∧ RankedRow.id r = Member.id member
    ∧ RankedRow.name r = display_name member
    ∧ RankedRow.completedAt r = format (Completion.get_star_ts completion)
    ∧ RankedRow.timestamp r = Completion.get_star_ts completion.
Proof.
  intros Hr. apply list_elem_of_lookup in Hr as [i Hi].
  apply ranked_lookup in Hi as (row & Hrow & ->).
  apply list_elem_of_lookup_2, sort_elem_of, list_elem_of_omap in Hrow
    as (member & Hm & Hc).
  destruct (completion_at member day part) as [c|] eqn:E; simplify_eq/=.
  by exists member, c.
Qed.

(** Every member that has the completion gets a row. *)
Lemma ranked_complete members member completion :
  member ∈ members -> completion_at member day part = Some completion ->
  ∃ i, ranked format day part members !! i = Some (with_rank i (row_of format member completion)).
Proof.
  intros Hm Hc.
  assert (row_of format member completion ∈
    JS.sort by_timestamp
      (omap (fun member => row_of format member <$> completion_at member day part)
         members)) as Hin.
  { apply sort_elem_of, list_elem_of_omap. exists member. by rewrite Hc. }
  apply list_elem_of_lookup in Hin as [i Hi]. exists i.
  unfold ranked. by rewrite list_lookup_imap, Hi.
Qed.
End BuildLeaderboardFacts.

Lemma App_buildLeaderboard_ranked `{Host} leaderboard (day part : string) :
  App.buildLeaderboard leaderboard day part
  = ranked App.formatCompletionTime day part (members_of leaderboard).
Proof.
  destruct leaderboard as [lb|]; [|done].
  unfold App.buildLeaderboard, ranked, members_of; simpl.
  f_equal. f_equal.
  exact (forEach_push App.formatCompletionTime day part _ []).
Qed.

Lemma Legacy_buildLeaderboard_ranked `{Host} leaderboard (day part : string) :
  Legacy.buildLeaderboard leaderboard day part
  = ranked Legacy.formatCompletionTime day part (members_of leaderboard).
Proof.
  destruct leaderboard as [lb|]; [|done].
  unfold Legacy.buildLeaderboard, ranked, members_of; simpl.
  f_equal. f_equal.
  exact (forEach_push Legacy.formatCompletionTime day part _ []).
Qed.

(** C1. For every leaderboard document (or none), day and part, the rows
    [buildLeaderboard] returns are ordered by non-decreasing timestamp and the
    rank of each row is its 1-based position; this holds for the function of
    [App.jsx] and for the one of the earlier revision.  On the example
    document of the specification, [buildLeaderboard(doc, "1", "1")] is member
    2 named "Anonymous #2" at rank 1 followed by member 1 named "Ann" at
    rank 2. *)
Theorem buildLeaderboard_sorted_ranked `{Host} :
  (∀ (leaderboard : option Leaderboard.t) (day part : string),
     let rows := App.buildLeaderboard leaderboard day part in
     (∀ (i j : nat) ri rj, (i <= j)%nat -> rows !! i = Some ri -> rows !! j = Some rj ->
        RankedRow.timestamp ri <= RankedRow.timestamp rj)
     ∧ (∀ (i : nat) r, rows !! i = Some r -> RankedRow.rank r = Z.of_nat i + 1))
  ∧ (∀ (leaderboard : option Leaderboard.t) (day part : string),
     let rows := Legacy.buildLeaderboard leaderboard day part in
     (∀ (i j : nat) ri rj, (i <= j)%nat -> rows !! i = Some ri -> rows !! j = Some rj ->
        RankedRow.timestamp ri <= RankedRow.timestamp rj)
     ∧ (∀ (i : nat) r, rows !! i = Some r -> RankedRow.rank r = Z.of_nat i + 1))
  ∧ map (fun r => (RankedRow.id r, RankedRow.name r, RankedRow.rank r))
      (App.buildLeaderboard (Some example_doc) "1" "1")
    = [ (2, "Anonymous #2", 1); (1, "Ann", 2) ]
  ∧ map (fun r => (RankedRow.id r, RankedRow.name r, RankedRow.rank r))
      (Legacy.buildLeaderboard (Some example_doc) "1" "1")
    = [ (2, "Anonymous #2", 1); (1, "Ann", 2) ].
Proof.
  split_and!.
  - intros leaderboard day part rows. subst rows.
    rewrite App_buildLeaderboard_ranked. split.
    + apply ranked_sorted.
    + apply ranked_rank.
  - intros leaderboard day part rows. subst rows.
    rewrite Legacy_buildLeaderboard_ranked. split.
    + apply ranked_sorted.
    + apply ranked_rank.
  - reflexivity.
  - reflexivity.
Qed.

(** C9. In [App.jsx], a member whose completion for the requested day and
    part has [get_star_ts] equal to 0 still gets a row; the row's
    [completedAt] is the empty string and its [timestamp] is 0.  It sorts
    first: when no completion for that day and part has a negative timestamp
    (they are seconds since the epoch), every row placed before it has
    timestamp 0 as well. *)
Theorem buildLeaderboard_zero_timestamp `{Host}
  (leaderboard : option Leaderboard.t) (day part : string)
  (member : Member.t) (completion : Completion.t) :
  member ∈ members_of leaderboard ->
  completion_at member day part = Some completion ->
  Completion.get_star_ts completion = 0 ->
  (∀ m c, m ∈ members_of leaderboard -> completion_at m day part = Some c ->
     0 <= Completion.get_star_ts c) ->
  ∃ (i : nat) (r : RankedRow.t),
    App.buildLeaderboard leaderboard day part !! i = Some r
    ∧ RankedRow.id r = Member.id member
    ∧ RankedRow.name r = display_name member
    ∧ RankedRow.completedAt r = ""
    ∧ RankedRow.timestamp r = 0
    ∧ RankedRow.rank r = Z.of_nat i + 1
    ∧ ∀ (j : nat) r', (j < i)%nat ->
        App.buildLeaderboard leaderboard day part !! j = Some r' ->
        RankedRow.timestamp r' = 0.
Proof.
  intros Hm Hc Hts Hnonneg. rewrite App_buildLeaderboard_ranked.
  destruct (ranked_complete App.formatCompletionTime day part _ _ _ Hm Hc) as [i Hi].
  exists i, (with_rank i (row_of App.formatCompletionTime member completion)).
  split_and!; try done.
  - simpl. by rewrite Hts.
  - intros j r' Hji Hj.
    pose proof (ranked_sorted _ _ _ _ j i _ _ (Nat.lt_le_incl _ _ Hji) Hj Hi) as Hle.
    simpl in Hle. rewrite Hts in Hle.
    apply list_elem_of_lookup_2, ranked_source in Hj
      as (m & c & Hm' & Hc' & _ & _ & _ & Hts').
    specialize (Hnonneg m c Hm' Hc'). lia.
Qed.

(** ** [buildPlayerSubmissions] *)
Section BuildPlayerSubmissionsFacts.
Context (format : Z -> string) (player : Member.t).

(** The two nested [forEach] loops push the rows of part 1 and part 2 of
    each day, day after day. *)
Lemma forEach_days (dayNumbers : list string) (rows : list SubmissionRow.t) :
  foldl (fun rows day =>
    foldl (fun rows part =>
      rows ++ [ {| SubmissionRow.day := day;
                   SubmissionRow.part := JS.String_of part;
                   SubmissionRow.completedAt :=
                     match completion_at player day (JS.String_of part) with
                     | Some completion => format (Completion.get_star_ts completion)
                     | None => "Not completed"
                     end |} ])
      rows [1; 2])
    rows dayNumbers
  = rows ++ flat_map (fun day => [submission format player day "1"; submission format player day "2"]) dayNumbers.
Proof.
  revert rows. induction dayNumbers as [|day days IH]; intros rows; simpl.
  - by rewrite app_nil_r.
  - rewrite IH. by rewrite <- !app_assoc.
Qed.

Lemma day_rows_length (dayNumbers : list string) :
  length (flat_map (fun day => [submission format player day "1"; submission format player day "2"]) dayNumbers)
  = (2 * length dayNumbers)%nat.
Proof. induction dayNumbers as [|d ds IH]; simpl; [done|]. rewrite IH. lia. Qed.

Lemma day_rows_lookup (dayNumbers : list string) (i : nat) (day : string) :
  dayNumbers !! i = Some day ->
  flat_map (fun day => [submission format player day "1"; submission format player day "2"]) dayNumbers
    !! (2 * i)%nat = Some (submission format player day "1")
  ∧ flat_map (fun day => [submission format player day "1"; submission format player day "2"]) dayNumbers
    !! (2 * i + 1)%nat = Some (submission format player day "2").
Proof.
  revert i. induction dayNumbers as [|d ds IH]; intros i Hi; [done|].
  destruct i as [|i]; simpl in Hi.
  - by simplify_eq.
  - replace (2 * S i)%nat with (S (S (2 * i))) by lia.
    replace (S (S (2 * i)) + 1)%nat with (S (S (2 * i + 1))) by lia.
    simpl. by apply IH.
Qed.

Lemma day_rows_elem_of (dayNumbers : list string) (r : SubmissionRow.t) :
  r ∈ flat_map (fun day => [submission format player day "1"; submission format player day "2"]) dayNumbers ->
  SubmissionRow.completedAt r
  = submission_status format player (SubmissionRow.day r) (SubmissionRow.part r).
Proof.
  rewrite list_elem_of_In, in_flat_map. intros (day & _ & Hr).
  simpl in Hr. by destruct Hr as [<-|[<-|[]]].
Qed.
End BuildPlayerSubmissionsFacts.

(** The player [buildPlayerSubmissions] looks up. *)
Lemma find_player (members : list Member.t) (playerId : string) :
  match find (fun member => String.eqb (JS.String_of (Member.id member)) playerId)
          members with
  | Some player => player ∈ members ∧ JS.String_of (Member.id player) = playerId
  | None => ∀ m, m ∈ members -> JS.String_of (Member.id m) ≠ playerId
  end.
Proof.
  destruct (find _ members) as [player|] eqn:E.
  - apply find_some in E as [Hin Heq]. split; [by apply list_elem_of_In|].
    by apply String.eqb_eq.
  - intros m Hm. apply list_elem_of_In in Hm.
    pose proof (find_none _ _ E m Hm) as Hne. simpl in Hne.
    by apply String.eqb_neq.
Qed.

Lemma truthy_string_spec (s : string) : JS.truthy_string s = false ↔ s = "".
Proof. unfold JS.truthy_string. by destruct (decide (s = "")). Qed.

Lemma App_buildPlayerSubmissions_rows `{Host} (doc : Leaderboard.t)
  (playerId : string) (dayNumbers : list string) :
  App.buildPlayerSubmissions (Some doc) playerId dayNumbers
  = if decide (playerId = "") then []
    else match find (fun member =>
                 String.eqb (JS.String_of (Member.id member)) playerId)
                 (members_of (Some doc)) with
         | None => []
         | Some player =>
             flat_map (fun day =>
               [ submission App.formatCompletionTime player day "1";
                 submission App.formatCompletionTime player day "2" ]) dayNumbers
         end.
Proof.
  unfold App.buildPlayerSubmissions, members_of, JS.truthy_string; simpl.
  destruct (decide (playerId = "")); simpl; [done|].
  destruct (find _ _) as [player|]; [|done].
  exact (forEach_days App.formatCompletionTime player dayNumbers []).
Qed.

(** C5. For every leaderboard document, player id and list of day numbers:
    when the id is empty or no member's id, as a string, equals it,
    [buildPlayerSubmissions] returns the empty sequence; otherwise there is a
    member with that id for which it returns exactly two rows per day, in the
    order of [dayNumbers], part "1" before part "2" within each day, each row
    carrying the formatted completion time when the member has the completion
    entry and "Not completed" when it has not. *)
Theorem buildPlayerSubmissions_rows `{Host} (doc : Leaderboard.t)
  (playerId : string) (dayNumbers : list string) :
  let rows := App.buildPlayerSubmissions (Some doc) playerId dayNumbers in
  ((playerId = ""
    ∨ ∀ m, m ∈ members_of (Some doc) -> JS.String_of (Member.id m) ≠ playerId) ->
   rows = [])
  ∧ (playerId ≠ "" ->
     (∃ m, m ∈ members_of (Some doc) ∧ JS.String_of (Member.id m) = playerId) ->
     ∃ player,
       player ∈ members_of (Some doc)
       ∧ JS.String_of (Member.id player) = playerId
       ∧ length rows = (length dayNumbers * 2)%nat
       ∧ ∀ (i : nat) (day : string), dayNumbers !! i = Some day ->
           rows !! (2 * i)%nat
           = Some {| SubmissionRow.day := day; SubmissionRow.part := "1";
                     SubmissionRow.completedAt :=
                       match completion_at player day "1" with
                       | Some completion =>
                           App.formatCompletionTime (Completion.get_star_ts completion)
                       | None => "Not completed"
                       end |}
           ∧ rows !! (2 * i + 1)%nat
             = Some {| SubmissionRow.day := day; SubmissionRow.part := "2";
                       SubmissionRow.completedAt :=
                         match completion_at player day "2" with
                         | Some completion =>
                             App.formatCompletionTime (Completion.get_star_ts completion)
                         | None => "Not completed"
                         end |}).
Proof.
  intros rows. subst rows. rewrite App_buildPlayerSubmissions_rows.
  pose proof (find_player (members_of (Some doc)) playerId) as Hfind.
  split.
  - intros [->|Hnone]; [done|].
    destruct (decide (playerId = "")); [done|].
    destruct (find _ _) as [player|]; [|done].
    destruct Hfind as [Hin Heq]. by destruct (Hnone player Hin).
  - intros Hne (m & Hm & Hid).
    destruct (decide (playerId = "")); [done|].
    destruct (find _ _) as [player|]; [|by destruct (Hfind m Hm)].
    destruct Hfind as [Hin Heq]. exists player. split_and!; [done..| |].
    + rewrite day_rows_length. lia.
    + intros i day Hday.
      exact (day_rows_lookup App.formatCompletionTime player dayNumbers i day Hday).
Qed.

(** C2. Every row [buildLeaderboard] returns belongs to a member whose
    [completion_day_level] holds a completion for exactly the requested day and
    part, and shows that completion's timestamp; every row
    [buildPlayerSubmissions] returns belongs to the member with the requested
    id and shows "Not completed" whenever that member has no completion entry
    for the row's day and part (and the formatted time of the entry
    otherwise). *)
Theorem rows_come_from_completions `{Host} (leaderboard : option Leaderboard.t)
  (day part playerId : string) (dayNumbers : list string) :
  (∀ r, r ∈ App.buildLeaderboard leaderboard day part ->
     ∃ member completion,
       member ∈ members_of leaderboard
       ∧ completion_at member day part = Some completion
       ∧ RankedRow.id r = Member.id member
       ∧ RankedRow.timestamp r = Completion.get_star_ts completion
       ∧ RankedRow.completedAt r
         = App.formatCompletionTime (Completion.get_star_ts completion))
  ∧ (∀ r, r ∈ App.buildPlayerSubmissions leaderboard playerId dayNumbers ->
     ∃ player,
       player ∈ members_of leaderboard
       ∧ JS.String_of (Member.id player) = playerId
       ∧ match completion_at player (SubmissionRow.day r) (SubmissionRow.part r) with
         | Some completion =>
             SubmissionRow.completedAt r
             = App.formatCompletionTime (Completion.get_star_ts completion)
         | None => SubmissionRow.completedAt r = "Not completed"
         end).
Proof.
  split.
  - intros r Hr. rewrite App_buildLeaderboard_ranked in Hr.
    apply ranked_source in Hr as (m & c & Hm & Hc & Hid & _ & Hat & Hts).
    by exists m, c.
  - intros r Hr. destruct leaderboard as [doc|]; [|by apply elem_of_nil in Hr].
    rewrite App_buildPlayerSubmissions_rows in Hr.
    pose proof (find_player (members_of (Some doc)) playerId) as Hfind.
    destruct (decide (playerId = "")); [by apply elem_of_nil in Hr|].
    destruct (find _ _) as [player|]; [|by apply elem_of_nil in Hr].
    destruct Hfind as [Hin Heq]. exists player. split_and!; [done..|].
    apply day_rows_elem_of in Hr. unfold submission_status in Hr.
    by destruct (completion_at player _ _).
Qed.

(** ** [findDefaultSelection] *)

(** [Number] reads back the numeral [String] prints for a natural number. *)
Lemma Number_String_of (n : N) :
  JS.Number (JS.String_of (Z.of_N n)) = JS.Num (Z.of_N n).
Proof.
  unfold JS.Number, JS.String_of, JS.toString.
  assert (NilZero.string_of_int (Z.to_int (Z.of_N n))
          = NilEmpty.string_of_uint (N.to_uint n)) as ->.
  { destruct n as [|p]; [done|]. simpl.
    pose proof (Unsigned.to_uint_nonnil p) as Hnil.
    unfold NilZero.string_of_uint. by destruct (Pos.to_uint p). }
  by rewrite NilEmpty.usu, DecimalN.Unsigned.of_to.
Qed.

Lemma day_number_key_canonical (k : string) :
  day_number_key k -> ∃ z, JS.Number k = JS.Num z ∧ JS.toString (JS.Num z) = k.
Proof. intros (n & _ & ->). exists (Z.of_N n). by rewrite Number_String_of. Qed.

Lemma sub_key (a b : JS.number) :
  (∃ z, a = JS.Num z) -> (∃ z, b = JS.Num z) ->
  JS.positive_result (JS.sub a b) = (number_value b <? number_value a).
Proof.
  intros [x ->] [y ->]. simpl.
  destruct (Z.ltb_spec 0 (x - y)), (Z.ltb_spec y x); lia || done.
Qed.

Lemma first_day_min (days : list string) :
  (∀ k, k ∈ days -> day_number_key k) -> days ≠ [] ->
  first_day days ∈ days
  ∧ ∀ k, k ∈ days -> JS.le (JS.Number (first_day days)) (JS.Number k).
Proof.
  intros Hkeys Hne. unfold first_day.
  assert (Forall (fun a => ∃ z, a = JS.Num z) (map JS.Number days)) as Hnum.
  { apply Forall_forall. intros a Ha. apply list_elem_of_fmap in Ha as (k & -> & Hk).
    destruct (day_number_key_canonical k (Hkeys k Hk)) as (z & Hz & _). eauto. }
  destruct (head _) as [n|] eqn:Hhead.
  - destruct (sort_head JS.sub _ number_value sub_key _ _ Hnum Hhead) as [Hin Hmin].
    apply list_elem_of_fmap in Hin as (k0 & -> & Hk0).
    destruct (day_number_key_canonical k0 (Hkeys k0 Hk0)) as (z0 & Hz0 & Hs0).
    rewrite Hz0, Hs0. split; [done|].
    intros k Hk. rewrite Hz0.
    destruct (day_number_key_canonical k (Hkeys k Hk)) as (z & Hz & _).
    specialize (Hmin (JS.Number k)). rewrite Hz0, Hz in Hmin. rewrite Hz. simpl.
    apply Hmin. rewrite <- Hz. apply list_elem_of_fmap. eauto.
  - destruct (JS.sort JS.sub (map JS.Number days)) eqn:E; [|done].
    apply sort_nil_inv, fmap_nil_inv in E. done.
Qed.

Lemma existsb_completion (members : list Member.t) (day part : string) :
  existsb (fun member => truthy_object (completion_at member day part)) members = true
  ↔ ∃ m, m ∈ members ∧ is_Some (completion_at m day part).
Proof.
  rewrite existsb_exists. split.
  - intros (m & Hm & Ht). exists m. split; [by apply list_elem_of_In|].
    by destruct (completion_at m day part).
  - intros (m & Hm & [c Hc]). exists m. split; [by apply list_elem_of_In|].
    by rewrite Hc.
Qed.

Lemma App_findDefaultSelection_day (leaderboard : option Leaderboard.t) :
  Selection.day (App.findDefaultSelection leaderboard)
  = first_day (all_days leaderboard).
Proof. done. Qed.

Lemma App_findDefaultSelection_part (leaderboard : option Leaderboard.t) :
  Selection.part (App.findDefaultSelection leaderboard)
  = if existsb (fun member =>
         truthy_object (completion_at member (first_day (all_days leaderboard)) "2"))
         (members_of leaderboard)
    then "2" else "1".
Proof.
  unfold App.findDefaultSelection; simpl. fold (all_days leaderboard).
  fold (first_day (all_days leaderboard)).
  by repeat destruct (existsb _ _).
Qed.

(** C4. For every leaderboard document whose day keys are day-number strings,
    [findDefaultSelection] returns as day the numerically smallest day key
    found under any member's [completion_day_level], or "1" when there is
    none, and as part "2" when some member has a completion for part 2 of that
    day and "1" otherwise.  In particular, when the earliest day is "3" and
    nobody has part 2 of day 3, the result is day "3", part "1". *)
Theorem findDefaultSelection_spec (leaderboard : option Leaderboard.t) :
  well_keyed leaderboard ->
  let selection := App.findDefaultSelection leaderboard in
  (all_days leaderboard = [] -> Selection.day selection = "1")
  ∧ (all_days leaderboard ≠ [] ->
     Selection.day selection ∈ all_days leaderboard
     ∧ ∀ k, k ∈ all_days leaderboard ->
         JS.le (JS.Number (Selection.day selection)) (JS.Number k))
  ∧ ((∃ m, m ∈ members_of leaderboard
          ∧ is_Some (completion_at m (Selection.day selection) "2")) ->
     Selection.part selection = "2")
  ∧ ((∀ m, m ∈ members_of leaderboard ->
          completion_at m (Selection.day selection) "2" = None) ->
     Selection.part selection = "1")
  ∧ ("3" ∈ all_days leaderboard ->
     (∀ k, k ∈ all_days leaderboard -> JS.le (JS.Num 3) (JS.Number k)) ->
     (∀ m, m ∈ members_of leaderboard -> completion_at m "3" "2" = None) ->
     selection = {| Selection.day := "3"; Selection.part := "1" |}).
Proof.
  intros Hkeys selection.
  assert (Selection.part selection = "1" ∨ Selection.part selection = "2") as Hpart12.
  { subst selection. rewrite App_findDefaultSelection_part.
    destruct (existsb _ _); auto. }
  assert ((∀ m, m ∈ members_of leaderboard ->
             completion_at m (Selection.day selection) "2" = None) ->
          Selection.part selection = "1") as Hpart1.
  { intros Hnone. subst selection. rewrite App_findDefaultSelection_part.
    destruct (existsb _ _) eqn:E; [|done].
    apply existsb_completion in E as (m & Hm & [c Hc]).
    rewrite <- App_findDefaultSelection_day in Hc.
    by rewrite (Hnone m Hm) in Hc. }
  split_and!.
  - intros Hnil. subst selection.
    by rewrite App_findDefaultSelection_day, Hnil.
  - intros Hne. subst selection. rewrite App_findDefaultSelection_day.
    by apply first_day_min.
  - intros Hex. subst selection. rewrite App_findDefaultSelection_part.
    rewrite App_findDefaultSelection_day in Hex.
    apply existsb_completion in Hex. by rewrite Hex.
  - done.
  - intros H3 Hmin Hnone.
    assert (Selection.day selection = "3") as Hday.
    { assert (all_days leaderboard ≠ []) as Hne by (intros E; rewrite E in H3; by apply elem_of_nil in H3).
      subst selection. rewrite App_findDefaultSelection_day.
      destruct (first_day_min _ Hkeys Hne) as [Hin Hle].
      specialize (Hle "3" H3). specialize (Hmin _ Hin).
      destruct (day_number_key_canonical _ (Hkeys _ Hin)) as (z & Hz & Hs).
      rewrite Hz in Hle, Hmin. change (JS.Number "3") with (JS.Num 3) in Hle.
      simpl in Hle, Hmin. assert (z = 3) as -> by lia. by rewrite <- Hs. }
    rewrite Hday in Hpart1. specialize (Hpart1 Hnone).
    destruct selection as [d p]; simpl in *. by subst.
Qed.

(** C10. The two revisions of [findDefaultSelection] return the same
    selection for every leaderboard document (or none), and the two revisions
    of [computePartAvailability] return the same availability mapping. *)
Theorem revisions_agree (leaderboard : option Leaderboard.t) :
  Legacy.findDefaultSelection leaderboard = App.findDefaultSelection leaderboard
  ∧ Legacy.computePartAvailability leaderboard
    = App.computePartAvailability leaderboard.
Proof. split; reflexivity. Qed.

(** ** The proxy *)

(** C6. For every request the proxy answers: 204 to OPTIONS; 405 to any
    other method that is not POST; to a POST, 400 with an error body when
    year, leaderboardCode or sessionToken is missing (absent or otherwise
    falsy); the upstream's own status with an error body when the upstream
    answered with a status outside 200..299; 200 with the upstream's JSON when
    the upstream answered in 200..299 with a body that parses; and 500 with an
    error body when the upstream fetch or the parsing of its body throws. *)
Theorem handler_responses {Data : Type} (req : Proxy.Request)
  (fetch : Proxy.UpstreamRequest -> Proxy.UpstreamOutcome Data) :
  let res := Proxy.handler req fetch in
  let b := Proxy.body_or_empty (Proxy.body req) in
  (Proxy.method req = "OPTIONS" -> Proxy.status res = 204)
  ∧ (Proxy.method req ≠ "OPTIONS" -> Proxy.method req ≠ "POST" ->
     Proxy.status res = 405)
  ∧ (Proxy.method req = "POST" ->
     (Proxy.truthy (Proxy.year b) = false
      ∨ Proxy.truthy (Proxy.leaderboardCode b) = false
      ∨ Proxy.truthy (Proxy.sessionToken b) = false) ->
     Proxy.status res = 400 ∧ ∃ e, Proxy.sent res = Proxy.ErrorJson e)
  ∧ (Proxy.method req = "POST" ->
     Proxy.truthy (Proxy.year b) = true ->
     Proxy.truthy (Proxy.leaderboardCode b) = true ->
     Proxy.truthy (Proxy.sessionToken b) = true ->
     (∀ upstream_status upstream_body,
        fetch (Proxy.upstream_request b)
        = Proxy.Responded upstream_status upstream_body ->
        ¬ (200 <= upstream_status <= 299) ->
        Proxy.status res = upstream_status ∧ ∃ e, Proxy.sent res = Proxy.ErrorJson e)
     ∧ (∀ upstream_status data,
        fetch (Proxy.upstream_request b)
        = Proxy.Responded upstream_status (Proxy.Json data) ->
        200 <= upstream_status <= 299 ->
        Proxy.status res = 200 ∧ Proxy.sent res = Proxy.DataJson data)
     ∧ (∀ message,
        fetch (Proxy.upstream_request b) = Proxy.Rejected message ->
        Proxy.status res = 500 ∧ ∃ e, Proxy.sent res = Proxy.ErrorJson e)
     ∧ (∀ upstream_status message,
        fetch (Proxy.upstream_request b)
        = Proxy.Responded upstream_status (Proxy.Unparsable message) ->
        200 <= upstream_status <= 299 ->
        Proxy.status res = 500 ∧ ∃ e, Proxy.sent res = Proxy.ErrorJson e)).
Proof.
  intros res b. subst res. unfold Proxy.handler. fold b.
  assert (∀ z, Proxy.ok z = true ↔ 200 <= z <= 299) as Hok.
  { intros z. unfold Proxy.ok. rewrite andb_true_iff, !Z.leb_le. done. }
  split_and!.
  - intros ->. done.
  - intros Ho Hp. apply String.eqb_neq in Ho, Hp. by rewrite Ho, Hp.
  - intros Hm Hmissing. rewrite Hm. simpl.
    destruct Hmissing as [-> | [-> | ->]]; simpl;
      rewrite ?orb_true_r; simpl; eauto.
  - intros Hm Hy Hc Ht. rewrite Hm, Hy, Hc, Ht. simpl. split_and!.
    + intros st body -> Hnot.
      destruct (Proxy.ok st) eqn:E; [by apply Hok in E|]. simpl. eauto.
    + intros st data -> Hin. apply Hok in Hin. by rewrite Hin.
    + intros message ->. simpl. eauto.
    + intros st message -> Hin. apply Hok in Hin. rewrite Hin. simpl. eauto.
Qed.

(** ** The submit handler and its cache *)
Section HandleSubmitFacts.
Context `{Host}.
Import Client.

(** The network call, from a state [st] and after [n] clock readings. *)
Lemma run_fetchLeaderboard (w : World) (n : nat) (st : State) :
  run w n (fetchLeaderboard st)
  = match network w (request_of st) with
    | Rejected message =>
        (inl message, [Fetched (request_of st) (Rejected message)])
    | Responded status body =>
        if negb (ok status)
        then (inl (status_message status),
              [Fetched (request_of st) (Responded status body)])
        else
          match body with
          | Unparsable message =>
              (inl message, [Fetched (request_of st) (Responded status body)])
          | Json json =>
              (inr (show json
                 (cachePut (cacheKey st)
                    {| data := json; fetchedAt := clock w n |} st)),
               [Fetched (request_of st) (Responded status body); Clock (clock w n)])
          end
    end.
Proof.
  unfold fetchLeaderboard, mbind, io_bind. simpl.
  destruct (network w (request_of st)) as [message|status body]; simpl; [done|].
  destruct (ok status); simpl; [|done].
  by destruct body.
Qed.

Lemma run_then_ret {A B : Type} (w : World) (n : nat) (m : io A) (g : A -> B) :
  run w n (m ≫= (fun a => Ret (g a)))
  = (g (fst (run w n m)), snd (run w n m)).
Proof.
  unfold mbind, io_bind. revert n.
  induction m as [a|msg k IH|k IH|r k IH]; intros n; simpl; [done|..];
    rewrite IH; by destruct (run w _ (k _)).
Qed.

Lemma run_tryBlock (w : World) (n : nat) (st : State) :
  run w n (tryBlock st)
  = match cache st !! cacheKey st with
    | Some cached =>
        if clock w n - fetchedAt cached <? FIFTEEN_MIN
        then (inr (show (data cached) st), [Clock (clock w n)])
        else (fst (run w (S n) (fetchLeaderboard st)),
              Clock (clock w n) :: snd (run w (S n) (fetchLeaderboard st)))
    | None => run w n (fetchLeaderboard st)
    end.
Proof.
  unfold tryBlock. destruct (cache st !! cacheKey st) as [cached|]; [|done].
  unfold mbind, io_bind. cbn [bind run].
  destruct (clock w n - fetchedAt cached <? FIFTEEN_MIN); [done|].
  by destruct (run w (S n) (fetchLeaderboard st)).
Qed.

(** What [handleSubmit] does once both fields are filled in and the user
    has confirmed. *)
Lemma run_handleSubmit_confirmed (w : World) (n : nat) (st : State) :
  JS.trim (leaderboardCode st) ≠ "" ->
  JS.trim (sessionToken st) ≠ "" ->
  confirm_answer w confirm_message = true ->
  let st0 := setLeaderboard None (setLoading true (setError "" st)) in
  let finish (r : string + State) :=
    setLoading false
      match r with
      | inr st' => st'
      | inl message =>
          setError (if JS.truthy_string message then message
                    else "Something went wrong while loading data.") st0
      end in
  run w n (handleSubmit st)
  = (finish (fst (run w n (tryBlock st0))),
     Confirmed confirm_message true :: snd (run w n (tryBlock st0))).
Proof.
  intros Hcode Htoken Hconfirm st0 finish. unfold handleSubmit. simpl.
  assert (JS.truthy_string (JS.trim (leaderboardCode st)) = true) as ->.
  { destruct (JS.truthy_string _) eqn:E; [done|]. by apply truthy_string_spec in E. }
  assert (JS.truthy_string (JS.trim (sessionToken st)) = true) as ->.
  { destruct (JS.truthy_string _) eqn:E; [done|]. by apply truthy_string_spec in E. }
  simpl. unfold mbind at 1, io_bind at 1. simpl. rewrite Hconfirm. simpl.
  fold st0.
  change (bind (tryBlock st0) ?f) with (tryBlock st0 ≫= f).
  by rewrite (run_then_ret w n (tryBlock st0) finish).
Qed.
End HandleSubmitFacts.

(** C3. For every key [year:leaderboardCode], on a submit that passes the
    input check and is confirmed, made when the clock reads [clock w n]: when
    the cache holds an entry for the key that was fetched strictly less than
    fifteen minutes before, the cached document is shown, the cache is left as
    it is and no network call is made; when there is no entry or the entry is
    fifteen minutes old or older, exactly one network call is made and, when
    it succeeds, the entry of that key is overwritten with the new document
    and the time read after the call, the other entries being kept. *)
Theorem cache_freshness `{Host} (st : Client.State) (w : Client.World) (n : nat) :
  JS.trim (Client.leaderboardCode st) ≠ "" ->
  JS.trim (Client.sessionToken st) ≠ "" ->
  Client.confirm_answer w Client.confirm_message = true ->
  let key := Client.year st +:+ ":" +:+ Client.leaderboardCode st in
  let result := Client.run w n (Client.handleSubmit st) in
  (∀ cached,
     Client.cache st !! key = Some cached ->
     Client.clock w n - Client.fetchedAt cached < 15 * 60 * 1000 ->
     Client.fetches (snd result) = []
     ∧ Client.leaderboard (fst result) = Some (Client.data cached)
     ∧ Client.cache (fst result) = Client.cache st)
  ∧ ((Client.cache st !! key = None
      ∨ ∃ cached, Client.cache st !! key = Some cached
                  ∧ 15 * 60 * 1000 <= Client.clock w n - Client.fetchedAt cached) ->
     Client.fetches (snd result) = [Client.request_of st]
     ∧ ∀ status json,
         Client.network w (Client.request_of st)
         = Client.Responded status (Client.Json json) ->
         200 <= status <= 299 ->
         ∃ t, last (snd result) = Some (Client.Clock t)
              ∧ Client.cache (fst result)
                = <[key := {| Client.data := json; Client.fetchedAt := t |}]>
                    (Client.cache st)
              ∧ Client.leaderboard (fst result) = Some json).
Proof.
  intros Hcode Htoken Hconfirm key result. subst key result.
  change (Client.year st +:+ ":" +:+ Client.leaderboardCode st) with (Client.cacheKey st).
  rewrite (run_handleSubmit_confirmed w n st Hcode Htoken Hconfirm).
  rewrite run_tryBlock. cbn [fst snd].
  set (st0 := Client.setLeaderboard None
                (Client.setLoading true (Client.setError "" st))).
  change (Client.cache st0) with (Client.cache st).
  change (Client.cacheKey st0) with (Client.cacheKey st).
  rewrite !run_fetchLeaderboard.
  change (Client.request_of st0) with (Client.request_of st).
  change (Client.cacheKey st0) with (Client.cacheKey st).
  split.
  - intros cached Hcached Hfresh. rewrite Hcached.
    change Client.FIFTEEN_MIN with (15 * 60 * 1000).
    destruct (Z.ltb_spec (Client.clock w n - Client.fetchedAt cached) (15 * 60 * 1000));
      [|lia].
    done.
  - intros Hmiss.
    assert (∀ k : nat,
      let r := match Client.network w (Client.request_of st) with
        | Client.Rejected message =>
            (inl message, [Client.Fetched (Client.request_of st) (Client.Rejected message)])
        | Client.Responded status body =>
            if negb (Client.ok status)
            then (inl (Client.status_message status),
                  [Client.Fetched (Client.request_of st) (Client.Responded status body)])
            else match body with
                 | Client.Unparsable message =>
                     (inl message,
                      [Client.Fetched (Client.request_of st) (Client.Responded status body)])
                 | Client.Json json =>
                     (inr (Client.show json
                        (Client.cachePut (Client.cacheKey st)
                           {| Client.data := json; Client.fetchedAt := Client.clock w k |} st0)),
                      [Client.Fetched (Client.request_of st) (Client.Responded status body);
                       Client.Clock (Client.clock w k)])
                 end
        end in
      Client.fetches (snd r) = [Client.request_of st]
      ∧ ∀ status json,
          Client.network w (Client.request_of st)
          = Client.Responded status (Client.Json json) ->
          200 <= status <= 299 ->
          ∃ t, last (snd r) = Some (Client.Clock t)
               ∧ fst r = inr (Client.show json
                   (Client.cachePut (Client.cacheKey st)
                      {| Client.data := json; Client.fetchedAt := t |} st0))) as Hfetch.
    { intros k r. subst r.
      destruct (Client.network w (Client.request_of st)) as [message|status body].
      - split; [done|]. intros ? ? [=].
      - destruct (negb (Client.ok status)) eqn:Eok.
        + split; [done|]. intros ? ? [= -> ->] Hin.
          unfold Client.ok in Eok. apply negb_true_iff, andb_false_iff in Eok.
          rewrite !Z.leb_gt in Eok. lia.
        + destruct body as [message|json].
          * split; [done|]. intros ? ? [=].
          * split; [done|]. intros ? ? [= -> ->] _. eauto. }
    destruct Hmiss as [Hnone|(cached & Hcached & Hstale)].
    + rewrite Hnone. destruct (Hfetch n) as [Hf Hsucc]. split; [exact Hf|].
      intros status json Hnet Hin.
      destruct (Hsucc status json Hnet Hin) as (t & Hlast & Hres).
      exists t. rewrite Hres. split_and!; [|done..].
      by rewrite last_cons, Hlast.
    + rewrite Hcached. change Client.FIFTEEN_MIN with (15 * 60 * 1000).
      destruct (Z.ltb_spec (Client.clock w n - Client.fetchedAt cached) (15 * 60 * 1000));
        [lia|].
      cbn [fst snd]. destruct (Hfetch (S n)) as [Hf Hsucc]. split; [exact Hf|].
      intros status json Hnet Hin.
      destruct (Hsucc status json Hnet Hin) as (t & Hlast & Hres).
      exists t. rewrite Hres. split_and!; [|done..].
      by rewrite !last_cons, Hlast.
Qed.


(** ** Running heap computations *)
Section HeapFacts.
Import Heap.
Implicit Types (h : gmap loc cell) (v : val).

Lemma runs_ret {A : Type} (a : A) h (Q : A -> gmap loc cell -> Prop) :
  Q a h -> runs (mret a) h Q.
Proof. intros HQ. by exists a, h. Qed.

Lemma runs_bind {A B : Type} (m : M A) (f : A -> M B) h
  (Q : B -> gmap loc cell -> Prop) :
  runs m h (fun a h1 => runs (f a) h1 Q) -> runs (m ≫= f) h Q.
Proof.
  intros (a & h1 & Hm & b & h2 & Hf & HQ). exists b, h2. split; [|done].
  unfold mbind, M_bind. by rewrite Hm.
Qed.

Lemma runs_bind_assoc {A B C : Type} (m : M A) (f : A -> M B) (g : B -> M C) h
  (Q : C -> gmap loc cell -> Prop) :
  runs ((m ≫= f) ≫= g) h Q -> runs (m ≫= (fun a => f a ≫= g)) h Q.
Proof.
  intros (c & h' & Hrun & HQ). exists c, h'. split; [|done].
  unfold mbind, M_bind in *. by destruct (m h).
Qed.

Lemma runs_mono {A : Type} (m : M A) h (Q Q' : A -> gmap loc cell -> Prop) :
  runs m h Q -> (∀ a h', Q a h' -> Q' a h') -> runs m h Q'.
Proof. intros (a & h' & Hm & HQ) Himp. exists a, h'. auto. Qed.

Lemma runs_alloc (c : cell) h (Q : val -> gmap loc cell -> Prop) :
  (∀ l, h !! l = None -> Q (Ref l) (<[l := c]> h)) -> runs (alloc c) h Q.
Proof.
  intros HQ. eexists _, _. split; [done|]. apply HQ.
  apply not_elem_of_dom, is_fresh.
Qed.

Lemma runs_get h l props k (Q : val -> gmap loc cell -> Prop) :
  h !! l = Some (Obj props) ->
  Q (default Undefined (JS.get props k)) h -> runs (get (Ref l) k) h Q.
Proof.
  intros Hl HQ. eexists _, _. split; [|exact HQ].
  unfold get, read, mbind, M_bind. by rewrite Hl.
Qed.

Lemma runs_props_of h l props (Q : JS.object val -> gmap loc cell -> Prop) :
  h !! l = Some (Obj props) -> Q props h -> runs (props_of (Ref l)) h Q.
Proof.
  intros Hl HQ. eexists _, _. split; [|exact HQ].
  unfold props_of, read, mbind, M_bind. by rewrite Hl.
Qed.

Lemma runs_items_of h l items (Q : list val -> gmap loc cell -> Prop) :
  h !! l = Some (Arr items) -> Q items h -> runs (items_of (Ref l)) h Q.
Proof.
  intros Hl HQ. eexists _, _. split; [|exact HQ].
  unfold items_of, read, mbind, M_bind. by rewrite Hl.
Qed.

Lemma runs_index h l items i (Q : val -> gmap loc cell -> Prop) :
  h !! l = Some (Arr items) -> Q (default Undefined (items !! i)) h ->
  runs (Array_at (Ref l) i) h Q.
Proof.
  intros Hl HQ. apply runs_bind. eapply runs_items_of; [done|]. by apply runs_ret.
Qed.

Lemma runs_push h l items x (Q : unit -> gmap loc cell -> Prop) :
  h !! l = Some (Arr items) -> Q tt (<[l := Arr (items ++ [x])]> h) ->
  runs (Array_push (Ref l) x) h Q.
Proof.
  intros Hl HQ. apply runs_bind. eapply runs_items_of; [done|].
  by eexists _, _.
Qed.

Lemma runs_set h l props k x (Q : unit -> gmap loc cell -> Prop) :
  h !! l = Some (Obj props) -> Q tt (<[l := Obj (assign props k x)]> h) ->
  runs (set (Ref l) k x) h Q.
Proof.
  intros Hl HQ. unfold set. apply runs_bind.
  exists (Obj props), h. split; [unfold read; by rewrite Hl|].
  by eexists _, _.
Qed.

Lemma runs_reads {A : Type} (m : M A) h (a : A) (Q : A -> gmap loc cell -> Prop) :
  reads m h a -> Q a h -> runs m h Q.
Proof. intros Hm HQ. by exists a, h. Qed.

Lemma reads_bind {A B : Type} (m : M A) (f : A -> M B) h a b :
  reads m h a -> reads (f a) h b -> reads (m ≫= f) h b.
Proof. unfold reads, mbind, M_bind. by intros -> ->. Qed.

Lemma reads_get h l props k :
  h !! l = Some (Obj props) ->
  reads (get (Ref l) k) h (default Undefined (JS.get props k)).
Proof. intros Hl. unfold reads, get, read, mbind, M_bind. by rewrite Hl. Qed.

(** ** Reading a represented document *)

Lemma represents_completion_mono h h' v c :
  h ⊆ h' -> represents_completion h v c -> represents_completion h' v c.
Proof.
  intros Hsub (l & props & -> & Hl & Hts). exists l, props.
  split_and!; [done| |done]. by eapply lookup_weaken.
Qed.

Lemma represents_object_get {A : Type} (R : val -> A -> Prop) (props : JS.object val)
  (o : JS.object A) (k : string) :
  Forall2 (fun p q => fst p = fst q ∧ R (snd p) (snd q)) props o ->
  match JS.get o k with
  | Some a => ∃ x, JS.get props k = Some x ∧ R x a
  | None => JS.get props k = None
  end.
Proof.
  induction 1 as [|[k1 x] [k2 a] props o [Hk HR] _ IH]; simpl; [done|].
  simpl in Hk, HR. subst k2. destruct (decide (k1 = k)); [|done]. eauto.
Qed.

(** [member.completion_day_level?.[day]?.[part]] reads the completion the
    data model has, or [undefined]. *)
Lemma reads_completion_of h0 h v (m : Member.t) (day part : string) :
  represents_member h0 v m -> h0 ⊆ h ->
  ∃ x, reads (completion_of v day part) h x
       ∧ match completion_at m day part with
         | Some c => represents_completion h0 x c
         | None => x = Undefined
         end.
Proof.
  intros (l & props & -> & Hl & _ & _ & Hdays) Hsub.
  unfold completion_of, completion_at.
  pose proof (reads_get h l props "completion_day_level"
                (lookup_weaken _ _ _ _ Hl Hsub)) as Hget.
  destruct (Member.completion_day_level m) as [days|]; simpl in *.
  - destruct Hdays as (x & Hx & ld & dprops & -> & Hld & Hall).
    rewrite Hx in Hget. simpl in Hget.
    pose proof (represents_object_get _ dprops days day Hall) as Hday.
    pose proof (reads_get h ld dprops day (lookup_weaken _ _ _ _ Hld Hsub)) as Hgetd.
    destruct (JS.get days day) as [parts|]; simpl.
    + destruct Hday as (y & Hy & lp & pprops & -> & Hlp & Hpall).
      rewrite Hy in Hgetd. simpl in Hgetd.
      pose proof (represents_object_get _ pprops parts part Hpall) as Hpart.
      pose proof (reads_get h lp pprops part (lookup_weaken _ _ _ _ Hlp Hsub)) as Hgetp.
      destruct (JS.get parts part) as [c|].
      * destruct Hpart as (z & Hz & Hc). rewrite Hz in Hgetp. simpl in Hgetp.
        exists z. split; [|done].
        eapply reads_bind; [exact Hget|]. eapply reads_bind; [exact Hgetd|].
        destruct Hc as (lc & cprops & -> & _). exact Hgetp.
      * rewrite Hpart in Hgetp. simpl in Hgetp.
        exists Undefined. split; [|done].
        eapply reads_bind; [exact Hget|]. eapply reads_bind; [exact Hgetd|].
        exact Hgetp.
    + rewrite Hday in Hgetd. simpl in Hgetd.
      exists Undefined. split; [|done].
      eapply reads_bind; [exact Hget|]. eapply reads_bind; [exact Hgetd|]. done.
  - exists Undefined. split; [|done].
    eapply reads_bind; [exact Hget|].
    destruct Hdays as [-> | [-> | ->]]; done.
Qed.

Lemma reads_id h0 h v (m : Member.t) :
  represents_member h0 v m -> h0 ⊆ h ->
  reads (get v "id") h (Number (JS.Num (Member.id m))).
Proof.
  intros (l & props & -> & Hl & Hid & _) Hsub.
  pose proof (reads_get h l props "id" (lookup_weaken _ _ _ _ Hl Hsub)) as Hget.
  by rewrite Hid in Hget.
Qed.

Lemma reads_name_or_anonymous h0 h v (m : Member.t) :
  represents_member h0 v m -> h0 ⊆ h ->
  reads (name_or_anonymous v) h (Str (display_name m)).
Proof.
  intros Hm Hsub. pose proof (reads_id h0 h v m Hm Hsub) as Hid.
  destruct Hm as (l & props & -> & Hl & _ & Hname & _).
  pose proof (reads_get h l props "name" (lookup_weaken _ _ _ _ Hl Hsub)) as Hget.
  unfold name_or_anonymous, display_name.
  eapply reads_bind; [exact Hget|].
  destruct (Member.name m) as [s|]; simpl in Hname.
  - destruct Hname as (x & -> & ->). simpl.
    destruct (JS.truthy_string s); [done|].
    eapply reads_bind; [exact Hid|]. done.
  - destruct Hname as [-> | [-> | ->]]; simpl;
      (eapply reads_bind; [exact Hid|]); done.
Qed.

(** ** Iteration *)

Lemma reads_any {B : Type} (R : val -> B -> Prop) (g : B -> bool)
  (f : val -> M val) h (items : list val) (xs : list B) :
  Forall2 R items xs ->
  (∀ x b, R x b -> ∃ r, reads (f x) h r ∧ truthy r = g b) ->
  reads (any f items) h (existsb g xs).
Proof.
  intros Hall Hf. induction Hall as [|x b items xs HR _ IH]; simpl; [done|].
  destruct (Hf x b HR) as (r & Hr & Hg).
  eapply reads_bind; [exact Hr|]. rewrite Hg. by destruct (g b).
Qed.

Lemma reads_first {B : Type} (R : val -> B -> Prop) (g : B -> bool)
  (f : val -> M bool) h (items : list val) (xs : list B) :
  Forall2 R items xs ->
  (∀ x b, R x b -> reads (f x) h (g b)) ->
  ∃ r, reads (first f items) h r
       ∧ match List.find g xs with
         | Some b => R r b
         | None => r = Undefined
         end.
Proof.
  intros Hall Hf. induction Hall as [|x b items xs HR _ IH]; simpl.
  - by exists Undefined.
  - pose proof (Hf x b HR) as Hx. destruct (g b) eqn:E.
    + exists x. split; [|done]. eapply reads_bind; [exact Hx|]. done.
    + destruct IH as (r & Hr & Hfound). exists r. split; [|done].
      eapply reads_bind; [exact Hx|]. done.
Qed.

Lemma reads_insert {B : Type} (R : val -> B -> Prop) (c : B -> B -> JS.number)
  (cmp : val -> val -> M JS.number) h x b (items : list val) (xs : list B) :
  (∀ x y a b, R x a -> R y b -> reads (cmp x y) h (c a b)) ->
  R x b -> Forall2 R items xs ->
  ∃ s, reads (insert cmp x items) h s ∧ Forall2 R s (JS.insert c b xs).
Proof.
  intros Hcmp Hx Hall. induction Hall as [|y a items xs HR Hall IH]; simpl.
  - exists [x]. split; [done|]. by repeat constructor.
  - pose proof (Hcmp x y b a Hx HR) as Hc.
    destruct (JS.positive_result (c b a)) eqn:E.
    + destruct IH as (s & Hs & Hrel). exists (y :: s). split; [|by constructor].
      eapply reads_bind; [exact Hc|]. rewrite E.
      eapply reads_bind; [exact Hs|]. done.
    + exists (x :: y :: items). split; [|by repeat constructor].
      eapply reads_bind; [exact Hc|]. by rewrite E.
Qed.

Lemma reads_sorted {B : Type} (R : val -> B -> Prop) (c : B -> B -> JS.number)
  (cmp : val -> val -> M JS.number) h (items : list val) (xs : list B) :
  (∀ x y a b, R x a -> R y b -> reads (cmp x y) h (c a b)) ->
  Forall2 R items xs ->
  ∃ s, reads (sorted cmp items) h s ∧ Forall2 R s (JS.sort c xs).
Proof.
  intros Hcmp Hall. induction Hall as [|x b items xs HR Hall IH]; simpl.
  - by exists [].
  - destruct IH as (s & Hs & Hrel).
    destruct (reads_insert R c cmp h x b s _ Hcmp HR Hrel) as (s' & Hs' & Hrel').
    exists s'. split; [|done]. eapply reads_bind; [exact Hs|]. exact Hs'.
Qed.

(** [a.sort(cmp)] overwrites the cell of [a] with the sorted elements. *)
Lemma runs_Array_sort {B : Type} (R : val -> B -> Prop) (c : B -> B -> JS.number)
  (cmp : val -> val -> M JS.number) h l (items : list val) (xs : list B)
  (Q : val -> gmap loc cell -> Prop) :
  h !! l = Some (Arr items) ->
  Forall2 R items xs ->
  (∀ x y a b, R x a -> R y b -> reads (cmp x y) h (c a b)) ->
  (∀ s, Forall2 R s (JS.sort c xs) -> Q (Ref l) (<[l := Arr s]> h)) ->
  runs (Array_sort (Ref l) cmp) h Q.
Proof.
  intros Hl Hall Hcmp HQ. unfold Array_sort.
  apply runs_bind. eapply runs_items_of; [done|].
  destruct (reads_sorted R c cmp h items xs Hcmp Hall) as (s & Hs & Hrel).
  apply runs_bind. eapply runs_reads; [exact Hs|].
  apply runs_bind. eexists tt, _. split; [done|].
  apply runs_ret. by apply HQ.
Qed.

(** A loop body that keeps an invariant indexed by the elements done. *)
Lemma runs_each {B : Type} (R : val -> B -> Prop)
  (I : list B -> gmap loc cell -> Prop) (f : val -> M unit)
  (items : list val) (xs : list B) (done : list B) h :
  Forall2 R items xs ->
  I done h ->
  (∀ x b done h1, R x b -> I done h1 ->
     runs (f x) h1 (fun _ h2 => I (done ++ [b]) h2)) ->
  runs (each f items) h (fun _ h' => I (done ++ xs) h').
Proof.
  intros Hall. revert done h.
  induction Hall as [|x b items xs HR _ IH]; intros done h HI Hf; simpl.
  - apply runs_ret. by rewrite app_nil_r.
  - apply runs_bind. eapply runs_mono; [by apply Hf|].
    intros [] h1 HI1. simpl in HI1.
    replace (done ++ b :: xs) with ((done ++ [b]) ++ xs) by by rewrite <- app_assoc.
    by apply IH.
Qed.

(** A [map] callback that only allocates. *)
Lemma runs_map_from {B C : Type} (R : val -> B -> Prop)
  (P : C -> val -> gmap loc cell -> Prop) (g : nat -> B -> C)
  (f : val -> nat -> M val) (i : nat) (items : list val) (xs : list B) h :
  Forall2 R items xs ->
  (∀ c y h1 h2, P c y h1 -> h1 ⊆ h2 -> P c y h2) ->
  (∀ x b j h1, R x b -> h ⊆ h1 ->
     runs (f x j) h1 (fun y h2 => h1 ⊆ h2 ∧ P (g j b) y h2)) ->
  runs (map_from f i items) h (fun ys h' =>
    h ⊆ h' ∧ Forall2 (fun y c => P c y h') ys (imap (fun j => g (i + j)%nat) xs)).
Proof.
  intros Hall Hmono. revert i h.
  induction Hall as [|x b items xs HR _ IH]; intros i h Hf; simpl.
  - apply runs_ret. split; [done|constructor].
  - apply runs_bind. eapply runs_mono; [by apply Hf|].
    intros y h1 [Hsub1 Hy]. simpl in *.
    apply runs_bind. eapply runs_mono.
    { apply (IH (S i) h1). intros x' b' j h2 HR' Hsub2.
      apply Hf; [done|]. by etrans. }
    intros ys h2 [Hsub2 Hys]. simpl in *. apply runs_ret. split; [by etrans|].
    constructor.
    + rewrite Nat.add_0_r. by eapply Hmono.
    + erewrite imap_ext; [exact Hys|]. intros j b' _. simpl. f_equal. lia.
Qed.

(** A [flatMap] callback that only allocates and returns an array. *)
Lemma runs_flat {B D : Type} (R : val -> B -> Prop) (P : val -> D -> Prop)
  (g : B -> list D) (f : val -> M val) (items : list val) (xs : list B) h :
  Forall2 R items xs ->
  (∀ x b h1, R x b -> h ⊆ h1 ->
     runs (f x) h1 (fun r h2 =>
       h1 ⊆ h2 ∧ ∃ l ys, r = Ref l ∧ h2 !! l = Some (Arr ys) ∧ Forall2 P ys (g b))) ->
  runs (flat f items) h (fun zs h' => h ⊆ h' ∧ Forall2 P zs (flat_map g xs)).
Proof.
  intros Hall. revert h.
  induction Hall as [|x b items xs HR _ IH]; intros h Hf; simpl.
  - apply runs_ret. split; [done|constructor].
  - apply runs_bind. eapply runs_mono; [by apply Hf|].
    intros r h1 (Hsub1 & l & ys & -> & Hl & Hys). simpl.
    apply runs_bind. eapply runs_items_of; [done|].
    apply runs_bind. eapply runs_mono.
    { apply (IH h1). intros x' b' h2 HR' Hsub2. apply Hf; [done|]. by etrans. }
    intros zs h2 [Hsub2 Hzs]. simpl in *. apply runs_ret. split; [by etrans|].
    by apply Forall2_app.
Qed.

(** ** The members of a document *)

Lemma runs_values_or_empty {A : Type} (R : val -> A -> Prop) h0 h
  (ov : option val) (o : option (JS.object A)) :
  represents_optional (represents_object R h0) ov o -> h0 ⊆ h ->
  runs (or_empty (default Undefined ov) ≫= Object_values) h (fun r h' =>
    h ⊆ h' ∧ ∃ la items, r = Ref la ∧ h' !! la = Some (Arr items)
      ∧ h !! la = None
      ∧ Forall2 R items (JS.Object_values (JS.or_empty o))).
Proof.
  intros Hrep Hsub.
  assert (runs (alloc (Obj []) ≫= Object_values) h (fun r h' =>
    h ⊆ h' ∧ ∃ la items, r = Ref la ∧ h' !! la = Some (Arr items)
      ∧ h !! la = None ∧ Forall2 R items [])) as Hempty.
  { apply runs_bind, runs_alloc. intros l1 Hl1.
    apply runs_bind. eapply runs_props_of; [apply lookup_insert_eq|].
    apply runs_alloc. intros la Hla. simpl.
    apply lookup_insert_None in Hla as [Hla Hne]. split.
    - trans (<[l1 := Obj []]> h); [by apply insert_subseteq|].
      apply insert_subseteq. by apply lookup_insert_None.
    - exists la, []. split_and!; [done|apply lookup_insert_eq|done|constructor]. }
  destruct o as [o|]; simpl in Hrep.
  - destruct Hrep as (x & -> & l & props & -> & Hl & Hall). simpl.
    apply runs_bind, runs_ret. apply runs_bind.
    eapply runs_props_of; [by eapply lookup_weaken|].
    apply runs_alloc. intros la Hla. split; [by apply insert_subseteq|].
    exists la, (List.map snd props). split_and!; [done|apply lookup_insert_eq|done|].
    unfold JS.Object_values. clear -Hall.
    induction Hall as [|p q props o [_ HR] _ IH]; simpl; by constructor.
  - destruct Hrep as [-> | [-> | ->]]; exact Hempty.
Qed.

Lemma runs_member_values h0 h v (doc : option Leaderboard.t) :
  represents h0 v doc -> h0 ⊆ h ->
  runs (member_values v) h (fun r h' =>
    h ⊆ h' ∧ ∃ la items, r = Ref la ∧ h' !! la = Some (Arr items)
      ∧ h !! la = None
      ∧ Forall2 (represents_member h0) items (members_of doc)).
Proof.
  intros Hrep Hsub. unfold member_values, members_of.
  destruct doc as [d|]; simpl in Hrep.
  - destruct Hrep as (l & props & -> & Hl & Hms). simpl.
    apply runs_bind. eapply runs_get; [by eapply lookup_weaken|].
    by apply (runs_values_or_empty (represents_member h0) h0 h
                (JS.get props "members") (Leaderboard.members d)).
  - subst v. simpl. apply runs_bind, runs_ret.
    apply (runs_values_or_empty (represents_member h0) h0 h None None); [|done].
    by left.
Qed.

End HeapFacts.

(** ** [buildLeaderboard] on the heap *)
Section BuildLeaderboardHeap.
Context `{Host}.
Import Heap.

Lemma formatCompletionTime_Number (ts : Z) :
  formatCompletionTime (Number (JS.Num ts)) = Str (App.formatCompletionTime ts).
Proof.
  unfold formatCompletionTime, App.formatCompletionTime. simpl.
  by destruct (JS.truthy_int ts).
Qed.

Lemma represents_row_insert_Arr h l items items' y r :
  h !! l = Some (Arr items) ->
  represents_row h y r -> represents_row (<[l := Arr items']> h) y r.
Proof.
  intros Hl (l' & -> & Hl'). exists l'. split; [done|].
  rewrite lookup_insert_ne; [done|]. intros ->. by rewrite Hl in Hl'.
Qed.

Lemma represents_row_mono h h' y r :
  h ⊆ h' -> represents_row h y r -> represents_row h' y r.
Proof. intros Hsub (l & -> & Hl). exists l. split; [done|]. by eapply lookup_weaken. Qed.

Lemma represents_ranked_mono h h' y r :
  represents_ranked h y r -> h ⊆ h' -> represents_ranked h' y r.
Proof. intros (l & -> & Hl) Hsub. exists l. split; [done|]. by eapply lookup_weaken. Qed.

(** The loop that fills [rows]. *)
Lemma runs_collect_rows h0 h1 lr (day part : string) (items : list val)
  (ms : list Member.t) h :
  h0 ⊆ h1 -> h1 !! lr = None -> h1 ⊆ h -> h !! lr = Some (Arr []) ->
  Forall2 (represents_member h0) items ms ->
  runs (each (fun member =>
      completion ← completion_of member day part;
      if negb (truthy completion) then mret tt
      else
        id ← get member "id";
        name ← name_or_anonymous member;
        completedAt ← (ts ← get completion "get_star_ts";
                       mret (formatCompletionTime ts));
        timestamp ← get completion "get_star_ts";
        row ← alloc (Obj [ ("id", id); ("name", name);
                           ("completedAt", completedAt);
                           ("timestamp", timestamp) ]);
        Array_push (Ref lr) row) items) h
    (fun _ h' =>
       h1 ⊆ h' ∧ ∃ ritems, h' !! lr = Some (Arr ritems)
         ∧ Forall2 (represents_row h') ritems
             (omap (fun m => row_of App.formatCompletionTime m <$> completion_at m day part)
                ms)).
Proof.
  intros Hsub01 Hfresh Hsub1 Hlr Hall.
  eapply runs_mono.
  - eapply (runs_each (represents_member h0)
      (fun done hk =>
         h1 ⊆ hk ∧ ∃ ritems, hk !! lr = Some (Arr ritems)
           ∧ Forall2 (represents_row hk) ritems
               (omap (fun m => row_of App.formatCompletionTime m
                                 <$> completion_at m day part) done))
      _ items ms [] h Hall).
    + split; [done|]. exists []. split; [done|]. constructor.
    + clear h Hsub1 Hlr. intros x m done hk Hx (Hsub1 & ritems & Hlr & Hrows).
      assert (h0 ⊆ hk) as Hsub0 by by etrans.
      destruct (reads_completion_of h0 hk x m day part Hx Hsub0) as (cv & Hcv & Hc).
      apply runs_bind. eapply runs_reads; [exact Hcv|].
      rewrite omap_app. simpl.
      destruct (completion_at m day part) as [c|]; simpl.
      * destruct Hc as (lc & cprops & -> & Hlc & Hts). simpl.
        apply runs_bind. eapply runs_reads; [by eapply reads_id|].
        apply runs_bind. eapply runs_reads; [by eapply reads_name_or_anonymous|].
        apply runs_bind, runs_bind. eapply runs_get; [by eapply lookup_weaken|].
        rewrite Hts. simpl. apply runs_ret.
        apply runs_bind. eapply runs_get; [by eapply lookup_weaken|].
        rewrite Hts. simpl.
        apply runs_bind, runs_alloc. intros lrow Hlrow.
        assert (lrow ≠ lr) as Hne by (intros ->; by rewrite Hlr in Hlrow).
        eapply runs_push; [by rewrite lookup_insert_ne|].
        split.
        { apply insert_subseteq_r; [done|]. etrans; [exact Hsub1|].
          by apply insert_subseteq. }
        exists (ritems ++ [Ref lrow]). split; [apply lookup_insert_eq|].
        apply Forall2_app.
        -- eapply Forall2_impl; [exact Hrows|]. intros y r Hy.
           eapply represents_row_insert_Arr; [by rewrite lookup_insert_ne|].
           eapply represents_row_mono; [|exact Hy]. by apply insert_subseteq.
        -- constructor; [|constructor]. exists lrow. split; [done|].
           rewrite lookup_insert_ne, lookup_insert_eq by done.
           by rewrite formatCompletionTime_Number.
      * subst cv. simpl. apply runs_ret. rewrite app_nil_r.
        split; [done|]. by exists ritems.
  - intros [] h' HI. exact HI.
Qed.

Lemma reads_by_timestamp h x y a b :
  represents_row h x a -> represents_row h y b ->
  reads (ta ← get x "timestamp"; tb ← get y "timestamp";
         mret (JS.sub (to_number ta) (to_number tb))) h (by_timestamp a b).
Proof.
  intros (lx & -> & Hx) (ly & -> & Hy).
  eapply reads_bind; [by eapply reads_get|].
  eapply reads_bind; [by eapply reads_get|]. done.
Qed.

Theorem runs_buildLeaderboard h v (doc : option Leaderboard.t) (day part : string) :
  represents h v doc ->
  runs (buildLeaderboard v day part) h (fun r h' =>
    h ⊆ h' ∧ represents_array represents_ranked h' r
               (App.buildLeaderboard doc day part)).
Proof.
  intros Hrep. rewrite App_buildLeaderboard_ranked. unfold buildLeaderboard.
  destruct doc as [d|]; simpl in Hrep.
  - destruct Hrep as (l & props & -> & Hl & Hms). simpl.
    apply runs_bind. eapply runs_get; [done|].
    apply runs_bind_assoc, runs_bind. eapply runs_mono.
    { by apply (runs_values_or_empty (represents_member h) h h
                  (JS.get props "members") (Leaderboard.members d) Hms). }
    intros ? h1 (Hsub1 & la & items & -> & Hla & _ & Hitems). simpl.
    change (JS.Object_values (JS.or_empty (Leaderboard.members d)))
      with (members_of (Some d)) in Hitems.
    apply runs_bind, runs_alloc. intros lr Hlr.
    assert (la ≠ lr) as Hne by (intros ->; by rewrite Hla in Hlr).
    apply runs_bind. unfold Array_forEach. apply runs_bind.
    eapply runs_items_of; [by rewrite lookup_insert_ne|].
    eapply runs_mono.
    { apply (runs_collect_rows h h1 lr day part items (members_of (Some d)));
        [done|done|by apply insert_subseteq|apply lookup_insert_eq|done]. }
    intros [] h2 (Hsub2 & ritems & Hrows & Hrel). simpl.
    apply runs_bind.
    eapply (runs_Array_sort (represents_row h2) by_timestamp); [done|done| |].
    { intros x y a b Hx Hy. by apply reads_by_timestamp. }
    intros s Hs. apply runs_bind.
    eapply runs_items_of; [apply lookup_insert_eq|].
    apply runs_bind. eapply runs_mono.
    { eapply (runs_map_from (represents_row (<[lr := Arr s]> h2))
               (fun c y hk => represents_ranked hk y c) with_rank _ 0%nat s).
      - eapply Forall2_impl; [exact Hs|]. intros y r Hy.
        by eapply represents_row_insert_Arr.
      - intros c y ha hb. apply represents_ranked_mono.
      - intros x r j hk (lx & -> & Hlx) Hsubk.
        apply runs_bind. eapply runs_props_of; [by eapply lookup_weaken|].
        apply runs_alloc. intros ly Hly. split; [by apply insert_subseteq|].
        exists ly. split; [done|]. by rewrite lookup_insert_eq. }
    intros ys h3 [Hsub3 Hys]. simpl in Hys.
    apply runs_alloc. intros lres Hlres. split.
    + trans h1; [done|]. trans (<[lr := Arr s]> h2).
      * apply insert_subseteq_r; [done|exact Hsub2].
      * trans h3; [done|]. by apply insert_subseteq.
    + exists lres, ys. split_and!; [done|apply lookup_insert_eq|].
      unfold ranked. eapply Forall2_impl; [exact Hys|].
      intros y r Hy. eapply represents_ranked_mono; [exact Hy|].
      by apply insert_subseteq.
  - subst v. simpl. apply runs_alloc. intros la Hla.
    split; [by apply insert_subseteq|].
    exists la, []. split_and!; [done|apply lookup_insert_eq|constructor].
Qed.
End BuildLeaderboardHeap.

(** ** [findDefaultSelection] on the heap *)
Section FindDefaultSelectionHeap.
Import Heap.

(** The [flatMap] callback: the day keys of a member, in a new array. *)
Lemma runs_day_keys h0 h x (m : Member.t) :
  represents_member h0 x m -> h0 ⊆ h ->
  runs (days ← get x "completion_day_level"; days ← or_empty days; Object_keys days) h
    (fun r h' =>
       h ⊆ h' ∧ ∃ l ys, r = Ref l ∧ h' !! l = Some (Arr ys)
         ∧ Forall2 (fun y k => y = Str k) ys
             (JS.Object_keys (JS.or_empty (Member.completion_day_level m)))).
Proof.
  intros (l & props & -> & Hl & _ & _ & Hdays) Hsub.
  apply runs_bind. eapply runs_get; [by eapply lookup_weaken|].
  assert (runs (days ← alloc (Obj []); Object_keys days) h (fun r h' =>
    h ⊆ h' ∧ ∃ l ys, r = Ref l ∧ h' !! l = Some (Arr ys)
      ∧ Forall2 (fun y k => y = Str k) ys [])) as Hempty.
  { apply runs_bind, runs_alloc. intros l1 Hl1.
    apply runs_bind. eapply runs_props_of; [apply lookup_insert_eq|].
    apply runs_alloc. intros la Hla. simpl. split.
    - trans (<[l1 := Obj []]> h); by apply insert_subseteq.
    - exists la, []. split_and!; [done|apply lookup_insert_eq|constructor]. }
  destruct (Member.completion_day_level m) as [days|]; simpl in Hdays.
  - destruct Hdays as (x & -> & ld & dprops & -> & Hld & Hall). simpl.
    apply runs_bind, runs_ret. apply runs_bind.
    eapply runs_props_of; [by eapply lookup_weaken|].
    apply runs_alloc. intros la Hla. split; [by apply insert_subseteq|].
    eexists la, _. split_and!; [done|apply lookup_insert_eq|].
    unfold JS.Object_keys. clear -Hall.
    induction Hall as [|p q dprops days [Hk _] _ IH]; simpl; [constructor|].
    constructor; [by rewrite Hk|done].
  - destruct Hdays as [-> | [-> | ->]]; exact Hempty.
Qed.

Lemma reads_has_part h0 h (items : list val) (ms : list Member.t) (day part : string) :
  Forall2 (represents_member h0) items ms -> h0 ⊆ h ->
  reads (any (fun member => completion_of member day part) items) h
    (existsb (fun m => truthy_object (completion_at m day part)) ms).
Proof.
  intros Hall Hsub. eapply reads_any; [exact Hall|].
  intros x m Hx.
  destruct (reads_completion_of h0 h x m day part Hx Hsub) as (cv & Hcv & Hc).
  exists cv. split; [done|].
  destruct (completion_at m day part) as [c|]; simpl.
  - by destruct Hc as (lc & cprops & -> & _).
  - by subst cv.
Qed.

Lemma head_sorted_numbers (s : list val) (ns : list JS.number) :
  Forall2 (fun y n => y = Number n) s ns ->
  (if nullish (default Undefined (s !! 0%nat)) then "1"
   else to_string (default Undefined (s !! 0%nat)))
  = match head ns with
    | Some n => JS.toString n
    | None => "1"
    end.
Proof. intros Hall. destruct Hall as [|y n s ns ->]; done. Qed.

Theorem runs_findDefaultSelection h v (doc : option Leaderboard.t) :
  represents h v doc ->
  runs (findDefaultSelection v) h (fun r h' =>
    h ⊆ h' ∧ represents_selection h' r (App.findDefaultSelection doc)).
Proof.
  intros Hrep. unfold findDefaultSelection.
  apply runs_bind. eapply runs_mono; [by apply (runs_member_values h h v doc)|].
  intros ? h1 (Hsub1 & la & items & -> & Hla & Hla0 & Hitems). simpl.
  (* allDays *)
  apply runs_bind. unfold Array_flatMap. apply runs_bind.
  eapply runs_items_of; [done|]. apply runs_bind. eapply runs_mono.
  { eapply (runs_flat (represents_member h) (fun y k => y = Str k)
              (fun m => JS.Object_keys (JS.or_empty (Member.completion_day_level m)))
              _ items (members_of doc) h1 Hitems).
    intros x m hk Hx Hsubk. apply (runs_day_keys h hk x m); [done|by etrans]. }
  intros zs h2 [Hsub2 Hzs]. simpl in Hzs. fold (all_days doc) in Hzs.
  apply runs_alloc. intros ldays Hldays.
  (* numbers *)
  apply runs_bind. unfold Array_map. apply runs_bind.
  eapply runs_items_of; [apply lookup_insert_eq|]. apply runs_bind.
  eapply runs_mono.
  { eapply (runs_map_from (fun y k => y = Str k)
              (fun n y _ => y = Number n) (fun _ k => JS.Number k) _ 0%nat zs
              (all_days doc) _ Hzs).
    - done.
    - intros x k j hk -> Hsubk. by apply runs_ret. }
  intros ys h3 [Hsub3 Hys]. simpl in Hys.
  assert (Forall2 (fun y n => y = Number n) ys (JS.Number <$> all_days doc)) as Hnums.
  { clear -Hys. revert Hys. generalize (all_days doc). intros ks.
    revert ys. induction ks as [|k ks IH]; intros ys Hys; inversion Hys; subst;
      simpl; constructor; [done|]. apply IH. done. }
  clear Hys. apply runs_alloc. intros ln Hln.
  (* sort *)
  apply runs_bind.
  eapply (runs_Array_sort (fun y n => y = Number n) JS.sub);
    [apply lookup_insert_eq|exact Hnums| |].
  { by intros x y a b -> ->. }
  intros s Hs. rewrite insert_insert_eq.
  apply runs_bind. eapply runs_index; [apply lookup_insert_eq|].
  rewrite (head_sorted_numbers s _ Hs).
  change (match head (JS.sort JS.sub (JS.Number <$> all_days doc)) with
          | Some n => JS.toString n | None => "1" end)
    with (first_day (all_days doc)).
  (* the two [some] *)
  assert (h ⊆ <[ln := Arr s]> h3) as Hsub.
  { trans h1; [done|]. trans h2; [done|].
    trans (<[ldays := Arr zs]> h2); [by apply insert_subseteq|].
    trans h3; [done|]. by apply insert_subseteq. }
  assert (<[ln := Arr s]> h3 !! la = Some (Arr items)) as Hla'.
  { rewrite lookup_insert_ne.
    - eapply lookup_weaken; [|exact Hsub3]. eapply lookup_weaken; [exact Hla|].
      trans h2; [done|]. by apply insert_subseteq.
    - intros ->. eapply lookup_weaken in Hla; [|exact Hsub2].
      eapply lookup_weaken in Hla; [|by apply insert_subseteq].
      eapply lookup_weaken in Hla; [|exact Hsub3]. by rewrite Hla in Hln. }
  apply runs_bind. unfold Array_some. apply runs_bind.
  eapply runs_items_of; [exact Hla'|].
  eapply runs_reads; [by apply (reads_has_part h _ items (members_of doc))|].
  apply runs_bind. apply runs_bind.
  eapply runs_items_of; [exact Hla'|].
  eapply runs_reads; [by apply (reads_has_part h _ items (members_of doc))|].
  apply runs_alloc. intros lres Hlres. split.
  - trans (<[ln := Arr s]> h3); [done|]. by apply insert_subseteq.
  - exists lres. split; [done|]. rewrite lookup_insert_eq.
    rewrite App_findDefaultSelection_part.
    unfold App.findDefaultSelection at 1. simpl.
    fold (all_days doc). fold (first_day (all_days doc)).
    by repeat destruct (existsb _ _).
Qed.
End FindDefaultSelectionHeap.

(** ** [findDefaultPlayerId] on the heap *)
Section FindDefaultPlayerIdHeap.
Context `{Host}.
Import Heap.

Theorem runs_findDefaultPlayerId h v (doc : option Leaderboard.t) :
  represents h v doc ->
  runs (findDefaultPlayerId v) h (fun r h' =>
    h ⊆ h' ∧ r = Str (App.findDefaultPlayerId doc)).
Proof.
  intros Hrep. unfold findDefaultPlayerId.
  apply runs_bind. eapply runs_mono; [by apply (runs_member_values h h v doc)|].
  intros ? h1 (Hsub1 & la & items & -> & Hla & Hla0 & Hitems). simpl.
  apply runs_bind. unfold Array_map. apply runs_bind.
  eapply runs_items_of; [done|]. apply runs_bind. eapply runs_mono.
  { eapply (runs_map_from (represents_member h)
              (fun p y hk => represents_player hk y p)
              (fun _ m => (JS.String_of (Member.id m), display_name m))
              _ 0%nat items (members_of doc) _ Hitems).
    - intros p y ha hb (l & -> & Hl) Hsub. exists l. split; [done|].
      by eapply lookup_weaken.
    - intros x m j hk Hx Hsubk.
      assert (h ⊆ hk) as Hsub0 by by etrans.
      apply runs_bind. eapply runs_reads; [by eapply reads_id|].
      apply runs_bind. eapply runs_reads; [by eapply reads_name_or_anonymous|].
      apply runs_alloc. intros l Hl. split; [by apply insert_subseteq|].
      exists l. split; [done|]. by rewrite lookup_insert_eq. }
  intros ys h2 [Hsub2 Hys]. simpl in Hys.
  assert (imap (fun _ m => (JS.String_of (Member.id m), display_name m)) (members_of doc)
          = List.map (fun m => (JS.String_of (Member.id m), display_name m))
              (members_of doc)) as Himap.
  { generalize (members_of doc). intros ms. induction ms as [|m ms IH]; [done|].
    simpl. f_equal. exact IH. }
  rewrite Himap in Hys. clear Himap.
  apply runs_alloc. intros lp Hlp.
  apply runs_bind.
  eapply (runs_Array_sort (represents_player (<[lp := Arr ys]> h2))
            (fun a b => localeCompare (snd a) (snd b)));
    [apply lookup_insert_eq| | |].
  { eapply Forall2_impl; [exact Hys|]. intros y p (l & -> & Hl).
    exists l. split; [done|]. eapply lookup_weaken; [exact Hl|].
    by apply insert_subseteq. }
  { intros x y a b (lx & -> & Hx) (ly & -> & Hy).
    eapply reads_bind; [by eapply reads_get|].
    eapply reads_bind; [by eapply reads_get|]. done. }
  intros s Hs. rewrite insert_insert_eq.
  apply runs_bind. eapply runs_index; [apply lookup_insert_eq|].
  assert (h ⊆ <[lp := Arr s]> h2) as Hsub.
  { trans h1; [done|]. trans h2; [done|]. by apply insert_subseteq. }
  unfold App.findDefaultPlayerId.
  destruct Hs as [|y p s ps Hy Hs]; simpl.
  - apply runs_bind, runs_ret. by apply runs_ret.
  - destruct Hy as (l & -> & Hl). apply runs_bind.
    eapply runs_get.
    { rewrite lookup_insert_ne; [|intros ->; by rewrite lookup_insert_eq in Hl].
      by rewrite lookup_insert_ne in Hl
        by (intros ->; by rewrite lookup_insert_eq in Hl). }
    by apply runs_ret.
Qed.
End FindDefaultPlayerIdHeap.

(** ** [buildPlayerSubmissions] on the heap *)
Section BuildPlayerSubmissionsHeap.
Context `{Host}.
Import Heap.

Lemma represents_submission_insert_Arr h l items items' y r :
  h !! l = Some (Arr items) ->
  represents_submission h y r -> represents_submission (<[l := Arr items']> h) y r.
Proof.
  intros Hl (l' & -> & Hl'). exists l'. split; [done|].
  rewrite lookup_insert_ne; [done|]. intros ->. by rewrite Hl in Hl'.
Qed.

Lemma represents_submission_mono h h' y r :
  h ⊆ h' -> represents_submission h y r -> represents_submission h' y r.
Proof. intros Hsub (l & -> & Hl). exists l. split; [done|]. by eapply lookup_weaken. Qed.

(** One row: the body of the inner loop, for part [p]. *)
Lemma runs_push_submission h0 h1 lr hk pv (player : Member.t) (day : string)
  (p : Z) (rows : list SubmissionRow.t) :
  represents_member h0 pv player -> h0 ⊆ h1 -> h1 !! lr = None -> h1 ⊆ hk ->
  (∃ ritems, hk !! lr = Some (Arr ritems)
     ∧ Forall2 (represents_submission hk) ritems rows) ->
  runs (completion ← completion_of pv (to_string (Str day))
                        (to_string (Number (JS.Num p)));
        status ← (if truthy completion
                  then (ts ← get completion "get_star_ts";
                        mret (formatCompletionTime ts))
                  else mret (Str "Not completed"));
        row ← alloc (Obj [ ("day", Str day);
                           ("part", Str (to_string (Number (JS.Num p))));
                           ("completedAt", status) ]);
        Array_push (Ref lr) row) hk
    (fun _ h' =>
       h1 ⊆ h' ∧ ∃ ritems, h' !! lr = Some (Arr ritems)
           ∧ Forall2 (represents_submission h') ritems
               (rows ++ [submission App.formatCompletionTime player day (JS.String_of p)])).
Proof.
  intros Hp Hsub01 Hfresh Hsub1 (ritems & Hlr & Hrows).
  assert (h0 ⊆ hk) as Hsub0 by by etrans.
  simpl to_string at 1.
  change (to_string (Number (JS.Num p))) with (JS.String_of p).
  destruct (reads_completion_of h0 hk pv player day (JS.String_of p) Hp Hsub0)
    as (cv & Hcv & Hc).
  apply runs_bind. eapply runs_reads; [exact Hcv|].
  assert (runs (if truthy cv
                then (ts ← get cv "get_star_ts"; mret (formatCompletionTime ts))
                else mret (Str "Not completed")) hk
            (fun status h' => h' = hk
               ∧ status = Str (submission_status App.formatCompletionTime
                                 player day (JS.String_of p)))) as Hstatus.
  { unfold submission_status.
    destruct (completion_at player day (JS.String_of p)) as [c|].
    - destruct Hc as (lc & cprops & -> & Hlc & Hts). simpl.
      apply runs_bind. eapply runs_get; [by eapply lookup_weaken|].
      rewrite Hts. simpl. apply runs_ret.
      by rewrite formatCompletionTime_Number.
    - subst cv. simpl. by apply runs_ret. }
  apply runs_bind. eapply runs_mono; [exact Hstatus|].
  intros status ? [-> ->]. simpl.
  apply runs_bind, runs_alloc. intros lrow Hlrow.
  assert (lrow ≠ lr) as Hne by (intros ->; by rewrite Hlr in Hlrow).
  eapply runs_push; [by rewrite lookup_insert_ne|].
  split.
  - apply insert_subseteq_r; [done|]. etrans; [exact Hsub1|].
    by apply insert_subseteq.
  - exists (ritems ++ [Ref lrow]). split; [apply lookup_insert_eq|].
    apply Forall2_app.
    + eapply Forall2_impl; [exact Hrows|]. intros y r Hy.
      eapply represents_submission_insert_Arr; [by rewrite lookup_insert_ne|].
      eapply represents_submission_mono; [|exact Hy]. by apply insert_subseteq.
    + constructor; [|constructor]. exists lrow. split; [done|].
      by rewrite lookup_insert_ne, lookup_insert_eq by done.
Qed.

(** The loop over [dayNumbers]. *)
Lemma runs_collect_submissions h0 h1 lr pv (player : Member.t)
  (items : list val) (days : list string) h :
  represents_member h0 pv player -> h0 ⊆ h1 -> h1 !! lr = None -> h1 ⊆ h ->
  h !! lr = Some (Arr []) ->
  Forall2 (fun y k => y = Str k) items days ->
  runs (each (fun day =>
      parts ← alloc (Arr [Number (JS.Num 1); Number (JS.Num 2)]);
      Array_forEach parts (fun part =>
        completion ← completion_of pv (to_string day) (to_string part);
        status ← (if truthy completion
                  then (ts ← get completion "get_star_ts";
                        mret (formatCompletionTime ts))
                  else mret (Str "Not completed"));
        row ← alloc (Obj [ ("day", day); ("part", Str (to_string part));
                           ("completedAt", status) ]);
        Array_push (Ref lr) row)) items) h
    (fun _ h' =>
       h1 ⊆ h' ∧ ∃ ritems, h' !! lr = Some (Arr ritems)
         ∧ Forall2 (represents_submission h') ritems
             (flat_map (fun day =>
                [ submission App.formatCompletionTime player day "1";
                  submission App.formatCompletionTime player day "2" ]) days)).
Proof.
  intros Hp Hsub01 Hfresh Hsub1 Hlr Hall.
  eapply runs_mono.
  - eapply (runs_each (fun y k => y = Str k)
      (fun done hk =>
         h1 ⊆ hk ∧ ∃ ritems, hk !! lr = Some (Arr ritems)
           ∧ Forall2 (represents_submission hk) ritems
               (flat_map (fun day =>
                  [ submission App.formatCompletionTime player day "1";
                    submission App.formatCompletionTime player day "2" ]) done))
      _ items days [] h Hall).
    + split; [done|]. exists []. split; [done|]. constructor.
    + clear h Hsub1 Hlr. intros x day done hk -> (Hsub1 & ritems & Hlr & Hrows).
      apply runs_bind, runs_alloc. intros lparts Hlparts.
      assert (lparts ≠ lr) as Hne by (intros ->; by rewrite Hlr in Hlparts).
      unfold Array_forEach. apply runs_bind.
      eapply runs_items_of; [apply lookup_insert_eq|].
      cbn [each]. apply runs_bind. eapply runs_mono.
      { eapply (runs_push_submission h0 h1 lr _ pv player day 1
                  (flat_map (fun day =>
                     [ submission App.formatCompletionTime player day "1";
                       submission App.formatCompletionTime player day "2" ]) done));
          [done|done|done| |].
        - etrans; [exact Hsub1|]. by apply insert_subseteq.
        - exists ritems. split; [by rewrite lookup_insert_ne|].
          eapply Forall2_impl; [exact Hrows|]. intros y r Hy.
          eapply represents_submission_mono; [|exact Hy]. by apply insert_subseteq. }
      intros [] h2 (Hsub2 & Hrows2). simpl.
      apply runs_bind. eapply runs_mono.
      { by eapply (runs_push_submission h0 h1 lr h2 pv player day 2). }
      intros [] h3 (Hsub3 & Hrows3). simpl. apply runs_ret.
      split; [done|]. rewrite flat_map_app. simpl.
      rewrite <- app_assoc in Hrows3. exact Hrows3.
  - intros [] h' HI. exact HI.
Qed.

Theorem runs_buildPlayerSubmissions h v (doc : option Leaderboard.t)
  (playerId : string) dv (dayNumbers : list string) :
  represents h v doc -> represents_strings h dv dayNumbers ->
  runs (buildPlayerSubmissions v (Str playerId) dv) h (fun r h' =>
    h ⊆ h' ∧ represents_array represents_submission h' r
               (App.buildPlayerSubmissions doc playerId dayNumbers)).
Proof.
  intros Hrep (ld & -> & Hld).
  assert (∀ hk, runs (alloc (Arr [])) hk (fun r h' =>
            hk ⊆ h' ∧ represents_array represents_submission h' r [])) as Hnone.
  { intros hk. apply runs_alloc. intros la Hla. split; [by apply insert_subseteq|].
    exists la, []. split_and!; [done|apply lookup_insert_eq|constructor]. }
  unfold buildPlayerSubmissions.
  destruct doc as [d|]; simpl in Hrep; [|subst v; apply Hnone].
  rewrite App_buildPlayerSubmissions_rows.
  destruct Hrep as (l & props & -> & Hl & Hms). simpl.
  unfold JS.truthy_string at 1.
  destruct (decide (playerId = "")) as [->|Hpid]; simpl; [apply Hnone|].
  apply runs_bind. eapply runs_get; [done|].
  apply runs_bind_assoc, runs_bind. eapply runs_mono.
  { by apply (runs_values_or_empty (represents_member h) h h
                (JS.get props "members") (Leaderboard.members d) Hms). }
  intros ? h1 (Hsub1 & la & items & -> & Hla & _ & Hitems). simpl.
  change (JS.Object_values (JS.or_empty (Leaderboard.members d)))
    with (members_of (Some d)) in Hitems.
  apply runs_bind. unfold Array_find. apply runs_bind.
  eapply runs_items_of; [done|].
  destruct (reads_first (represents_member h)
              (fun m => String.eqb (JS.String_of (Member.id m)) playerId)
              (fun member => id ← get member "id";
                 mret (String.eqb (to_string id) (to_string (Str playerId))))
              h1 items (members_of (Some d)) Hitems) as (pv & Hpv & Hfound).
  { intros x m Hx. eapply reads_bind; [by eapply reads_id|]. done. }
  eapply runs_reads; [exact Hpv|].
  destruct (List.find _ (members_of (Some d))) as [player|].
  - assert (truthy pv = true) as -> by by destruct Hfound as (? & ? & -> & _).
    simpl. apply runs_bind, runs_alloc. intros lr Hlr.
    assert (h ⊆ h1) as Hsub01 by done.
    assert (ld ≠ lr) as Hne.
    { intros ->. eapply lookup_weaken in Hld; [|exact Hsub01]. by rewrite Hld in Hlr. }
    apply runs_bind. unfold Array_forEach at 1. apply runs_bind.
    eapply runs_items_of.
    { rewrite lookup_insert_ne by done. by eapply lookup_weaken. }
    eapply runs_mono.
    { apply (runs_collect_submissions h h1 lr pv player _ dayNumbers);
        [done|done|done|by apply insert_subseteq|apply lookup_insert_eq|].
      clear. induction dayNumbers; simpl; by constructor. }
    intros [] h2 (Hsub2 & ritems & Hrows & Hrel). simpl. apply runs_ret.
    split; [by etrans|]. by exists lr, ritems.
  - subst pv. simpl. eapply runs_mono; [apply Hnone|].
    intros r h' [Hsub' Hr]. split; [by etrans|done].
Qed.
End BuildPlayerSubmissionsHeap.

(** ** [computePartAvailability] on the heap *)

Lemma App_computePartAvailability_steps (leaderboard : option Leaderboard.t) :
  App.computePartAvailability leaderboard
  = foldl (fun availability member =>
      foldl availability_step availability
        (JS.Object_entries (JS.or_empty (Member.completion_day_level member))))
      ∅ (members_of leaderboard).
Proof.
  unfold App.computePartAvailability. f_equal.
Qed.

Section ComputePartAvailabilityHeap.
Import Heap.

Lemma get_assign_eq (props : JS.object val) (k : string) (v : val) :
  JS.get (assign props k v) k = Some v.
Proof.
  induction props as [|[k' v'] props IH]; simpl.
  - by rewrite decide_True.
  - destruct (decide (k' = k)) as [->|Hne]; simpl.
    + by rewrite decide_True.
    + by rewrite decide_False.
Qed.

Lemma get_assign_ne (props : JS.object val) (k k' : string) (v : val) :
  k ≠ k' -> JS.get (assign props k v) k' = JS.get props k'.
Proof.
  intros Hne. induction props as [|[k0 v0] props IH]; simpl.
  - by rewrite decide_False.
  - destruct (decide (k0 = k)) as [->|Hne0]; simpl.
    + by rewrite !decide_False.
    + destruct (decide (k0 = k')); [done|]. exact IH.
Qed.

(** [Object.entries]: one new two-element array per property, and the array
    of these. *)
Lemma runs_pairs h (props : JS.object val) :
  runs (pairs props) h (fun es h' =>
    h ⊆ h'
    ∧ Forall2 (fun e p => ∃ l, e = Ref l ∧ h' !! l = Some (Arr [Str (fst p); snd p])
                               ∧ h !! l = None) es props).
Proof.
  revert h. induction props as [|[k x] props IH]; intros h; simpl.
  - apply runs_ret. split; [done|constructor].
  - apply runs_bind, runs_alloc. intros l Hl.
    apply runs_bind. eapply runs_mono; [apply IH|].
    intros es h' [Hsub Hes]. simpl. apply runs_ret.
    assert (h ⊆ <[l := Arr [Str k; x]]> h) as Hsub0 by by apply insert_subseteq.
    split; [by etrans|]. constructor.
    + exists l. split_and!; [done| |done].
      eapply lookup_weaken; [apply lookup_insert_eq|done].
    + eapply Forall2_impl; [exact Hes|]. intros e p (l' & -> & Hl' & Hnone).
      exists l'. split_and!; [done..|].
      apply lookup_insert_None in Hnone. tauto.
Qed.

Section Loop.
(** [h] is the heap at the call, [lav] the cell of [availability]. *)
Context (h : gmap loc cell) (lav : loc) (Hlav : h !! lav = None).

Lemma arrays_kept_trans h1 h2 h3 :
  arrays_kept h1 h2 -> arrays_kept h2 h3 -> arrays_kept h1 h3.
Proof. intros H12 H23 l items Hl. by apply H23, H12. Qed.

Lemma arrays_kept_insert_fresh h1 l c : h1 !! l = None -> arrays_kept h1 (<[l := c]> h1).
Proof.
  intros Hl l' items Hl'. rewrite lookup_insert_ne; [done|]. intros ->.
  by rewrite Hl in Hl'.
Qed.

Lemma arrays_kept_insert_Obj h1 l props c :
  h1 !! l = Some (Obj props) -> arrays_kept h1 (<[l := c]> h1).
Proof.
  intros Hl l' items Hl'. rewrite lookup_insert_ne; [done|]. intros ->.
  by rewrite Hl in Hl'.
Qed.

(** [availability[day] ??= { 1: false, 2: false }] *)
Lemma runs_ensure_flags hk av (day : string) :
  tracks h lav hk av ->
  runs (current ← get (Ref lav) day;
        if nullish current
        then (flags ← alloc (Obj [ ("1", Bool false); ("2", Bool false) ]);
              set (Ref lav) day flags)
        else mret tt) hk
    (fun _ h' =>
       tracks h lav h' (match av !! day with
                  | Some _ => av
                  | None => <[day := {| Flags.part1 := false; Flags.part2 := false |}]> av
                  end)
       ∧ arrays_kept hk h').
Proof.
  intros (Hsub & props & Hprops & Hdays & Hinj).
  apply runs_bind. eapply runs_get; [done|].
  pose proof (Hdays day) as Hday.
  destruct (av !! day) as [f|] eqn:Eday.
  - destruct Hday as (lf & -> & _). simpl. apply runs_ret.
    split; [|by intros ? ?]. split; [done|]. by exists props.
  - rewrite Hday. simpl. apply runs_bind, runs_alloc. intros lf Hlf.
    assert (lf ≠ lav) as Hne by (intros ->; by rewrite Hprops in Hlf).
    eapply runs_set; [by rewrite lookup_insert_ne|].
    split.
    + split.
      { apply insert_subseteq_r; [done|]. etrans; [exact Hsub|].
        by apply insert_subseteq. }
      exists (assign props day (Ref lf)). split; [apply lookup_insert_eq|]. split.
      * intros day'. destruct (decide (day = day')) as [<-|Hne'].
        -- rewrite lookup_insert_eq. exists lf. rewrite get_assign_eq.
           split_and!; [done| |by eapply lookup_weaken_None|done].
           by rewrite lookup_insert_ne, lookup_insert_eq.
        -- rewrite lookup_insert_ne by done. rewrite get_assign_ne by done.
           specialize (Hdays day'). destruct (av !! day') as [f'|]; [|done].
           destruct Hdays as (lf' & Hget & Hcell & Hfresh & Hne2).
           exists lf'. split_and!; [done| |done|done].
           rewrite lookup_insert_ne by done.
           rewrite lookup_insert_ne; [done|]. intros ->. by rewrite Hcell in Hlf.
      * assert (∀ d, JS.get props d ≠ Some (Ref lf)) as Hnew.
        { intros d Hd. specialize (Hdays d). destruct (av !! d) as [f'|].
          - destruct Hdays as (lf' & Hget & Hcell & _).
            rewrite Hd in Hget. injection Hget as <-. by rewrite Hcell in Hlf.
          - by rewrite Hdays in Hd. }
        intros d1 d2 l' H1 H2.
        destruct (decide (day = d1)) as [<-|Hne1], (decide (day = d2)) as [<-|Hne2];
          [done|..].
        -- rewrite get_assign_eq in H1. injection H1 as <-.
           rewrite get_assign_ne in H2 by done. by destruct (Hnew d2).
        -- rewrite get_assign_eq in H2. injection H2 as <-.
           rewrite get_assign_ne in H1 by done. by destruct (Hnew d1).
        -- rewrite get_assign_ne in H1, H2 by done. by eapply Hinj.
    + eapply arrays_kept_trans; [by apply arrays_kept_insert_fresh|].
      eapply arrays_kept_insert_Obj. by rewrite lookup_insert_ne.
Qed.

(** [availability[day][k] = true], once the flags of [day] exist. *)
Lemma runs_mark hk av (day k : string) (mark : Flags.t -> Flags.t) :
  tracks h lav hk av -> is_Some (av !! day) ->
  (∀ f, assign [ ("1", Bool (Flags.part1 f)); ("2", Bool (Flags.part2 f)) ] k (Bool true)
        = [ ("1", Bool (Flags.part1 (mark f))); ("2", Bool (Flags.part2 (mark f))) ]) ->
  runs (flags ← get (Ref lav) day; set flags k (Bool true)) hk
    (fun _ h' => tracks h lav h' (alter mark day av) ∧ arrays_kept hk h').
Proof.
  intros (Hsub & props & Hprops & Hdays & Hinj) [f Hf] Hmark.
  pose proof (Hdays day) as Hday. rewrite Hf in Hday.
  destruct Hday as (lf & Hget & Hcell & Hfresh & Hne).
  apply runs_bind. eapply runs_get; [done|]. rewrite Hget. simpl.
  eapply runs_set; [done|]. rewrite Hmark. split.
  - split; [by apply insert_subseteq_r|].
    exists props. split; [by rewrite lookup_insert_ne|]. split; [|done].
    intros day'. destruct (decide (day = day')) as [<-|Hne'].
    + rewrite lookup_alter_eq, Hf. simpl. exists lf.
      split_and!; [done|apply lookup_insert_eq|done|done].
    + rewrite lookup_alter_ne by done.
      specialize (Hdays day'). destruct (av !! day') as [f'|]; [|done].
      destruct Hdays as (lf' & Hget' & Hcell' & Hfresh' & Hne2).
      exists lf'. split_and!; [done| |done|done].
      rewrite lookup_insert_ne; [done|]. intros <-.
      by destruct Hne', (Hinj day day' lf).
  - by eapply arrays_kept_insert_Obj.
Qed.

Lemma truthy_part h0 hk pv (parts : JS.object Completion.t) (k : string) :
  represents_object (represents_completion h0) h0 pv parts -> h0 ⊆ hk ->
  ∃ x, reads (get pv k) hk x ∧ truthy x = truthy_object (JS.get parts k).
Proof.
  intros (lp & pprops & -> & Hlp & Hall) Hsub.
  exists (default Undefined (JS.get pprops k)).
  split; [eapply reads_get; by eapply lookup_weaken|].
  pose proof (represents_object_get _ pprops parts k Hall) as Hk.
  destruct (JS.get parts k) as [c|]; simpl.
  - destruct Hk as (x & -> & lc & cprops & -> & _). done.
  - by rewrite Hk.
Qed.

(** The body of the inner loop. *)
Lemma runs_availability_step hk av le (day : string) pv
  (parts : JS.object Completion.t) :
  tracks h lav hk av ->
  hk !! le = Some (Arr [Str day; pv]) ->
  represents_object (represents_completion h) h pv parts ->
  runs (day ← Array_at (Ref le) 0;
        parts ← Array_at (Ref le) 1;
        current ← get (Ref lav) (to_string day);
        _ ← (if nullish current
             then (flags ← alloc (Obj [ ("1", Bool false); ("2", Bool false) ]);
                   set (Ref lav) (to_string day) flags)
             else mret tt);
        p1 ← get parts "1";
        _ ← (if truthy p1
             then (flags ← get (Ref lav) (to_string day); set flags "1" (Bool true))
             else mret tt);
        p2 ← get parts "2";
        if truthy p2
        then (flags ← get (Ref lav) (to_string day); set flags "2" (Bool true))
        else mret tt) hk
    (fun _ h' => tracks h lav h' (availability_step av (day, parts)) ∧ arrays_kept hk h').
Proof.
  intros Htracks Hle Hparts.
  apply runs_bind. eapply runs_index; [done|]. simpl.
  apply runs_bind. eapply runs_index; [done|]. simpl.
  apply runs_bind_assoc, runs_bind.
  eapply runs_mono; [by apply runs_ensure_flags|].
  intros [] h1 [Htracks1 Hkept1]. simpl.
  set (av1 := match av !! day with
              | Some _ => av
              | None => <[day := {| Flags.part1 := false; Flags.part2 := false |}]> av
              end) in *.
  assert (is_Some (av1 !! day)) as Hsome1.
  { subst av1. destruct (av !! day) eqn:E; [by rewrite E|].
    by rewrite lookup_insert_eq. }
  destruct (truthy_part h h1 pv parts "1" Hparts (proj1 Htracks1)) as (x1 & Hx1 & Ht1).
  apply runs_bind. eapply runs_reads; [exact Hx1|]. rewrite Ht1.
  assert (runs (if truthy_object (JS.get parts "1")
                then (flags ← get (Ref lav) day; set flags "1" (Bool true))
                else mret tt) h1
            (fun _ h' =>
               tracks h lav h' (if truthy_object (JS.get parts "1")
                          then alter Flags.set1 day av1 else av1)
               ∧ arrays_kept h1 h')) as Hstep1.
  { destruct (truthy_object (JS.get parts "1")).
    - by apply runs_mark.
    - apply runs_ret. split; [done|by intros ? ?]. }
  apply runs_bind. eapply runs_mono; [exact Hstep1|].
  intros [] h2 [Htracks2 Hkept2]. simpl.
  set (av2 := if truthy_object (JS.get parts "1")
              then alter Flags.set1 day av1 else av1) in *.
  assert (is_Some (av2 !! day)) as Hsome2.
  { subst av2. destruct (truthy_object _); [|done].
    rewrite lookup_alter_eq. destruct Hsome1 as [f ->]. by eexists. }
  destruct (truthy_part h h2 pv parts "2" Hparts (proj1 Htracks2)) as (x2 & Hx2 & Ht2).
  apply runs_bind. eapply runs_reads; [exact Hx2|]. rewrite Ht2.
  unfold availability_step. fold av1. fold av2.
  destruct (truthy_object (JS.get parts "2")).
  - eapply runs_mono; [by apply (runs_mark h2 av2 day "2" Flags.set2)|].
    intros [] h3 [Htracks3 Hkept3]. split; [done|].
    eauto using arrays_kept_trans.
  - apply runs_ret. split; [done|]. eauto using arrays_kept_trans.
Qed.

Lemma tracks_mono hk h' av : tracks h lav hk av -> hk ⊆ h' -> tracks h lav h' av.
Proof.
  intros (Hsub & props & Hprops & Hdays & Hinj) Hsub'.
  split; [by etrans|]. exists props. split; [by eapply lookup_weaken|].
  split; [|done]. intros day. specialize (Hdays day).
  destruct (av !! day) as [f|]; [|done].
  destruct Hdays as (lf & Hget & Hcell & Hfresh & Hne).
  exists lf. split_and!; [done| |done|done]. by eapply lookup_weaken.
Qed.

(** The body of the outer loop: all entries of one member. *)
Lemma runs_member_availability hk av x (m : Member.t) :
  tracks h lav hk av -> represents_member h x m ->
  runs (days ← get x "completion_day_level";
        days ← or_empty days;
        entries ← Object_entries days;
        Array_forEach entries (fun entry =>
          day ← Array_at entry 0;
          parts ← Array_at entry 1;
          current ← get (Ref lav) (to_string day);
          _ ← (if nullish current
               then (flags ← alloc (Obj [ ("1", Bool false); ("2", Bool false) ]);
                     set (Ref lav) (to_string day) flags)
               else mret tt);
          p1 ← get parts "1";
          _ ← (if truthy p1
               then (flags ← get (Ref lav) (to_string day); set flags "1" (Bool true))
               else mret tt);
          p2 ← get parts "2";
          if truthy p2
          then (flags ← get (Ref lav) (to_string day); set flags "2" (Bool true))
          else mret tt)) hk
    (fun _ h' =>
       tracks h lav h' (foldl availability_step av
                    (JS.Object_entries (JS.or_empty (Member.completion_day_level m))))).
Proof.
  intros Htracks (l & props & -> & Hl & _ & _ & Hdays).
  pose proof (proj1 Htracks) as Hsub.
  apply runs_bind. eapply runs_get; [by eapply lookup_weaken|].
  assert (∀ body, runs (days ← alloc (Obj []); entries ← Object_entries days;
                        Array_forEach entries body) hk
            (fun _ h' => tracks h lav h' av)) as Hempty.
  { intros body. apply runs_bind, runs_alloc. intros l0 Hl0.
    apply runs_bind. unfold Object_entries. apply runs_bind.
    eapply runs_props_of; [apply lookup_insert_eq|]. simpl.
    apply runs_bind, runs_ret. apply runs_alloc. intros le Hle.
    unfold Array_forEach. apply runs_bind.
    eapply runs_items_of; [apply lookup_insert_eq|]. simpl. apply runs_ret.
    eapply tracks_mono; [exact Htracks|].
    trans (<[l0 := Obj []]> hk); by apply insert_subseteq. }
  destruct (Member.completion_day_level m) as [days|]; simpl in Hdays.
  - destruct Hdays as (x & -> & ld & dprops & -> & Hld & Hall). simpl.
    apply runs_bind, runs_ret.
    apply runs_bind. unfold Object_entries. apply runs_bind.
    eapply runs_props_of; [by eapply lookup_weaken|].
    apply runs_bind. eapply runs_mono; [apply runs_pairs|].
    intros es h1 [Hsub1 Hes]. simpl.
    apply runs_alloc. intros le Hle.
    unfold Array_forEach. apply runs_bind.
    eapply runs_items_of; [apply lookup_insert_eq|].
    set (h2 := <[le := Arr es]> h1).
    assert (hk ⊆ h2) as Hsub2.
    { trans h1; [done|]. by apply insert_subseteq. }
    assert (Forall2 (fun e (q : string * JS.object Completion.t) =>
              ∃ l pv, e = Ref l ∧ h2 !! l = Some (Arr [Str (fst q); pv])
                ∧ represents_object (represents_completion h) h pv (snd q))
              es days) as Hentries.
    { assert (h1 ⊆ h2) as Hsub12 by by apply insert_subseteq.
      clearbody h2. clear -Hes Hall Hsub12. revert es Hes.
      induction Hall as [|p q dprops days [Hk HR] _ IH]; intros es Hes;
        inversion Hes as [|e p' es' dprops' (l & -> & Hcell & _) Hes']; subst;
        constructor.
      - exists l, (snd p). split_and!; [done| |done]. rewrite <- Hk.
        by eapply lookup_weaken.
      - by apply IH. }
    eapply runs_mono.
    { eapply (runs_each _
        (fun done hj => tracks h lav hj (foldl availability_step av done) ∧ arrays_kept h2 hj)
        _ es days [] h2 Hentries).
      - split; [by eapply tracks_mono|by intros ? ?].
      - intros e [day parts] done hj (le' & pv & -> & Hcell & Hparts) [Htr Hkept].
        simpl in Hcell, Hparts.
        eapply runs_mono.
        { eapply (runs_availability_step hj _ le' day pv parts); [done| |done].
          by apply Hkept. }
        intros [] h' [Htr' Hkept']. rewrite foldl_snoc. split; [done|].
        by eapply arrays_kept_trans. }
    intros [] h' [Htr _]. exact Htr.
  - destruct Hdays as [-> | [-> | ->]]; apply Hempty.
Qed.

End Loop.
End ComputePartAvailabilityHeap.

Theorem runs_computePartAvailability `{Host} h v (doc : option Leaderboard.t) :
  represents h v doc ->
  runs (Heap.computePartAvailability v) h (fun r h' =>
    h ⊆ h' ∧ represents_availability h' r (App.computePartAvailability doc)).
Proof.
  intros Hrep. rewrite App_computePartAvailability_steps.
  unfold Heap.computePartAvailability.
  apply runs_bind, runs_alloc. intros lav Hlav.
  assert (h ⊆ <[lav := Heap.Obj []]> h) as Hsub0 by by apply insert_subseteq.
  apply runs_bind. eapply runs_mono; [by apply (runs_member_values h _ v doc)|].
  intros ? h1 (Hsub1 & la & items & -> & Hla & _ & Hitems). simpl.
  apply runs_bind. unfold Heap.Array_forEach at 1. apply runs_bind.
  eapply runs_items_of; [done|].
  eapply runs_mono.
  { eapply (runs_each (represents_member h)
      (fun done hk =>
         tracks h lav hk
           (foldl (fun availability member =>
              foldl availability_step availability
                (JS.Object_entries (JS.or_empty (Member.completion_day_level member))))
              ∅ done))
      _ items (members_of doc) [] h1 Hitems).
    - split; [by etrans|]. exists []. split_and!; [|done..].
      eapply lookup_weaken; [apply lookup_insert_eq|done].
    - intros x m done hk Hx Htr. eapply runs_mono.
      { exact (runs_member_availability h lav Hlav hk _ x m Htr Hx). }
      intros [] h' Htr'. by rewrite foldl_snoc. }
  intros [] h' (Hsub' & props & Hprops & Hdays & _). simpl.
  apply runs_ret. split; [done|]. exists lav, props. split_and!; [done..|].
  intros day. specialize (Hdays day).
  destruct (_ !! day) as [f|]; [|done].
  destruct Hdays as (lf & Hget & Hcell & _). eauto.
Qed.

(** ** The document after a call *)
Section RepresentsMono.
Import Heap.

Lemma represents_object_mono {A : Type} (R R' : val -> A -> Prop)
  (h h' : gmap loc cell) v (o : JS.object A) :
  h ⊆ h' -> (∀ x a, R x a -> R' x a) ->
  represents_object R h v o -> represents_object R' h' v o.
Proof.
  intros Hsub HR (l & props & -> & Hl & Hall). exists l, props.
  split_and!; [done|by eapply lookup_weaken|].
  eapply Forall2_impl; [exact Hall|]. intros p q [Hk Hv]. auto.
Qed.

Lemma represents_optional_mono {A : Type} (R R' : val -> A -> Prop)
  (ov : option val) (o : option A) :
  (∀ x a, R x a -> R' x a) ->
  represents_optional R ov o -> represents_optional R' ov o.
Proof.
  intros HR. destruct o as [a|]; simpl; [|done].
  intros (x & -> & Hx). eauto.
Qed.

Lemma represents_member_mono (h h' : gmap loc cell) v (m : Member.t) :
  h ⊆ h' -> represents_member h v m -> represents_member h' v m.
Proof.
  intros Hsub (l & props & -> & Hl & Hid & Hname & Hdays). exists l, props.
  split_and!; [done|by eapply lookup_weaken|done|done|].
  eapply represents_optional_mono; [|exact Hdays].
  intros x days. apply represents_object_mono; [done|].
  intros y parts. apply represents_object_mono; [done|].
  intros z c. by apply represents_completion_mono.
Qed.

Lemma represents_mono (h h' : gmap loc cell) v (doc : option Leaderboard.t) :
  h ⊆ h' -> represents h v doc -> represents h' v doc.
Proof.
  intros Hsub. destruct doc as [d|]; simpl; [|done].
  intros (l & props & -> & Hl & Hms). exists l, props.
  split_and!; [done|by eapply lookup_weaken|].
  eapply represents_optional_mono; [|exact Hms].
  intros x ms. apply represents_object_mono; [done|].
  intros y m. by apply represents_member_mono.
Qed.
End RepresentsMono.

Lemma runs_returns {B : Type} (h : gmap Heap.loc Heap.cell) (v : Heap.val)
  (doc : option Leaderboard.t) (m : Heap.M Heap.val)
  (R : gmap Heap.loc Heap.cell -> Heap.val -> B -> Prop) (expected : B) :
  represents h v doc ->
  runs m h (fun r h' => h ⊆ h' ∧ R h' r expected) ->
  returns h v doc m R expected.
Proof.
  intros Hrep (r & h' & Hrun & Hsub & HR). exists r, h'.
  split_and!; [done|done| |done]. by eapply represents_mono.
Qed.

(** C8. Each function of the transformation layer, run on a heap in which
    the leaderboard value represents a document of the data model (or is
    [null]), returns normally; its result is the value the corresponding
    function of the document computes, whatever the layout of the heap; and
    every cell the heap had before the call (the document included) has the
    same content after it, so that the value still represents the same
    document. *)
Theorem transformation_layer_pure `{Host} (h : gmap Heap.loc Heap.cell)
  (leaderboard : Heap.val) (doc : option Leaderboard.t)
  (day part playerId : string) (days : Heap.val) (dayNumbers : list string) :
  represents h leaderboard doc ->
  represents_strings h days dayNumbers ->
  returns h leaderboard doc (Heap.findDefaultSelection leaderboard)
    represents_selection (App.findDefaultSelection doc)
  ∧ returns h leaderboard doc (Heap.buildLeaderboard leaderboard day part)
      (represents_array represents_ranked) (App.buildLeaderboard doc day part)
  ∧ returns h leaderboard doc (Heap.findDefaultPlayerId leaderboard)
      (fun _ r s => r = Heap.Str s) (App.findDefaultPlayerId doc)
  ∧ returns h leaderboard doc
      (Heap.buildPlayerSubmissions leaderboard (Heap.Str playerId) days)
      (represents_array represents_submission)
      (App.buildPlayerSubmissions doc playerId dayNumbers)
  ∧ returns h leaderboard doc (Heap.computePartAvailability leaderboard)
      represents_availability (App.computePartAvailability doc).
Proof.
  intros Hrep Hdays. split_and!; apply runs_returns; try done.
  - by apply runs_findDefaultSelection.
  - by apply runs_buildLeaderboard.
  - by apply runs_findDefaultPlayerId.
  - by apply runs_buildPlayerSubmissions.
  - by apply runs_computePartAvailability.
Qed.

(** * Further properties *)

(** ** Ties and completeness of [buildLeaderboard] *)
Section SortStable.
Context {A : Type} (cmp : A -> A -> JS.number) (key : A -> Z).
Hypothesis cmp_key :
  forall a b, JS.positive_result (cmp a b) = (key b <? key a).

(** An element is inserted in front of the elements that have its key. *)
Lemma insert_stable (t : Z) x l :
  filter (fun a => key a = t) (JS.insert cmp x l)
  = filter (fun a => key a = t) (x :: l).
Proof.
  induction l as [|y l IH]; [done|].
  cbn [JS.insert]. rewrite cmp_key.
  destruct (Z.ltb_spec (key y) (key x)) as [Hlt|Hge]; [|done].
  rewrite (filter_cons _ y), IH, !filter_cons.
  destruct (decide (key y = t)), (decide (key x = t)); try done. lia.
Qed.

Lemma sort_stable (t : Z) l :
  filter (fun a => key a = t) (JS.sort cmp l) = filter (fun a => key a = t) l.
Proof.
  induction l as [|x l IH]; [done|].
  cbn [JS.sort foldr]. rewrite insert_stable.
  fold (JS.sort cmp l). by rewrite !filter_cons, IH.
Qed.
End SortStable.

(** Sorting commutes with a map that the comparator does not see. *)
Lemma sort_fmap {A B : Type} (cmpA : A -> A -> JS.number)
  (cmpB : B -> B -> JS.number) (g : A -> B) (l : list A) :
  (forall a b, cmpB (g a) (g b) = cmpA a b) ->
  JS.sort cmpB (map g l) = map g (JS.sort cmpA l).
Proof.
  intros Hg. induction l as [|x l IH]; [done|].
  cbn [map JS.sort foldr]. fold (JS.sort cmpB (map g l)). fold (JS.sort cmpA l).
  rewrite IH. generalize (JS.sort cmpA l). clear IH. intros s.
  induction s as [|y s IH]; [done|].
  cbn [map JS.insert]. rewrite Hg. destruct (JS.positive_result _); [|done].
  cbn [map]. by rewrite IH.
Qed.

Lemma forget_with_rank (rows : list Row.t) :
  map forget_rank (imap with_rank rows) = rows.
Proof.
  apply list_eq. intros i. rewrite list_lookup_fmap, list_lookup_imap.
  by destruct (rows !! i) as [[]|].
Qed.

Lemma forget_ranked (format : Z -> string) (day part : string) members :
  map forget_rank (ranked format day part members)
  = JS.sort by_timestamp (pushed_rows format day part members).
Proof. apply forget_with_rank. Qed.

Lemma by_timestamp_lt (a b : Row.t) :
  JS.positive_result (by_timestamp a b) = (Row.timestamp b <? Row.timestamp a).
Proof. by apply by_timestamp_key. Qed.

(** X1. [buildLeaderboard] gives exactly one row to each member that has a
    completion for the requested day and part, and none to the others: without
    their ranks, its rows are a rearrangement of the rows of those members
    (id, display name, formatted time and timestamp), one per member. *)
Theorem buildLeaderboard_one_row_per_completion `{Host}
  (leaderboard : option Leaderboard.t) (day part : string) :
  map forget_rank (App.buildLeaderboard leaderboard day part)
  ≡ₚ omap (fun member =>
       row_of App.formatCompletionTime member <$> completion_at member day part)
       (members_of leaderboard).
Proof.
  rewrite App_buildLeaderboard_ranked, forget_ranked. apply sort_perm.
Qed.

(** X2. Ties keep the order of the document: for every timestamp, the rows of
    [buildLeaderboard] that carry it come in the order in which their members
    are listed under [members]. *)
Theorem buildLeaderboard_ties_in_document_order `{Host}
  (leaderboard : option Leaderboard.t) (day part : string) (t : Z) :
  filter (fun row => Row.timestamp row = t)
    (map forget_rank (App.buildLeaderboard leaderboard day part))
  = filter (fun row => Row.timestamp row = t)
      (omap (fun member =>
         row_of App.formatCompletionTime member <$> completion_at member day part)
         (members_of leaderboard)).
Proof.
  rewrite App_buildLeaderboard_ranked, forget_ranked.
  apply (sort_stable by_timestamp Row.timestamp by_timestamp_lt).
Qed.

Lemma pushed_rows_legacy `{Host} day part members :
  pushed_rows Legacy.formatCompletionTime day part members
  = map legacy_row (pushed_rows App.formatCompletionTime day part members).
Proof.
  unfold pushed_rows. induction members as [|m ms IH]; [done|].
  cbn [omap list_omap]. destruct (completion_at m day part); simpl; [|done].
  by rewrite IH.
Qed.

(** X3. The two revisions of [buildLeaderboard] return rows that agree,
    position by position, on id, name, timestamp and rank.  They agree on
    [completedAt] as well unless the timestamp is 0, where [App.jsx] shows the
    empty string and the earlier revision the formatted epoch. *)
Theorem buildLeaderboard_revisions `{Host}
  (leaderboard : option Leaderboard.t) (day part : string) :
  Forall2 (fun r r' =>
      RankedRow.id r' = RankedRow.id r
      ∧ RankedRow.name r' = RankedRow.name r
      ∧ RankedRow.timestamp r' = RankedRow.timestamp r
      ∧ RankedRow.rank r' = RankedRow.rank r
      ∧ (RankedRow.timestamp r ≠ 0 -> RankedRow.completedAt r' = RankedRow.completedAt r)
      ∧ (RankedRow.timestamp r = 0 ->
         RankedRow.completedAt r = "" ∧ RankedRow.completedAt r' = Date_toLocaleString 0))
    (App.buildLeaderboard leaderboard day part)
    (Legacy.buildLeaderboard leaderboard day part).
Proof.
  rewrite App_buildLeaderboard_ranked, Legacy_buildLeaderboard_ranked.
  unfold ranked. fold (pushed_rows App.formatCompletionTime day part (members_of leaderboard)).
  fold (pushed_rows Legacy.formatCompletionTime day part (members_of leaderboard)).
  rewrite pushed_rows_legacy.
  rewrite (sort_fmap by_timestamp by_timestamp legacy_row) by done.
  assert (Forall (fun row => Row.completedAt row = App.formatCompletionTime (Row.timestamp row))
            (JS.sort by_timestamp (pushed_rows App.formatCompletionTime day part (members_of leaderboard)))) as Hfmt.
  { apply Forall_forall. intros row Hrow.
    apply sort_elem_of, list_elem_of_omap in Hrow as (m & _ & Hrow).
    destruct (completion_at m day part); by simplify_eq/=. }
  revert Hfmt. generalize (JS.sort by_timestamp (pushed_rows App.formatCompletionTime day part (members_of leaderboard))).
  intros rows Hfmt. apply Forall2_same_length_lookup. split.
  - by rewrite !length_imap, length_map.
  - intros i r r'. rewrite !list_lookup_imap, list_lookup_fmap.
    destruct (rows !! i) as [row|] eqn:Hi; [|done]. simpl. intros [= <-] [= <-]. simpl.
    split_and!; try done.
    + intros Hne. rewrite (Forall_lookup_1 _ _ _ _ Hfmt Hi).
      unfold App.formatCompletionTime, Legacy.formatCompletionTime, JS.truthy_int.
      destruct (Z.eqb_spec (Row.timestamp row) 0); done.
    + intros Hz. rewrite (Forall_lookup_1 _ _ _ _ Hfmt Hi), Hz. done.
Qed.

(** ** [computePartAvailability] *)

Lemma App_computePartAvailability_entries (leaderboard : option Leaderboard.t) :
  App.computePartAvailability leaderboard
  = foldl availability_step ∅ (day_entries leaderboard).
Proof.
  rewrite App_computePartAvailability_steps. unfold day_entries.
  generalize (∅ : gmap string Flags.t).
  induction (members_of leaderboard) as [|m ms IH]; intros av; [done|].
  cbn [foldl flat_map]. by rewrite foldl_app, IH.
Qed.

Lemma truthy_object_is_Some {A : Type} (o : option A) :
  truthy_object o = true ↔ is_Some o.
Proof. destruct o; simpl; [by split; eauto|]. split; [done|]. by intros [? ?]. Qed.

(** One step of the inner loop, read at a day. *)
Lemma availability_step_lookup av day parts d :
  availability_step av (day, parts) !! d
  = if decide (d = day) then
      let flags :=
        default {| Flags.part1 := false; Flags.part2 := false |} (av !! day) in
      Some {| Flags.part1 := Flags.part1 flags || truthy_object (JS.get parts "1");
              Flags.part2 := Flags.part2 flags || truthy_object (JS.get parts "2") |}
    else av !! d.
Proof.
  unfold availability_step. destruct (decide (d = day)) as [->|Hne].
  - destruct (av !! day) as [[f1 f2]|] eqn:E;
      destruct (truthy_object (JS.get parts "1")),
        (truthy_object (JS.get parts "2"));
      rewrite ?lookup_alter_eq, ?lookup_insert_eq, ?E; simpl;
      by rewrite ?orb_true_r, ?orb_false_r.
  - destruct (av !! day);
      destruct (truthy_object (JS.get parts "1")),
        (truthy_object (JS.get parts "2"));
      by rewrite ?lookup_alter_ne, ?lookup_insert_ne by done.
Qed.

Lemma availability_step_dom av day parts d :
  is_Some (availability_step av (day, parts) !! d) ↔ is_Some (av !! d) ∨ d = day.
Proof.
  rewrite availability_step_lookup. destruct (decide (d = day)) as [->|Hne].
  - split; [by right|eauto].
  - split; [by left|]. by intros [?|?].
Qed.

Lemma availability_step_flag av day parts d (part : Z) :
  part = 1 ∨ part = 2 ->
  Component.part_flag (availability_step av (day, parts)) d part = true
  ↔ Component.part_flag av d part = true
    ∨ d = day ∧ is_Some (JS.get parts (JS.String_of part)).
Proof.
  intros Hpart. unfold Component.part_flag. rewrite availability_step_lookup.
  destruct (decide (d = day)) as [->|Hne].
  - destruct Hpart as [-> | ->]; simpl;
      [change (JS.String_of 1) with "1"|change (JS.String_of 2) with "2"];
      rewrite <- truthy_object_is_Some;
      destruct (av !! day) as [[f1 f2]|]; simpl;
      rewrite ?orb_true_iff; intuition congruence.
  - split; [by left|]. by intros [?|[? _]].
Qed.

Lemma foldl_availability_step_dom entries av d :
  is_Some (foldl availability_step av entries !! d)
  ↔ is_Some (av !! d) ∨ d ∈ entries.*1.
Proof.
  revert av. induction entries as [|[day parts] es IH]; intros av.
  - simpl. rewrite elem_of_nil. tauto.
  - cbn [foldl]. rewrite IH, availability_step_dom. simpl.
    rewrite elem_of_cons. tauto.
Qed.

Lemma foldl_availability_step_flag entries av d (part : Z) :
  part = 1 ∨ part = 2 ->
  Component.part_flag (foldl availability_step av entries) d part = true
  ↔ Component.part_flag av d part = true
    ∨ ∃ parts, (d, parts) ∈ entries ∧ is_Some (JS.get parts (JS.String_of part)).
Proof.
  intros Hpart. revert av. induction entries as [|[day parts] es IH]; intros av.
  - simpl. split; [auto|]. intros [?|(parts & Hin & _)]; [done|].
    by apply elem_of_nil in Hin.
  - cbn [foldl]. rewrite IH, availability_step_flag by done. split.
    + intros [[?|[-> ?]]|(parts' & ? & ?)]; [by left| |].
      * right. exists parts. split; [left|done].
      * right. exists parts'. split; [by right|done].
    + intros [?|(parts' & Hin & ?)]; [by left; left|].
      apply elem_of_cons in Hin as [[= -> ->]|Hin]; [by left; right|].
      right. eauto.
Qed.

Lemma day_entries_elem_of leaderboard day parts :
  (day, parts) ∈ day_entries leaderboard
  ↔ ∃ member, member ∈ members_of leaderboard
      ∧ (day, parts) ∈ JS.or_empty (Member.completion_day_level member).
Proof.
  unfold day_entries. rewrite list_elem_of_In, in_flat_map.
  setoid_rewrite <- list_elem_of_In. done.
Qed.

Lemma day_entries_keys leaderboard :
  (day_entries leaderboard).*1 = all_days leaderboard.
Proof.
  unfold day_entries, all_days.
  induction (members_of leaderboard) as [|m ms IH]; [done|].
  cbn [flat_map]. by rewrite fmap_app, IH.
Qed.

Lemma App_computePartAvailability_flag (leaderboard : option Leaderboard.t)
  (day : string) (part : Z) :
  part = 1 ∨ part = 2 ->
  Component.part_flag (App.computePartAvailability leaderboard) day part = true
  ↔ ∃ member parts,
      member ∈ members_of leaderboard
      ∧ (day, parts) ∈ JS.Object_entries
                         (JS.or_empty (Member.completion_day_level member))
      ∧ is_Some (JS.get parts (JS.String_of part)).
Proof.
  intros Hpart. rewrite App_computePartAvailability_entries.
  rewrite foldl_availability_step_flag by done.
  unfold Component.part_flag at 1. rewrite lookup_empty. split.
  - intros [?|(parts & Hin & Hsome)]; [done|].
    apply day_entries_elem_of in Hin as (m & Hm & Hin). eauto.
  - intros (m & parts & Hm & Hin & Hsome). right. exists parts.
    split; [|done]. apply day_entries_elem_of. eauto.
Qed.

Lemma App_computePartAvailability_dom (leaderboard : option Leaderboard.t)
  (day : string) :
  is_Some (App.computePartAvailability leaderboard !! day)
  ↔ day ∈ all_days leaderboard.
Proof.
  rewrite App_computePartAvailability_entries.
  rewrite foldl_availability_step_dom, day_entries_keys.
  rewrite lookup_empty. split; [|auto]. intros [[? ?]|?]; done.
Qed.

(** X4. [computePartAvailability] has an entry for exactly the days that occur
    as a key under some member's [completion_day_level]; the flag of part 1
    (of part 2) of a day is true exactly when some member has an entry for
    that day that holds a completion for part "1" (for part "2"). *)
Theorem computePartAvailability_spec (leaderboard : option Leaderboard.t)
  (day : string) :
  (is_Some (App.computePartAvailability leaderboard !! day)
   ↔ day ∈ all_days leaderboard)
  ∧ ∀ part, part = 1 ∨ part = 2 ->
      Component.part_flag (App.computePartAvailability leaderboard) day part = true
      ↔ ∃ member parts,
          member ∈ members_of leaderboard
          ∧ (day, parts) ∈ JS.Object_entries
                             (JS.or_empty (Member.completion_day_level member))
          ∧ is_Some (JS.get parts (JS.String_of part)).
Proof.
  split.
  - apply App_computePartAvailability_dom.
  - intros part Hpart. by apply App_computePartAvailability_flag.
Qed.

(** Reading a key of an object whose keys are distinct. *)
Lemma get_elem_of {V : Type} (o : JS.object V) (k : string) (v : V) :
  NoDup (JS.Object_keys o) -> (k, v) ∈ o ↔ JS.get o k = Some v.
Proof.
  unfold JS.Object_keys. induction o as [|[k' v'] o IH]; intros Hnd.
  - simpl. by rewrite elem_of_nil.
  - apply NoDup_cons in Hnd as [Hk' Hnd]. simpl in *.
    rewrite elem_of_cons. destruct (decide (k' = k)) as [->|Hne].
    + split; [|by intros [= ->]; left].
      intros [[= ->]|Hin]; [done|]. destruct Hk'.
      apply list_elem_of_In, in_map_iff. exists (k, v). split; [done|].
      by apply list_elem_of_In.
    + rewrite <- IH by done. split; [|auto]. by intros [[= ? ?]|?].
Qed.

Lemma get_Some_elem_of {V : Type} (o : JS.object V) (k : string) (v : V) :
  JS.get o k = Some v -> (k, v) ∈ o.
Proof.
  induction o as [|[k' v'] o IH]; [done|]. simpl.
  destruct (decide (k' = k)) as [->|]; [intros [= ->]; left|].
  intros ?. right. auto.
Qed.

Lemma get_is_Some {V : Type} (o : JS.object V) (k : string) :
  k ∈ JS.Object_keys o -> is_Some (JS.get o k).
Proof.
  unfold JS.Object_keys. induction o as [|[k' v'] o IH]; simpl.
  - by intros ?%elem_of_nil.
  - destruct (decide (k' = k)); [eauto|]. intros [?|?]%elem_of_cons; [done|auto].
Qed.

(** The rows of [buildLeaderboard] are empty exactly when nobody has the
    completion. *)
Lemma ranked_nonempty (format : Z -> string) (day part : string) members :
  ranked format day part members ≠ []
  ↔ ∃ member, member ∈ members ∧ is_Some (completion_at member day part).
Proof.
  split.
  - destruct (ranked format day part members) as [|r rs] eqn:E; [done|]. intros _.
    destruct (ranked_source format day part members r) as (m & c & Hm & Hc & _).
    { rewrite E. left. }
    eauto.
  - intros (m & Hm & [c Hc]) E.
    destruct (ranked_complete format day part members m c Hm Hc) as [i Hi].
    by rewrite E in Hi.
Qed.

(** X5. For a document in which no member lists a day twice: the part button
    of a day tile carries [has-data] exactly when selecting that day and part,
    as [handlePartSelect] does, makes [leaderboardRows] non-empty. *)
Theorem has_data_iff_ranking `{Host} (st : Client.State) (day : string) (part : Z) :
  unique_day_keys (Client.leaderboard st) ->
  part = 1 ∨ part = 2 ->
  Component.hasCompletions st day part = true
  ↔ Component.leaderboardRows
      (Component.handlePartSelect day (JS.String_of part) st) ≠ [].
Proof.
  intros Huniq Hpart. unfold Component.leaderboardRows, Component.handlePartSelect.
  simpl. rewrite App_buildLeaderboard_ranked, ranked_nonempty.
  unfold Component.hasCompletions, Component.availability.
  rewrite (App_computePartAvailability_flag (Client.leaderboard st) day part Hpart).
  unfold completion_at. split.
  - intros (m & parts & Hm & Hin & Hsome). exists m. split; [done|].
    pose proof (Huniq m Hm) as Hnd.
    destruct (Member.completion_day_level m) as [days|]; simpl in *;
      [|by apply elem_of_nil in Hin].
    apply (get_elem_of days) in Hin; [|exact Hnd].
    by rewrite Hin.
  - intros (m & Hm & [c Hc]). exists m.
    destruct (Member.completion_day_level m) as [days|]; simpl in *; [|done].
    destruct (JS.get days day) as [parts|] eqn:E; simpl in *; [|done].
    exists parts. split_and!; [done| |by rewrite Hc].
    by apply get_Some_elem_of.
Qed.

(** ** The default selection and what it shows *)

Lemma all_days_member (leaderboard : option Leaderboard.t) (day : string) :
  day ∈ all_days leaderboard ->
  ∃ member parts,
    member ∈ members_of leaderboard
    ∧ Member.completion_day_level member ≫= (fun days => JS.get days day) = Some parts
    ∧ (day, parts) ∈ JS.or_empty (Member.completion_day_level member).
Proof.
  unfold all_days. rewrite list_elem_of_In, in_flat_map.
  intros (m & Hm & Hday). apply list_elem_of_In in Hm, Hday.
  destruct (Member.completion_day_level m) as [days|] eqn:E; simpl in Hday;
    [|by apply elem_of_nil in Hday].
  destruct (get_is_Some days day Hday) as [parts Hparts].
  exists m, parts. rewrite E. simpl. split_and!; [done..|].
  by apply get_Some_elem_of.
Qed.

(** X6. When the day keys of a document are day-number strings, every day
    entry holds a completion for part 1 or for part 2, and there is at least
    one day entry, the selection [findDefaultSelection] returns has a
    non-empty ranking, and its day has an availability entry. *)
Theorem default_selection_has_ranking `{Host} (leaderboard : option Leaderboard.t) :
  well_keyed leaderboard ->
  days_have_stars leaderboard ->
  all_days leaderboard ≠ [] ->
  let selection := App.findDefaultSelection leaderboard in
  App.buildLeaderboard leaderboard (Selection.day selection) (Selection.part selection)
    ≠ []
  ∧ is_Some (App.computePartAvailability leaderboard !! Selection.day selection).
Proof.
  intros Hkeys Hstars Hne selection. subst selection.
  rewrite App_buildLeaderboard_ranked, ranked_nonempty.
  rewrite App_computePartAvailability_dom.
  rewrite App_findDefaultSelection_part, App_findDefaultSelection_day.
  destruct (first_day_min _ Hkeys Hne) as [Hin _]. split; [|done].
  destruct (existsb _ _) eqn:E.
  - by apply existsb_completion in E.
  - destruct (all_days_member _ _ Hin) as (m & parts & Hm & Hget & Hentry).
    exists m. split; [done|].
    assert (completion_at m (first_day (all_days leaderboard)) "2" = None) as Hno2.
    { destruct (completion_at m _ "2") as [c|] eqn:Hc; [|done].
      assert (existsb (fun member =>
                truthy_object (completion_at member (first_day (all_days leaderboard)) "2"))
                (members_of leaderboard) = true) as Hex.
      { apply existsb_completion. exists m. by rewrite Hc. }
      by rewrite Hex in E. }
    pose proof (Hstars m _ parts Hm Hentry) as Hstar.
    unfold completion_at in *.
    destruct (Member.completion_day_level m) as [days|]; simpl in *; [|done].
    rewrite Hget in *. simpl in *.
    destruct Hstar as [H1|H2]; [done|].
    rewrite Hno2 in H2. by destruct H2.
Qed.

(** ** [getDayNumbers] *)

Lemma String_of_inj (m n : nat) :
  JS.String_of (Z.of_nat m + 1) = JS.String_of (Z.of_nat n + 1) -> m = n.
Proof.
  intros E. apply (f_equal JS.Number) in E.
  replace (Z.of_nat m + 1) with (Z.of_N (N.of_nat (S m))) in E by lia.
  replace (Z.of_nat n + 1) with (Z.of_N (N.of_nat (S n))) in E by lia.
  rewrite !Number_String_of in E. injection E. lia.
Qed.

Lemma Array_from_lookup {A : Type} (n : nat) (f : nat -> A) (i : nat) :
  Component.Array_from n f !! i = if decide (i < n)%nat then Some (f i) else None.
Proof.
  unfold Component.Array_from. rewrite list_lookup_fmap.
  destruct (decide (i < n)%nat) as [Hlt|Hge].
  - by rewrite lookup_seq_lt.
  - by rewrite lookup_seq_ge by lia.
Qed.

Lemma Array_from_length {A : Type} (n : nat) (f : nat -> A) :
  length (Component.Array_from n f) = n.
Proof. unfold Component.Array_from. by rewrite length_map, length_seq. Qed.

Lemma day_numbers_NoDup (n : nat) :
  NoDup (Component.Array_from n (fun i => JS.String_of (Z.of_nat i + 1))).
Proof.
  apply NoDup_alt. intros i j k. rewrite !Array_from_lookup.
  destruct (decide (i < n)%nat), (decide (j < n)%nat); try done.
  intros [= <-] [= E]. symmetry. by apply String_of_inj.
Qed.

Lemma getDayNumbers_length (year : string) :
  length (Component.getDayNumbers year)
  = if Component.strict_equal (JS.Number year) (JS.Num 2025) then 12%nat else 25%nat.
Proof. unfold Component.getDayNumbers. by rewrite Array_from_length. Qed.

(** X7. [getDayNumbers] returns 12 or 25 days, 12 exactly when the year, a
    string of digits, denotes 2025.  The days are the decimal numerals of 1,
    2, ... in this order, they read back as these numbers, no day occurs
    twice and each is a day-number string.  For a year other than 2025 the
    list is the [dayNumbers] of the earlier revision. *)
Theorem getDayNumbers_spec (year : string) :
  let days := Component.getDayNumbers year in
  (length days = 12%nat ∨ length days = 25%nat)
  ∧ (∀ z, JS.Number year = JS.Num z -> (length days = 12%nat ↔ z = 2025))
  ∧ (∀ i : nat, (i < length days)%nat ->
       days !! i = Some (JS.String_of (Z.of_nat i + 1))
       ∧ JS.Number (JS.String_of (Z.of_nat i + 1)) = JS.Num (Z.of_nat i + 1))
  ∧ NoDup days
  ∧ (∀ day, day ∈ days -> day_number_key day)
  ∧ (∀ z, JS.Number year = JS.Num z -> z ≠ 2025 -> days = LegacyClient.dayNumbers).
Proof.
  intros days. subst days. split_and!.
  - rewrite getDayNumbers_length. destruct (Component.strict_equal _ _); auto.
  - intros z Hz. rewrite getDayNumbers_length, Hz. simpl.
    destruct (Z.eqb_spec z 2025); split; (lia || done).
  - intros i Hi. split.
    + unfold Component.getDayNumbers in *. rewrite Array_from_length in Hi.
      rewrite Array_from_lookup. by destruct (decide _).
    + replace (Z.of_nat i + 1) with (Z.of_N (N.of_nat (S i))) by lia.
      apply Number_String_of.
  - apply day_numbers_NoDup.
  - intros day Hday. apply list_elem_of_lookup in Hday as [i Hi].
    unfold Component.getDayNumbers in Hi. rewrite Array_from_lookup in Hi.
    destruct (decide _) as [Hlt|]; [|done]. injection Hi as <-.
    exists (N.of_nat (S i)). split.
    + destruct (Component.strict_equal _ _);
        (eapply N.le_lt_trans; [|by apply (N.pow_lt_mono_r 2 5 53)]); lia.
    + f_equal. lia.
  - intros z Hz Hne. unfold Component.getDayNumbers. rewrite Hz. simpl.
    by destruct (Z.eqb_spec z 2025).
Qed.

(** ** The players and the default player *)

(** Sorting with a comparator that orders the elements. *)
Section SortOrdered.
Context {A : Type} (cmp : A -> A -> JS.number).
Hypothesis cmp_antisym :
  ∀ a b, JS.positive_result (cmp a b) = true -> JS.positive_result (cmp b a) = false.
Hypothesis cmp_trans :
  ∀ a b c, JS.positive_result (cmp a b) = false ->
    JS.positive_result (cmp b c) = false -> JS.positive_result (cmp a c) = false.

Lemma insert_ordered x l :
  StronglySorted (fun a b => JS.positive_result (cmp a b) = false) l ->
  StronglySorted (fun a b => JS.positive_result (cmp a b) = false) (JS.insert cmp x l).
Proof.
  induction 1 as [|y l Hs IH Hy]; simpl.
  - repeat constructor.
  - destruct (JS.positive_result (cmp x y)) eqn:E.
    + constructor; [done|]. rewrite insert_perm. constructor; [|done].
      by apply cmp_antisym.
    + constructor; [by constructor|]. constructor; [done|].
      eapply Forall_impl; [exact Hy|]. simpl. intros z Hz. by eapply cmp_trans.
Qed.

Lemma sort_ordered l :
  StronglySorted (fun a b => JS.positive_result (cmp a b) = false) (JS.sort cmp l).
Proof.
  induction l as [|x l IH]; simpl; [constructor|]. by apply insert_ordered.
Qed.

Lemma sort_ordered_head l x y :
  head (JS.sort cmp l) = Some x -> y ∈ l -> x = y ∨ JS.positive_result (cmp x y) = false.
Proof.
  intros Hx Hy. pose proof (sort_ordered l) as Hs.
  apply (sort_elem_of cmp) in Hy.
  destruct (JS.sort cmp l) as [|x' s]; simplify_eq/=.
  apply StronglySorted_inv in Hs as [_ Hall].
  apply elem_of_cons in Hy as [->|Hy]; [by left|]. right.
  rewrite Forall_forall in Hall. by apply Hall.
Qed.
End SortOrdered.

Lemma String_of_nonempty (z : Z) : JS.String_of z ≠ "".
Proof.
  unfold JS.String_of, JS.toString, NilZero.string_of_int.
  destruct (Z.to_int z) as [d|d]; [|done].
  unfold NilZero.string_of_uint. by destruct d.
Qed.

Lemma players_elem_of `{Host} (doc : Leaderboard.t) (player : string * string) :
  player ∈ Component.players (Some doc)
  ↔ ∃ member, member ∈ members_of (Some doc)
      ∧ player = (JS.String_of (Member.id member), display_name member).
Proof.
  unfold Component.players. rewrite sort_elem_of, list_elem_of_fmap.
  unfold members_of. simpl. split; intros (m & ? & ?); eauto.
Qed.

(** X8. [findDefaultPlayerId] returns the empty string when the document has
    no members; otherwise it returns a non-empty string, the id, as a string,
    of one of the members. *)
Theorem findDefaultPlayerId_member `{Host} (leaderboard : option Leaderboard.t) :
  (members_of leaderboard = [] -> App.findDefaultPlayerId leaderboard = "")
  ∧ (members_of leaderboard ≠ [] ->
     App.findDefaultPlayerId leaderboard ≠ ""
     ∧ ∃ member, member ∈ members_of leaderboard
         ∧ App.findDefaultPlayerId leaderboard = JS.String_of (Member.id member)).
Proof.
  unfold App.findDefaultPlayerId. split.
  - by intros ->.
  - intros Hne.
    destruct (JS.sort _ _) as [|p ps] eqn:E.
    { apply sort_nil_inv, fmap_nil_inv in E. done. }
    assert (p ∈ map (fun member => (JS.String_of (Member.id member), display_name member))
                  (members_of leaderboard)) as Hp.
    { eapply sort_elem_of. rewrite E. left. }
    apply list_elem_of_fmap in Hp as (m & -> & Hm). simpl. split.
    + apply String_of_nonempty.
    + eauto.
Qed.

(** X9. When [localeCompare] orders the names, the member
    [findDefaultPlayerId] picks has a display name that is not after the
    display name of any member. *)
Theorem findDefaultPlayerId_first_in_order `{Host}
  (leaderboard : option Leaderboard.t) :
  orders_names localeCompare ->
  members_of leaderboard ≠ [] ->
  ∃ member,
    member ∈ members_of leaderboard
    ∧ App.findDefaultPlayerId leaderboard = JS.String_of (Member.id member)
    ∧ ∀ other, other ∈ members_of leaderboard ->
        JS.positive_result (localeCompare (display_name member) (display_name other))
        = false.
Proof.
  intros [Hanti Htrans] Hne. unfold App.findDefaultPlayerId.
  set (cmp := fun a b : string * string => localeCompare (snd a) (snd b)).
  set (l := map (fun member => (JS.String_of (Member.id member), display_name member))
              (members_of leaderboard)).
  destruct (head (JS.sort cmp l)) as [p|] eqn:E.
  - assert (p ∈ l) as Hp.
    { apply (sort_elem_of cmp). destruct (JS.sort cmp l); simplify_eq/=. left. }
    apply list_elem_of_fmap in Hp as (m & -> & Hm).
    exists m. split_and!; [done..|]. intros other Hother.
    assert ((JS.String_of (Member.id other), display_name other) ∈ l) as Ho.
    { apply list_elem_of_fmap. eauto. }
    destruct (sort_ordered_head cmp) with (l := l) (x := (JS.String_of (Member.id m), display_name m))
      (y := (JS.String_of (Member.id other), display_name other)) as [Heq|Hle]; try done.
    + intros a b. apply Hanti.
    + intros a b c. apply Htrans.
    + injection Heq as _ Hname. rewrite <- Hname.
      destruct (JS.positive_result (localeCompare (display_name m) (display_name m))) eqn:Hself;
        [|done].
      by rewrite (Hanti _ _ Hself) in Hself.
  - destruct (JS.sort cmp l) eqn:E'; [|done].
    apply sort_nil_inv, fmap_nil_inv in E'. done.
Qed.

(** The comparator of the sample host orders the names. *)
Lemma test_host_orders_names : orders_names (@localeCompare test_host).
Proof.
  assert (∀ a b, JS.positive_result (@localeCompare test_host a b) = true
                 ↔ String.compare a b = Gt) as Hgt.
  { intros a b. simpl. unfold String.ltb.
    pose proof (OrderedTypeEx.String_as_OT.cmp_eq a b) as Heq.
    unfold OrderedTypeEx.String_as_OT.cmp in Heq.
    destruct (String.compare a b) eqn:E.
    - assert (a = b) as -> by by apply Heq. by rewrite String.eqb_refl.
    - done.
    - destruct (String.eqb_spec a b) as [->|Hne]; simpl; [|done].
      pose proof (proj2 Heq eq_refl) as Hbad. discriminate Hbad. }
  assert (∀ a b, String.compare a b = Gt ↔ OrderedTypeEx.String_as_OT.lt b a) as Hlt.
  { intros a b. rewrite <- OrderedTypeEx.String_as_OT.cmp_lt.
    rewrite (OrderedTypeEx.String_as_OT.cmp_antisym b a).
    unfold OrderedTypeEx.String_as_OT.cmp.
    destruct (String.compare a b); simpl; split; done. }
  assert (∀ a b, JS.positive_result (@localeCompare test_host a b) = false
                 ↔ ¬ OrderedTypeEx.String_as_OT.lt b a) as Hle.
  { intros a b. rewrite <- Hlt, <- Hgt. by destruct (JS.positive_result _). }
  split.
  - intros a b Hab. apply Hle. apply Hgt, Hlt in Hab. intros Hba.
    by apply (OrderedTypeEx.String_as_OT.lt_not_eq _ _
      (OrderedTypeEx.String_as_OT.lt_trans _ _ _ Hab Hba)).
  - intros a b c Hab Hbc. apply Hle. apply Hle in Hab, Hbc. intros Hca.
    destruct (OrderedTypeEx.String_as_OT.compare a b) as [Hlt'|Heq'|Hgt'].
    + apply Hbc. by eapply OrderedTypeEx.String_as_OT.lt_trans.
    + unfold OrderedTypeEx.String_as_OT.eq in Heq'. subst b. done.
    + done.
Qed.

(** ** More on the submit handler *)
Section HandleSubmitOutcome.
Context `{Host}.
Import Client.

(** The three ways a confirmed submit ends. *)
Lemma confirmed_outcome (w : World) (n : nat) (st : State) :
  JS.trim (leaderboardCode st) ≠ "" ->
  JS.trim (sessionToken st) ≠ "" ->
  confirm_answer w confirm_message = true ->
  let st0 := setLeaderboard None (setLoading true (setError "" st)) in
  let result := run w n (handleSubmit st) in
  match fresh_entry st (clock w n) with
  | Some cached =>
      fst result = setLoading false (show (data cached) st0)
      ∧ snd result = [Confirmed confirm_message true; Clock (clock w n)]
  | None =>
      fetches (snd result) = [request_of st]
      ∧ match network w (request_of st) with
        | Responded status (Json json) =>
            if ok status then
              ∃ t, last (snd result) = Some (Clock t)
                   ∧ fst result
                     = setLoading false
                         (show json
                            (cachePut (cacheKey st) {| data := json; fetchedAt := t |} st0))
            else
              fst result
              = setLoading false (setError (shown_error (status_message status)) st0)
        | outcome =>
            ∃ message, failure_of outcome = Some message
              ∧ fst result = setLoading false (setError (shown_error message) st0)
        end
  end.
Proof.
  intros Hcode Htoken Hconfirm st0 result. subst result.
  rewrite (run_handleSubmit_confirmed w n st Hcode Htoken Hconfirm).
  rewrite run_tryBlock. cbn [fst snd]. fold st0.
  change (cache st0) with (cache st). change (cacheKey st0) with (cacheKey st).
  rewrite !run_fetchLeaderboard.
  change (request_of st0) with (request_of st).
  change (cacheKey st0) with (cacheKey st).
  unfold fresh_entry.
  destruct (cache st !! cacheKey st) as [cached|] eqn:Hcached.
  - destruct (clock w n - fetchedAt cached <? FIFTEEN_MIN); [done|].
    cbn [fst snd].
    destruct (network w (request_of st)) as [message|status [message|json]]; simpl.
    + split; [done|]. eauto.
    + destruct (ok status); simpl; split; eauto.
    + destruct (ok status); simpl; split; eauto.
  - destruct (network w (request_of st)) as [message|status [message|json]]; simpl.
    + split; [done|]. eauto.
    + destruct (ok status); simpl; split; eauto.
    + destruct (ok status); simpl; split; eauto.
Qed.

(** What a declined confirmation leaves. *)
Lemma run_handleSubmit_declined (w : World) (n : nat) (st : State) :
  JS.trim (leaderboardCode st) ≠ "" ->
  JS.trim (sessionToken st) ≠ "" ->
  confirm_answer w confirm_message = false ->
  run w n (handleSubmit st) = (setError "" st, [Confirmed confirm_message false]).
Proof.
  intros Hcode Htoken Hconfirm. unfold handleSubmit. simpl.
  assert (JS.truthy_string (JS.trim (leaderboardCode st)) = true) as ->.
  { destruct (JS.truthy_string _) eqn:E; [done|]. by apply truthy_string_spec in E. }
  assert (JS.truthy_string (JS.trim (sessionToken st)) = true) as ->.
  { destruct (JS.truthy_string _) eqn:E; [done|]. by apply truthy_string_spec in E. }
  simpl. unfold mbind at 1, io_bind at 1. simpl. by rewrite Hconfirm.
Qed.

Lemma run_handleSubmit_blank (w : World) (n : nat) (st : State) :
  JS.trim (leaderboardCode st) = "" ∨ JS.trim (sessionToken st) = "" ->
  run w n (handleSubmit st) = (setError validation_message st, []).
Proof.
  intros Hblank. unfold handleSubmit. simpl.
  assert (negb (JS.truthy_string (JS.trim (leaderboardCode st)))
          || negb (JS.truthy_string (JS.trim (sessionToken st))) = true) as ->.
  { destruct Hblank as [-> | ->]; [done|]. by rewrite orb_true_r. }
  done.
Qed.

Lemma shown_error_nonempty (message : string) : shown_error message ≠ "".
Proof.
  unfold shown_error. destruct (JS.truthy_string message) eqn:E; [|done].
  intros ->. done.
Qed.

End HandleSubmitOutcome.

Lemma fresh_entry_None (st : Client.State) (now : Z) :
  (∀ cached, Client.cache st !! Client.cacheKey st = Some cached ->
     15 * 60 * 1000 <= now - Client.fetchedAt cached) ->
  fresh_entry st now = None.
Proof.
  intros Hstale. unfold fresh_entry.
  destruct (Client.cache st !! Client.cacheKey st) as [cached|]; [|done].
  specialize (Hstale cached eq_refl). change Client.FIFTEEN_MIN with (15 * 60 * 1000).
  by destruct (Z.ltb_spec (now - Client.fetchedAt cached) (15 * 60 * 1000)); [lia|].
Qed.

(** X10. When both fields are filled in and the user declines the
    confirmation, [handleSubmit] only clears the error: the document, the
    selection and the cache are kept, the clock is not read and no network
    call is made. *)
Theorem declined_submit_changes_nothing `{Host} (st : Client.State)
  (w : Client.World) (n : nat) :
  JS.trim (Client.leaderboardCode st) ≠ "" ->
  JS.trim (Client.sessionToken st) ≠ "" ->
  Client.confirm_answer w Client.confirm_message = false ->
  Client.run w n (Client.handleSubmit st)
  = (Client.setError "" st, [Client.Confirmed Client.confirm_message false]).
Proof. apply run_handleSubmit_declined. Qed.

(** X11. On a confirmed submit that is not served from the cache, a failed
    load leaves its message in [error]: the status message with the status
    code for a response outside 200..299, the message of the rejection or of
    the parse error otherwise (the generic text when that message is empty).
    No document is shown, [loading] is false again, the cache and the
    selection are as before, and exactly one network call was made. *)
Theorem failed_fetch_reports_error `{Host} (st : Client.State)
  (w : Client.World) (n : nat) :
  JS.trim (Client.leaderboardCode st) ≠ "" ->
  JS.trim (Client.sessionToken st) ≠ "" ->
  Client.confirm_answer w Client.confirm_message = true ->
  (∀ cached, Client.cache st !! (Client.year st +:+ ":" +:+ Client.leaderboardCode st)
       = Some cached ->
     15 * 60 * 1000 <= Client.clock w n - Client.fetchedAt cached) ->
  let result := Client.run w n (Client.handleSubmit st) in
  let failed (message : string) :=
    Client.error (fst result)
    = (if JS.truthy_string message then message
       else "Something went wrong while loading data.")
    ∧ Client.leaderboard (fst result) = None
    ∧ Client.loading (fst result) = false
    ∧ Client.cache (fst result) = Client.cache st
    ∧ Client.selectedDay (fst result) = Client.selectedDay st
    ∧ Client.selectedPart (fst result) = Client.selectedPart st
    ∧ Client.selectedPlayerId (fst result) = Client.selectedPlayerId st
    ∧ Client.fetches (snd result) = [Client.request_of st] in
  (∀ status body,
     Client.network w (Client.request_of st) = Client.Responded status body ->
     ¬ (200 <= status <= 299) ->
     failed ("Unable to load leaderboard (status " +:+ JS.String_of status +:+ "). "
             +:+ "Ensure you are signed in to Advent of Code and have access to this board."))
  ∧ (∀ message,
     Client.network w (Client.request_of st) = Client.Rejected message ->
     failed message)
  ∧ (∀ status message,
     Client.network w (Client.request_of st)
     = Client.Responded status (Client.Unparsable message) ->
     200 <= status <= 299 ->
     failed message).
Proof.
  intros Hcode Htoken Hconfirm Hstale result failed.
  pose proof (confirmed_outcome w n st Hcode Htoken Hconfirm) as Hout.
  simpl in Hout. rewrite (fresh_entry_None st _ Hstale) in Hout. fold result in Hout.
  destruct Hout as [Hfetches Hout].
  assert (∀ z, Client.ok z = true ↔ 200 <= z <= 299) as Hok.
  { intros z. unfold Client.ok. by rewrite andb_true_iff, !Z.leb_le. }
  assert (∀ message,
    fst result
    = Client.setLoading false
        (Client.setError (shown_error message)
           (Client.setLeaderboard None
              (Client.setLoading true (Client.setError "" st)))) ->
    failed message) as Hfailed.
  { intros message Hres. unfold failed. rewrite Hres. by split_and!. }
  split_and!.
  - intros status body Hnet Hnot. apply Hfailed. rewrite Hnet in Hout.
    assert (Client.ok status = false) as Hno.
    { destruct (Client.ok status) eqn:E; [|done]. by apply Hok in E. }
    destruct body as [message|json].
    + destruct Hout as (m & Hm & ->). simpl in Hm. rewrite Hno in Hm. simpl in Hm.
      by injection Hm as <-.
    + by rewrite Hno in Hout.
  - intros message Hnet. apply Hfailed. rewrite Hnet in Hout.
    destruct Hout as (m & Hm & ->). simpl in Hm. by injection Hm as <-.
  - intros status message Hnet Hin. apply Hfailed. rewrite Hnet in Hout.
    apply Hok in Hin.
    destruct Hout as (m & Hm & ->). simpl in Hm. rewrite Hin in Hm.
    by injection Hm as <-.
Qed.

(** X12. A confirmed submit ends with [loading] false and in one of two ways:
    without a document and with a non-empty error, the cache being as before;
    or with a document and an empty error, the document being the one of the
    cache entry of the submitted key, and the selected day, part and player
    being the defaults of that document. *)
Theorem confirmed_submit_outcome `{Host} (st : Client.State)
  (w : Client.World) (n : nat) :
  JS.trim (Client.leaderboardCode st) ≠ "" ->
  JS.trim (Client.sessionToken st) ≠ "" ->
  Client.confirm_answer w Client.confirm_message = true ->
  let st' := fst (Client.run w n (Client.handleSubmit st)) in
  Client.loading st' = false
  ∧ ((Client.leaderboard st' = None
      ∧ Client.error st' ≠ ""
      ∧ Client.cache st' = Client.cache st)
     ∨ ∃ doc entry,
         Client.leaderboard st' = Some doc
         ∧ Client.error st' = ""
         ∧ Client.cache st' !! (Client.year st +:+ ":" +:+ Client.leaderboardCode st)
       = Some entry
         ∧ Client.data entry = doc
         ∧ Client.selectedDay st' = Selection.day (App.findDefaultSelection (Some doc))
         ∧ Client.selectedPart st' = Selection.part (App.findDefaultSelection (Some doc))
         ∧ Client.selectedPlayerId st' = App.findDefaultPlayerId (Some doc)).
Proof.
  intros Hcode Htoken Hconfirm st'.
  change (Client.year st +:+ ":" +:+ Client.leaderboardCode st) with (Client.cacheKey st) in *.
  pose proof (confirmed_outcome w n st Hcode Htoken Hconfirm) as Hout.
  simpl in Hout. fold st' in Hout.
  unfold fresh_entry in Hout.
  assert (∀ message,
    st' = Client.setLoading false
            (Client.setError (shown_error message)
               (Client.setLeaderboard None
                  (Client.setLoading true (Client.setError "" st)))) ->
    Client.loading st' = false
    ∧ Client.leaderboard st' = None ∧ Client.error st' ≠ ""
      ∧ Client.cache st' = Client.cache st) as Hfailed.
  { intros message ->. split_and!; try done. apply shown_error_nonempty. }
  destruct (Client.cache st !! Client.cacheKey st) as [cached|] eqn:Hcached.
  - destruct (Client.clock w n - Client.fetchedAt cached <? Client.FIFTEEN_MIN).
    + destruct Hout as [-> _]. split; [done|]. right. exists (Client.data cached), cached.
      by split_and!.
    + destruct Hout as [_ Hout].
      destruct (Client.network w (Client.request_of st)) as [message|status [message|json]].
      * destruct Hout as (m & _ & Hres). destruct (Hfailed m Hres) as [? ?]. auto.
      * destruct Hout as (m & _ & Hres). destruct (Hfailed m Hres) as [? ?]. auto.
      * destruct (Client.ok status).
        -- destruct Hout as (t & _ & ->). split; [done|]. right.
           exists json, {| Client.data := json; Client.fetchedAt := t |}.
           split_and!; try done. simpl. by rewrite lookup_insert_eq.
        -- destruct (Hfailed _ Hout) as [? ?]. auto.
  - destruct Hout as [_ Hout].
    destruct (Client.network w (Client.request_of st)) as [message|status [message|json]].
    + destruct Hout as (m & _ & Hres). destruct (Hfailed m Hres) as [? ?]. auto.
    + destruct Hout as (m & _ & Hres). destruct (Hfailed m Hres) as [? ?]. auto.
    + destruct (Client.ok status).
      * destruct Hout as (t & _ & ->). split; [done|]. right.
        exists json, {| Client.data := json; Client.fetchedAt := t |}.
        split_and!; try done. simpl. by rewrite lookup_insert_eq.
      * destruct (Hfailed _ Hout) as [? ?]. auto.
Qed.

(** The final state of a confirmed submit, up to the document shown. *)
Lemma confirmed_final_state `{Host} (st : Client.State) (w : Client.World) (n : nat) :
  JS.trim (Client.leaderboardCode st) ≠ "" ->
  JS.trim (Client.sessionToken st) ≠ "" ->
  Client.confirm_answer w Client.confirm_message = true ->
  let st0 := Client.setLeaderboard None
               (Client.setLoading true (Client.setError "" st)) in
  let st' := fst (Client.run w n (Client.handleSubmit st)) in
  (∃ message, st' = Client.setLoading false (Client.setError message st0))
  ∨ (∃ doc, st' = Client.setLoading false (Client.show doc st0))
  ∨ (∃ doc t, st' = Client.setLoading false
                     (Client.show doc
                        (Client.cachePut (Client.cacheKey st)
                           {| Client.data := doc; Client.fetchedAt := t |} st0))).
Proof.
  intros Hcode Htoken Hconfirm st0 st'.
  pose proof (confirmed_outcome w n st Hcode Htoken Hconfirm) as Hout.
  simpl in Hout. fold st' st0 in Hout.
  destruct (fresh_entry st (Client.clock w n)) as [cached|].
  - destruct Hout as [-> _]. right; left. eauto.
  - destruct Hout as [_ Hout].
    destruct (Client.network w (Client.request_of st)) as [message|status [message|json]].
    + destruct Hout as (m & _ & ->). left. eauto.
    + destruct Hout as (m & _ & ->). left. eauto.
    + destruct (Client.ok status).
      * destruct Hout as (t & _ & ->). right; right. eauto.
      * left. eauto.
Qed.

(** X13. For every state and browser, [handleSubmit] leaves the year, the
    code and the token as they are, makes at most one network call, which is
    the POST of these fields to [/api/leaderboard], changes no cache entry of
    another key and removes no entry. *)
Theorem handleSubmit_frame `{Host} (st : Client.State) (w : Client.World) (n : nat) :
  let result := Client.run w n (Client.handleSubmit st) in
  Client.year (fst result) = Client.year st
  ∧ Client.leaderboardCode (fst result) = Client.leaderboardCode st
  ∧ Client.sessionToken (fst result) = Client.sessionToken st
  ∧ (Client.fetches (snd result) = []
     ∨ Client.fetches (snd result) = [Client.request_of st])
  ∧ (∀ key, key ≠ Client.cacheKey st ->
       Client.cache (fst result) !! key = Client.cache st !! key)
  ∧ (is_Some (Client.cache st !! Client.cacheKey st) ->
     is_Some (Client.cache (fst result) !! Client.cacheKey st)).
Proof.
  intros result.
  destruct (decide (JS.trim (Client.leaderboardCode st) = "")) as [Hcode|Hcode].
  { subst result. rewrite run_handleSubmit_blank by auto. by split_and!; auto. }
  destruct (decide (JS.trim (Client.sessionToken st) = "")) as [Htoken|Htoken].
  { subst result. rewrite run_handleSubmit_blank by auto. by split_and!; auto. }
  destruct (Client.confirm_answer w Client.confirm_message) eqn:Hconfirm.
  2:{ subst result. rewrite run_handleSubmit_declined by done. by split_and!; auto. }
  assert (Client.fetches (snd result) = []
          ∨ Client.fetches (snd result) = [Client.request_of st]) as Hfetches.
  { pose proof (confirmed_outcome w n st Hcode Htoken Hconfirm) as Hout.
    simpl in Hout. fold result in Hout.
    destruct (fresh_entry st (Client.clock w n)).
    - destruct Hout as [_ ->]. by left.
    - destruct Hout as [-> _]. by right. }
  destruct (confirmed_final_state st w n Hcode Htoken Hconfirm)
    as [(message & Hres)|[(doc & Hres)|(doc & t & Hres)]];
    fold result in Hres; rewrite Hres; split_and!; try done; simpl.
  - intros key Hkey. by rewrite lookup_insert_ne.
  - intros _. rewrite lookup_insert_eq. eauto.
Qed.

(** X14. After a confirmed submit the effect on [leaderboard] changes
    nothing: the player chosen by [handleSubmit] stays selected. *)
Theorem leaderboardEffect_after_submit `{Host} (st : Client.State)
  (w : Client.World) (n : nat) :
  JS.trim (Client.leaderboardCode st) ≠ "" ->
  JS.trim (Client.sessionToken st) ≠ "" ->
  Client.confirm_answer w Client.confirm_message = true ->
  let st' := fst (Client.run w n (Client.handleSubmit st)) in
  Component.leaderboardEffect st' = st'.
Proof.
  intros Hcode Htoken Hconfirm st'.
  destruct (confirmed_final_state st w n Hcode Htoken Hconfirm)
    as [(message & Hres)|[(doc & Hres)|(doc & t & Hres)]];
    fold st' in Hres; rewrite Hres; unfold Component.leaderboardEffect; simpl;
    try done; by destruct (JS.truthy_string _).
Qed.

(** ** More on the proxy *)

Lemma Proxy_ok_spec (z : Z) : Proxy.ok z = true ↔ 200 <= z <= 299.
Proof. unfold Proxy.ok. by rewrite andb_true_iff, !Z.leb_le. Qed.

Lemma Client_ok_spec (z : Z) : Client.ok z = true ↔ 200 <= z <= 299.
Proof. unfold Client.ok. by rewrite andb_true_iff, !Z.leb_le. Qed.

(** X15. The proxy answers with a status in 200..299 in two cases only: 204
    without a body to OPTIONS, and 200 to a POST with the three fields when
    the upstream answered in 200..299 with a body that parses, which is then
    the body sent.  Data is only ever sent with status 200. *)
Theorem handler_success_inv {Data : Type} (req : Proxy.Request)
  (fetch : Proxy.UpstreamRequest -> Proxy.UpstreamOutcome Data) :
  let res := Proxy.handler req fetch in
  let b := Proxy.body_or_empty (Proxy.body req) in
  (200 <= Proxy.status res <= 299 ->
   Proxy.method req = "OPTIONS" ∧ Proxy.status res = 204 ∧ Proxy.sent res = Proxy.Ended
   ∨ Proxy.method req = "POST"
     ∧ Proxy.truthy (Proxy.year b) = true
     ∧ Proxy.truthy (Proxy.leaderboardCode b) = true
     ∧ Proxy.truthy (Proxy.sessionToken b) = true
     ∧ Proxy.status res = 200
     ∧ ∃ upstream_status data,
         fetch (Proxy.upstream_request b)
         = Proxy.Responded upstream_status (Proxy.Json data)
         ∧ 200 <= upstream_status <= 299
         ∧ Proxy.sent res = Proxy.DataJson data)
  ∧ ((∃ data, Proxy.sent res = Proxy.DataJson data) -> Proxy.status res = 200).
Proof.
  intros res b. subst res. unfold Proxy.handler. fold b.
  destruct (String.eqb_spec (Proxy.method req) "OPTIONS") as [Ho|Ho].
  { split; [by left|]. by intros [? ?]. }
  destruct (String.eqb_spec (Proxy.method req) "POST") as [Hp|Hp]; simpl.
  2:{ split; [lia|]. by intros [? ?]. }
  destruct (Proxy.truthy (Proxy.year b)); simpl.
  2:{ split; [lia|]. by intros [? ?]. }
  destruct (Proxy.truthy (Proxy.leaderboardCode b)); simpl.
  2:{ split; [lia|]. by intros [? ?]. }
  destruct (Proxy.truthy (Proxy.sessionToken b)); simpl.
  2:{ split; [lia|]. by intros [? ?]. }
  destruct (fetch (Proxy.upstream_request b)) as [message|st body]; simpl.
  { split; [lia|]. by intros [? ?]. }
  destruct (Proxy.ok st) eqn:Hok; simpl.
  - apply Proxy_ok_spec in Hok. destruct body as [message|data]; simpl.
    + split; [lia|]. by intros [? ?].
    + split; [|done]. intros _. right. split_and!; try done. eauto.
  - split; [|by intros [? ?]]. intros Hin. apply Proxy_ok_spec in Hin.
    by rewrite Hin in Hok.
Qed.

(** X16. The proxy sets the three CORS headers on the 204 answer to OPTIONS,
    [Access-Control-Allow-Origin: *] alone on a 200 answer, and no header on
    any other answer. *)
Theorem handler_cors_headers {Data : Type} (req : Proxy.Request)
  (fetch : Proxy.UpstreamRequest -> Proxy.UpstreamOutcome Data) :
  let res := Proxy.handler req fetch in
  (Proxy.status res = 204 ->
   Proxy.headers res = [ ("Access-Control-Allow-Origin", "*");
                         ("Access-Control-Allow-Methods", "POST, OPTIONS");
                         ("Access-Control-Allow-Headers", "Content-Type") ])
  ∧ (Proxy.status res = 200 ->
     Proxy.headers res = [ ("Access-Control-Allow-Origin", "*") ])
  ∧ (Proxy.status res ≠ 204 -> Proxy.status res ≠ 200 -> Proxy.headers res = []).
Proof.
  intros res. subst res. unfold Proxy.handler.
  destruct (String.eqb (Proxy.method req) "OPTIONS"); [by split_and!|].
  destruct (String.eqb (Proxy.method req) "POST"); simpl; [|by split_and!].
  destruct (_ || _); simpl; [by split_and!|].
  destruct (fetch _) as [message|st body]; simpl; [by split_and!|].
  destruct (Proxy.ok st) eqn:Hok; simpl.
  - destruct body; simpl; by split_and!.
  - split_and!; try done.
    + intros ->. done.
    + intros ->. done.
Qed.

(** X17. The proxy's answer depends on the upstream only through the answer
    to the one request built from the body; for a method other than POST and
    for a body with a missing field it does not depend on the upstream at
    all. *)
Theorem handler_upstream_call {Data : Type} (req : Proxy.Request)
  (fetch fetch' : Proxy.UpstreamRequest -> Proxy.UpstreamOutcome Data) :
  let b := Proxy.body_or_empty (Proxy.body req) in
  (fetch (Proxy.upstream_request b) = fetch' (Proxy.upstream_request b) ->
   Proxy.handler req fetch = Proxy.handler req fetch')
  ∧ (Proxy.method req ≠ "POST"
     ∨ Proxy.truthy (Proxy.year b) = false
     ∨ Proxy.truthy (Proxy.leaderboardCode b) = false
     ∨ Proxy.truthy (Proxy.sessionToken b) = false ->
     Proxy.handler req fetch = Proxy.handler req fetch').
Proof.
  intros b. unfold Proxy.handler. fold b. split.
  - by intros ->.
  - intros Hskip. destruct (String.eqb (Proxy.method req) "OPTIONS"); [done|].
    destruct (String.eqb_spec (Proxy.method req) "POST") as [Hp|Hp]; simpl; [|done].
    destruct Hskip as [?|[-> |[-> | ->]]]; [done| | |]; simpl;
      by rewrite ?orb_true_r.
Qed.

(** ** The client behind the proxy *)

Lemma shown_error_status_message (status : Z) :
  shown_error (Client.status_message status) = Client.status_message status.
Proof.
  unfold shown_error, JS.truthy_string.
  by destruct (decide (Client.status_message status = "")).
Qed.




(** ** The earlier revision's submit handler and the development proxy *)

Lemma substring_all (s : string) : String.substring 0 (String.length s) s = s.
Proof. induction s as [|c s IH]; simpl; [done|]. by rewrite IH. Qed.

Lemma rewrite_aoc (path : string) : DevProxy.rewrite ("/aoc" +:+ path) = path.
Proof.
  unfold DevProxy.rewrite.
  change ("/aoc" +:+ path)
    with (String "/" (String "a" (String "o" (String "c" path)))).
  simpl. rewrite Nat.sub_0_r.
  assert (String.prefix "" path = true) as -> by by destruct path.
  apply substring_all.
Qed.

(** X19. For a year, a code and a trimmed token made of letters, digits,
    [-], [_] and [~], which the browser sends as they are written, the
    development proxy forwards the request of the earlier revision's
    [handleSubmit] to
    [https://adventofcode.com/{year}/leaderboard/private/view/{code}.json] and
    sets on it the cookie [session=] followed by the trimmed token, taken from
    the [X-Aoc-Session] header. *)
Theorem dev_proxy_forwards (st : LegacyClient.State) :
  DevProxy.plain (LegacyClient.year st) = true ->
  DevProxy.plain (LegacyClient.leaderboardCode st) = true ->
  DevProxy.plain (JS.trim (LegacyClient.sessionToken st)) = true ->
  JS.trim (LegacyClient.sessionToken st) ≠ "" ->
  let request := LegacyClient.request_of st in
  DevProxy.target +:+ DevProxy.rewrite (LegacyClient.url request)
  = "https://adventofcode.com/" +:+ LegacyClient.year st
    +:+ "/leaderboard/private/view/" +:+ LegacyClient.leaderboardCode st +:+ ".json"
  ∧ DevProxy.on_proxyReq (DevProxy.incoming_headers (LegacyClient.headers request))
    = [ ("cookie", "session=" +:+ JS.trim (LegacyClient.sessionToken st)) ].
Proof.
  intros _ _ _ Htoken request. split.
  - subst request. unfold LegacyClient.request_of. cbn [LegacyClient.url].
    change ("/aoc/" +:+ ?x) with ("/aoc" +:+ ("/" +:+ x)).
    by rewrite rewrite_aoc.
  - unfold DevProxy.on_proxyReq. simpl.
    destruct (JS.truthy_string _) eqn:E; [done|].
    by apply truthy_string_spec in E.
Qed.

(** X20. The earlier revision's [handleSubmit] has no cache: with both fields
    filled in, every submit makes the same single request, also right after a
    previous one.  It ends with [loading] false, shows the document and its
    default selection on an answer in 200..299 that parses, and reports the
    status of an answer outside 200..299. *)
Theorem legacy_handleSubmit_fetches_every_time
  (fetch fetch' : LegacyClient.Request -> Client.FetchOutcome)
  (st : LegacyClient.State) :
  JS.trim (LegacyClient.leaderboardCode st) ≠ "" ->
  JS.trim (LegacyClient.sessionToken st) ≠ "" ->
  let first := LegacyClient.handleSubmit fetch st in
  let second := LegacyClient.handleSubmit fetch' (fst first) in
  snd first = [LegacyClient.request_of st]
  ∧ snd second = [LegacyClient.request_of st]
  ∧ LegacyClient.loading (fst first) = false
  ∧ (∀ status doc, fetch (LegacyClient.request_of st)
                   = Client.Responded status (Client.Json doc) ->
       200 <= status <= 299 ->
       LegacyClient.leaderboard (fst first) = Some doc
       ∧ LegacyClient.error (fst first) = ""
       ∧ LegacyClient.selectedDay (fst first)
         = Selection.day (Legacy.findDefaultSelection (Some doc))
       ∧ LegacyClient.selectedPart (fst first)
         = Selection.part (Legacy.findDefaultSelection (Some doc)))
  ∧ (∀ status body, fetch (LegacyClient.request_of st)
                    = Client.Responded status body ->
       ¬ (200 <= status <= 299) ->
       LegacyClient.leaderboard (fst first) = None
       ∧ LegacyClient.error (fst first) = Client.status_message status).
Proof.
  intros Hcode Htoken first second.
  assert (∀ f s, JS.trim (LegacyClient.leaderboardCode s) ≠ "" ->
            JS.trim (LegacyClient.sessionToken s) ≠ "" ->
            LegacyClient.handleSubmit f s
            = (LegacyClient.setLoading false
                 (let s0 := LegacyClient.setLeaderboard None
                              (LegacyClient.setLoading true (LegacyClient.setError "" s)) in
                  match f (LegacyClient.request_of s) with
                  | Client.Rejected message =>
                      LegacyClient.setError (shown_error message) s0
                  | Client.Responded status body =>
                      if negb (Client.ok status)
                      then LegacyClient.setError (shown_error (Client.status_message status)) s0
                      else match body with
                           | Client.Unparsable message =>
                               LegacyClient.setError (shown_error message) s0
                           | Client.Json json =>
                               LegacyClient.setSelectedPart
                                 (Selection.part (Legacy.findDefaultSelection (Some json)))
                                 (LegacyClient.setSelectedDay
                                    (Selection.day (Legacy.findDefaultSelection (Some json)))
                                    (LegacyClient.setLeaderboard (Some json) s0))
                           end
                  end), [LegacyClient.request_of s])) as Hrun.
  { intros f s Hc Ht. unfold LegacyClient.handleSubmit. simpl.
    assert (JS.truthy_string (JS.trim (LegacyClient.leaderboardCode s)) = true) as ->.
    { destruct (JS.truthy_string _) eqn:E; [done|]. by apply truthy_string_spec in E. }
    assert (JS.truthy_string (JS.trim (LegacyClient.sessionToken s)) = true) as ->.
    { destruct (JS.truthy_string _) eqn:E; [done|]. by apply truthy_string_spec in E. }
    done. }
  assert (LegacyClient.leaderboardCode (fst first) = LegacyClient.leaderboardCode st
          ∧ LegacyClient.sessionToken (fst first) = LegacyClient.sessionToken st
          ∧ LegacyClient.year (fst first) = LegacyClient.year st) as (Hc1 & Ht1 & Hy1).
  { subst first. rewrite Hrun by done. simpl.
    destruct (fetch _) as [m|status [m|json]]; simpl; try done;
      by destruct (Client.ok status). }
  split_and!.
  - subst first. by rewrite Hrun.
  - subst second. rewrite Hrun by (by rewrite ?Hc1, ?Ht1).
    simpl. unfold LegacyClient.request_of. by rewrite Hc1, Ht1, Hy1.
  - subst first. by rewrite Hrun.
  - intros status doc Hnet Hin. subst first. rewrite Hrun by done. simpl.
    rewrite Hnet. apply Client_ok_spec in Hin. by rewrite Hin.
  - intros status body Hnet Hnot. subst first. rewrite Hrun by done. simpl.
    rewrite Hnet.
    assert (Client.ok status = false) as ->.
    { destruct (Client.ok status) eqn:E; [|done]. by apply Client_ok_spec in E. }
    simpl. split; [done|]. apply shown_error_status_message.
Qed.

(** ** The selected player *)

Lemma players_members `{Host} (leaderboard : option Leaderboard.t)
  (player : string * string) :
  player ∈ Component.players leaderboard
  ↔ ∃ member, member ∈ members_of leaderboard
      ∧ player = (JS.String_of (Member.id member), display_name member).
Proof.
  destruct leaderboard as [doc|]; [apply players_elem_of|].
  simpl. split; [by intros ?%elem_of_nil|]. by intros (m & ?%elem_of_nil & _).
Qed.

Lemma find_in_players `{Host} (leaderboard : option Leaderboard.t) (id : string) :
  match find (fun player => String.eqb (fst player) id)
          (Component.players leaderboard) with
  | Some player =>
      ∃ member, member ∈ members_of leaderboard
        ∧ JS.String_of (Member.id member) = id ∧ snd player = display_name member
  | None => ∀ member, member ∈ members_of leaderboard ->
      JS.String_of (Member.id member) ≠ id
  end.
Proof.
  destruct (find _ _) as [player|] eqn:E.
  - apply find_some in E as [Hin Heq]. apply String.eqb_eq in Heq.
    apply list_elem_of_In, players_members in Hin as (m & Hm & ->). eauto.
  - intros m Hm Hid.
    assert ((JS.String_of (Member.id m), display_name m) ∈ Component.players leaderboard)
      as Hin by (apply players_members; eauto).
    apply list_elem_of_In in Hin. pose proof (find_none _ _ E _ Hin) as Hne.
    simpl in Hne. apply String.eqb_neq in Hne. done.
Qed.

(** X21. [selectedPlayerName] is the display name of a member whose id, as a
    string, is the selected id when there is such a member; otherwise it is
    the empty string for an empty id and [Player #] followed by the id for any
    other id. *)
Theorem selectedPlayerName_spec `{Host} (leaderboard : option Leaderboard.t)
  (selectedPlayerId : string) :
  let name := Component.selectedPlayerName leaderboard selectedPlayerId in
  ((∃ member, member ∈ members_of leaderboard
      ∧ JS.String_of (Member.id member) = selectedPlayerId) ->
   ∃ member, member ∈ members_of leaderboard
     ∧ JS.String_of (Member.id member) = selectedPlayerId
     ∧ name = display_name member)
  ∧ ((∀ member, member ∈ members_of leaderboard ->
        JS.String_of (Member.id member) ≠ selectedPlayerId) ->
     (selectedPlayerId = "" -> name = "")
     ∧ (selectedPlayerId ≠ "" -> name = "Player #" +:+ selectedPlayerId)).
Proof.
  intros name. subst name. unfold Component.selectedPlayerName.
  pose proof (find_in_players leaderboard selectedPlayerId) as Hfind.
  destruct (find _ _) as [player|].
  - destruct Hfind as (m & Hm & Hid & Hname). split; [eauto|].
    intros Hnone. by destruct (Hnone m Hm).
  - split.
    + intros (m & Hm & Hid). by destruct (Hfind m Hm).
    + intros _. unfold JS.truthy_string.
      destruct (decide (selectedPlayerId = "")); split; done.
Qed.

(** X22. In a state that shows a document with at least one member and has
    its default player selected, as [handleSubmit] leaves it, the player is a
    member: [playerSubmissions] has two rows per day of [dayNumbers], that is
    24 or 50 rows, and [selectedPlayerName] is the display name of a member
    with that id. *)
Theorem default_player_is_listed `{Host} (st : Client.State) (doc : Leaderboard.t) :
  Client.leaderboard st = Some doc ->
  members_of (Some doc) ≠ [] ->
  Client.selectedPlayerId st = App.findDefaultPlayerId (Some doc) ->
  let rows := Component.playerSubmissions st in
  (length rows = 24%nat ∨ length rows = 50%nat)
  ∧ length rows = (2 * length (Component.dayNumbers st))%nat
  ∧ ∃ member, member ∈ members_of (Some doc)
      ∧ JS.String_of (Member.id member) = Client.selectedPlayerId st
      ∧ Component.selectedPlayerName (Client.leaderboard st)
          (Client.selectedPlayerId st)
        = display_name member.
Proof.
  intros Hdoc Hne Hsel rows. subst rows.
  unfold Component.playerSubmissions, Component.dayNumbers.
  rewrite Hdoc. set (id := Client.selectedPlayerId st) in *.
  set (year := Client.year st).
  assert (∃ m, m ∈ members_of (Some doc) ∧ JS.String_of (Member.id m) = id) as Hid.
  { rewrite Hsel. unfold App.findDefaultPlayerId.
    destruct (JS.sort _ _) as [|p ps] eqn:E.
    { apply sort_nil_inv, fmap_nil_inv in E. done. }
    assert (p ∈ map (fun member => (JS.String_of (Member.id member), display_name member))
                  (members_of (Some doc))) as Hp.
    { eapply sort_elem_of. rewrite E. left. }
    apply list_elem_of_fmap in Hp as (m & -> & Hm). eauto. }
  assert (length (App.buildPlayerSubmissions (Some doc) id (Component.getDayNumbers year))
          = (2 * length (Component.getDayNumbers year))%nat) as Hlen.
  { rewrite App_buildPlayerSubmissions_rows.
    pose proof (find_player (members_of (Some doc)) id) as Hfind.
    destruct Hid as (m & Hm & Hid).
    destruct (decide (id = "")) as [Hempty|_].
    { rewrite <- Hid in Hempty. by apply String_of_nonempty in Hempty. }
    destruct (find _ _) as [player|]; [|by destruct (Hfind m Hm)].
    apply day_rows_length. }
  split_and!; [|done|].
  - rewrite Hlen, getDayNumbers_length. destruct (Component.strict_equal _ _); auto.
  - pose proof (find_in_players (Some doc) id) as Hfind.
    unfold Component.selectedPlayerName. destruct (find _ _) as [player|].
    + destruct Hfind as (m & Hm & Hm_id & Hname). eauto.
    + destruct Hid as (m & Hm & Hid). by destruct (Hfind m Hm).
Qed.

(** ** Two submits in a row *)

(** X23. After a submit that fetched a document and stored it at time [t],
    submitting the resulting state again, confirmed, strictly less than
    fifteen minutes after [t] makes no network call, shows the same document
    and leaves the cache as it is; fifteen minutes after [t] or later it
    makes exactly one network call, with the same request. *)
Theorem resubmit_within_fifteen_minutes `{Host} (st : Client.State)
  (w : Client.World) (n : nat) (status : Z) (json : Leaderboard.t) :
  JS.trim (Client.leaderboardCode st) ≠ "" ->
  JS.trim (Client.sessionToken st) ≠ "" ->
  Client.confirm_answer w Client.confirm_message = true ->
  (∀ cached, Client.cache st !! (Client.year st +:+ ":" +:+ Client.leaderboardCode st)
       = Some cached ->
     15 * 60 * 1000 <= Client.clock w n - Client.fetchedAt cached) ->
  Client.network w (Client.request_of st)
  = Client.Responded status (Client.Json json) ->
  200 <= status <= 299 ->
  let st1 := fst (Client.run w n (Client.handleSubmit st)) in
  ∃ t, last (snd (Client.run w n (Client.handleSubmit st))) = Some (Client.Clock t)
    ∧ ∀ (w' : Client.World) (n' : nat),
        Client.confirm_answer w' Client.confirm_message = true ->
        let again := Client.run w' n' (Client.handleSubmit st1) in
        (Client.clock w' n' - t < 15 * 60 * 1000 ->
         Client.fetches (snd again) = []
         ∧ Client.leaderboard (fst again) = Some json
         ∧ Client.cache (fst again) = Client.cache st1)
        ∧ (15 * 60 * 1000 <= Client.clock w' n' - t ->
           Client.fetches (snd again) = [Client.request_of st]).
Proof.
  intros Hcode Htoken Hconfirm Hstale Hnet Hin st1.
  pose proof (confirmed_outcome w n st Hcode Htoken Hconfirm) as Hout.
  simpl in Hout. fold st1 in Hout.
  rewrite (fresh_entry_None st _ Hstale), Hnet in Hout.
  apply Client_ok_spec in Hin. rewrite Hin in Hout.
  destruct Hout as (_ & t & Hlast & Hst1). exists t. split; [done|].
  intros w' n' Hconfirm' again.
  assert (Client.leaderboardCode st1 = Client.leaderboardCode st
          ∧ Client.sessionToken st1 = Client.sessionToken st
          ∧ Client.request_of st1 = Client.request_of st
          ∧ Client.cacheKey st1 = Client.cacheKey st
          ∧ Client.cache st1 !! Client.cacheKey st
            = Some {| Client.data := json; Client.fetchedAt := t |})
    as (Hc1 & Ht1 & Hr1 & Hk1 & Hcache1).
  { rewrite Hst1. split_and!; try done. simpl. by rewrite lookup_insert_eq. }
  pose proof (confirmed_outcome w' n' st1) as Hout'.
  rewrite Hc1, Ht1 in Hout'. specialize (Hout' Hcode Htoken Hconfirm').
  simpl in Hout'. fold again in Hout'.
  unfold fresh_entry in Hout'. rewrite Hk1, Hcache1 in Hout'. simpl in Hout'.
  change Client.FIFTEEN_MIN with (15 * 60 * 1000) in Hout'.
  destruct (Z.ltb_spec (Client.clock w' n' - t) (15 * 60 * 1000)) as [Hlt|Hge].
  - split; [|lia]. intros _. destruct Hout' as [-> ->]. by split_and!.
  - split; [lia|]. intros _. destruct Hout' as [-> _]. by rewrite Hr1.
Qed.

(** ** Instances of the theorems on the sample inputs *)

Lemma findDefaultSelection_day3 :
  App.findDefaultSelection (Some day3_doc)
  = {| Selection.day := "3"; Selection.part := "1" |}.
Proof.
  assert (well_keyed (Some day3_doc)) as Hkeys.
  { intros k Hk. vm_compute in Hk.
    repeat (apply elem_of_cons in Hk as [->|Hk]);
      [by exists 3%N | by exists 5%N | by exists 4%N | by apply elem_of_nil in Hk]. }
  apply (findDefaultSelection_spec (Some day3_doc) Hkeys).
  - vm_compute. apply list_elem_of_here.
  - intros k Hk. vm_compute in Hk.
    repeat (apply elem_of_cons in Hk as [->|Hk]);
      [vm_compute; discriminate.. | by apply elem_of_nil in Hk].
  - intros m Hm. vm_compute in Hm.
    repeat (apply elem_of_cons in Hm as [->|Hm]);
      [reflexivity.. | by apply elem_of_nil in Hm].
Defined.

Lemma buildLeaderboard_zero_timestamp_sample :
  ∃ (i : nat) (r : RankedRow.t),
    @App.buildLeaderboard test_host (Some zero_doc) "1" "1" !! i = Some r
    ∧ RankedRow.id r = 4
    ∧ RankedRow.name r = "Cy"
    ∧ RankedRow.completedAt r = ""
    ∧ RankedRow.timestamp r = 0
    ∧ RankedRow.rank r = Z.of_nat i + 1
    ∧ ∀ (j : nat) r', (j < i)%nat ->
        @App.buildLeaderboard test_host (Some zero_doc) "1" "1" !! j = Some r' ->
        RankedRow.timestamp r' = 0.
Proof.
  apply (@buildLeaderboard_zero_timestamp test_host (Some zero_doc) "1" "1"
           zero_member {| Completion.get_star_ts := 0 |}).
  - vm_compute. apply list_elem_of_further, list_elem_of_here.
  - reflexivity.
  - reflexivity.
  - intros m c Hm Hc. vm_compute in Hm.
    repeat (apply elem_of_cons in Hm as [->|Hm]);
      [vm_compute in Hc; injection Hc as <-; vm_compute; discriminate..
      | by apply elem_of_nil in Hm].
Defined.

Lemma buildPlayerSubmissions_sample :
  ∃ player,
    player ∈ members_of (Some example_doc)
    ∧ JS.String_of (Member.id player) = "2"
    ∧ length (@App.buildPlayerSubmissions test_host (Some example_doc) "2" ["1"; "2"])
      = 4%nat.
Proof.
  destruct (@buildPlayerSubmissions_rows test_host example_doc "2" ["1"; "2"])
    as [_ Hrows].
  destruct Hrows as (player & Hin & Hid & Hlen & _).
  - discriminate.
  - exists {| Member.id := 2; Member.name := None;
              Member.completion_day_level := Some
                [ ("1", [ ("1", {| Completion.get_star_ts := 500 |}) ]) ] |}.
    split; [|reflexivity].
    vm_compute. apply list_elem_of_further, list_elem_of_here.
  - exists player. split_and!; assumption.
Defined.

(** Three submits in a row: the first fetches and caches at time 2000, the
    second, at 2001, is served from the cache, the third, more than fifteen
    minutes later, fetches again and overwrites the entry. *)
Lemma cache_freshness_sample :
  let first := Client.run sample_world 0 (@Client.handleSubmit test_host filled_state) in
  let second := Client.run sample_world 1 (@Client.handleSubmit test_host (fst first)) in
  let third := Client.run sample_world 2 (@Client.handleSubmit test_host (fst second)) in
  Client.fetches (snd first) = [Client.request_of filled_state]
  ∧ Client.cache (fst first) !! "2024:123456"
    = Some {| Client.data := example_doc; Client.fetchedAt := 2000 |}
  ∧ Client.fetches (snd second) = []
  ∧ Client.leaderboard (fst second) = Some example_doc
  ∧ Client.fetches (snd third) = [Client.request_of filled_state]
  ∧ Client.cache (fst third) !! "2024:123456"
    = Some {| Client.data := example_doc; Client.fetchedAt := 1000003 |}.
Proof.
  intros first second third.
  assert (∀ st, Client.leaderboardCode st = "123456" ->
            JS.trim (Client.leaderboardCode st) ≠ "") as Hcode.
  { intros st ->. vm_compute. discriminate. }
  assert (∀ st, Client.sessionToken st = "secret" ->
            JS.trim (Client.sessionToken st) ≠ "") as Htoken.
  { intros st ->. vm_compute. discriminate. }
  destruct (@cache_freshness test_host filled_state sample_world 0%nat
              (Hcode filled_state eq_refl) (Htoken filled_state eq_refl) eq_refl)
    as [_ Hmiss].
  destruct Hmiss as [Hfetch1 Hstore1]; [by left|].
  destruct (Hstore1 200 example_doc eq_refl) as (t1 & Ht1 & Hcache1 & _); [lia|].
  destruct (@cache_freshness test_host (fst first) sample_world 1%nat
              (Hcode (fst first) eq_refl) (Htoken (fst first) eq_refl) eq_refl)
    as [Hhit _].
  destruct (Hhit {| Client.data := example_doc; Client.fetchedAt := 2000 |})
    as (Hfetch2 & Hshown2 & _); [reflexivity|vm_compute; reflexivity|].
  destruct (@cache_freshness test_host (fst second) sample_world 2%nat
              (Hcode (fst second) eq_refl) (Htoken (fst second) eq_refl) eq_refl)
    as [_ Hstale].
  destruct Hstale as [Hfetch3 Hstore3].
  { right. exists {| Client.data := example_doc; Client.fetchedAt := 2000 |}.
    split; [reflexivity|]. vm_compute. discriminate. }
  destruct (Hstore3 200 example_doc eq_refl) as (t3 & Ht3 & Hcache3 & _); [lia|].
  split_and!.
  - exact Hfetch1.
  - reflexivity.
  - exact Hfetch2.
  - exact Hshown2.
  - exact Hfetch3.
  - reflexivity.
Defined.


Lemma example_heap_represents : represents example_heap (Heap.Ref 11%positive) (Some example_doc).
Proof.
  assert (∀ l ts, example_heap !! l
                  = Some (Heap.Obj [ ("get_star_ts", Heap.Number (JS.Num ts)) ]) ->
            represents_completion example_heap (Heap.Ref l)
              {| Completion.get_star_ts := ts |}) as Hc.
  { intros l ts Hl. by eexists l, _. }
  eexists 11%positive, _. split_and!; [done|reflexivity|]. simpl.
  eexists. split; [reflexivity|].
  eexists 10%positive, _. split_and!; [done|reflexivity|].
  repeat constructor; simpl.
  - eexists 5%positive, _. split_and!; [done|reflexivity|reflexivity| |]; simpl.
    + by eexists.
    + eexists. split; [reflexivity|].
      eexists 4%positive, _. split_and!; [done|reflexivity|].
      repeat constructor; simpl.
      eexists 3%positive, _. split_and!; [done|reflexivity|].
      repeat constructor; simpl; by apply Hc.
  - eexists 9%positive, _. split_and!; [done|reflexivity|reflexivity| |]; simpl.
    + by left.
    + eexists. split; [reflexivity|].
      eexists 8%positive, _. split_and!; [done|reflexivity|].
      repeat constructor; simpl.
      eexists 7%positive, _. split_and!; [done|reflexivity|].
      repeat constructor; simpl; by apply Hc.
Defined.

Lemma transformation_layer_pure_example :
  returns example_heap (Heap.Ref 11%positive) (Some example_doc)
    (@Heap.buildLeaderboard test_host (Heap.Ref 11%positive) "1" "1")
    (represents_array represents_ranked)
    (@App.buildLeaderboard test_host (Some example_doc) "1" "1").
Proof.
  apply (@transformation_layer_pure test_host example_heap (Heap.Ref 11%positive)
           (Some example_doc) "1" "1" "2" (Heap.Ref 12%positive) ["1"; "2"]).
  - exact example_heap_represents.
  - by exists 12%positive.
Defined.

(** The only row of day 1, part 2 of the example document. *)
Lemma rows_come_from_completions_sample :
  ∃ member completion,
    member ∈ members_of (Some example_doc)
    ∧ completion_at member "1" "2" = Some completion
    ∧ 1 = Member.id member
    ∧ 2000 = Completion.get_star_ts completion
    ∧ "T2000000"
      = @App.formatCompletionTime test_host (Completion.get_star_ts completion).
Proof.
  apply (proj1 (@rows_come_from_completions test_host (Some example_doc)
                  "1" "2" "2" ["1"; "2"])
           {| RankedRow.id := 1; RankedRow.name := "Ann";
              RankedRow.completedAt := "T2000000"; RankedRow.timestamp := 2000;
              RankedRow.rank := 1 |}).
  vm_compute. apply list_elem_of_here.
Defined.

(** A POST with the three fields, answered 404 by the upstream. *)
Lemma handler_responses_sample :
  Proxy.status
    (Proxy.handler (Data := Leaderboard.t)
       {| Proxy.method := "POST";
          Proxy.body := Some {| Proxy.year := Some (Proxy.JNum 2024);
                                Proxy.leaderboardCode := Some (Proxy.JStr "123456");
                                Proxy.sessionToken := Some (Proxy.JStr "secret") |} |}
       (fun _ => Proxy.Responded 404 (Proxy.Unparsable "")))
  = 404.
Proof.
  destruct (handler_responses (Data := Leaderboard.t)
    {| Proxy.method := "POST";
       Proxy.body := Some {| Proxy.year := Some (Proxy.JNum 2024);
                             Proxy.leaderboardCode := Some (Proxy.JStr "123456");
                             Proxy.sessionToken := Some (Proxy.JStr "secret") |} |}
    (fun _ => Proxy.Responded 404 (Proxy.Unparsable "")))
    as (_ & _ & _ & Hpost).
  destruct (Hpost eq_refl eq_refl eq_refl eq_refl) as (Hnot_ok & _).
  destruct (Hnot_ok 404 (Proxy.Unparsable "") eq_refl) as [Hstatus _]; [lia|].
  exact Hstatus.
Defined.

(** ** Instances of the further theorems on the sample inputs *)

Lemma example_doc_unique_day_keys : unique_day_keys (Some example_doc).
Proof.
  intros m Hm. vm_compute in Hm.
  repeat (apply elem_of_cons in Hm as [->|Hm]);
    [apply NoDup_singleton.. | by apply elem_of_nil in Hm].
Qed.

Lemma example_doc_well_keyed : well_keyed (Some example_doc).
Proof.
  intros k Hk. vm_compute in Hk.
  repeat (apply elem_of_cons in Hk as [->|Hk]);
    [by exists 1%N.. | by apply elem_of_nil in Hk].
Qed.

Lemma example_doc_days_have_stars : days_have_stars (Some example_doc).
Proof.
  intros m day parts Hm Hentry. vm_compute in Hm.
  repeat (apply elem_of_cons in Hm as [->|Hm]); [..|by apply elem_of_nil in Hm];
    simpl in Hentry; apply list_elem_of_singleton in Hentry as [= -> ->];
    left; by eexists.
Qed.

Lemma has_data_iff_ranking_sample :
  @Component.hasCompletions loaded_state "1" 2 = true
  ↔ @Component.leaderboardRows test_host
      (Component.handlePartSelect "1" (JS.String_of 2) loaded_state) ≠ [].
Proof.
  apply (@has_data_iff_ranking test_host loaded_state "1" 2).
  - exact example_doc_unique_day_keys.
  - right. reflexivity.
Defined.

Lemma default_selection_has_ranking_sample :
  @App.buildLeaderboard test_host (Some example_doc) "1" "2" ≠ []
  ∧ is_Some (App.computePartAvailability (Some example_doc) !! "1").
Proof.
  apply (@default_selection_has_ranking test_host (Some example_doc)).
  - exact example_doc_well_keyed.
  - exact example_doc_days_have_stars.
  - vm_compute. discriminate.
Defined.

Lemma findDefaultPlayerId_first_in_order_sample :
  ∃ member,
    member ∈ members_of (Some example_doc)
    ∧ @App.findDefaultPlayerId test_host (Some example_doc)
      = JS.String_of (Member.id member)
    ∧ ∀ other, other ∈ members_of (Some example_doc) ->
        JS.positive_result
          (@localeCompare test_host (display_name member) (display_name other))
        = false.
Proof.
  apply (@findDefaultPlayerId_first_in_order test_host (Some example_doc)).
  - exact test_host_orders_names.
  - vm_compute. discriminate.
Defined.

Lemma declined_submit_changes_nothing_sample :
  Client.run declining_world 0 (@Client.handleSubmit test_host loaded_state)
  = (Client.setError "" loaded_state,
     [Client.Confirmed Client.confirm_message false]).
Proof.
  apply (@declined_submit_changes_nothing test_host loaded_state declining_world 0%nat).
  - vm_compute. discriminate.
  - vm_compute. discriminate.
  - reflexivity.
Defined.

Lemma failed_fetch_reports_error_sample :
  Client.error
    (fst (Client.run failing_world 0 (@Client.handleSubmit test_host loaded_state)))
  = "Unable to load leaderboard (status 404). Ensure you are signed in to Advent of Code and have access to this board."
  ∧ Client.leaderboard
      (fst (Client.run failing_world 0 (@Client.handleSubmit test_host loaded_state)))
    = None.
Proof.
  destruct (@failed_fetch_reports_error test_host loaded_state failing_world 0%nat)
    as (Hstatus & _).
  - vm_compute. discriminate.
  - vm_compute. discriminate.
  - reflexivity.
  - intros cached Hcached. vm_compute in Hcached. discriminate.
  - destruct (Hstatus 404 (Client.Unparsable "") eq_refl) as (Herr & Hlb & _); [lia|].
    split; [exact Herr|exact Hlb].
Defined.

Lemma confirmed_submit_outcome_sample :
  Client.loading
    (fst (Client.run sample_world 0 (@Client.handleSubmit test_host filled_state)))
  = false.
Proof.
  destruct (@confirmed_submit_outcome test_host filled_state sample_world 0%nat)
    as [Hloading _].
  - vm_compute. discriminate.
  - vm_compute. discriminate.
  - reflexivity.
  - exact Hloading.
Defined.

Lemma leaderboardEffect_after_submit_sample :
  @Component.leaderboardEffect test_host
    (fst (Client.run sample_world 0 (@Client.handleSubmit test_host filled_state)))
  = fst (Client.run sample_world 0 (@Client.handleSubmit test_host filled_state)).
Proof.
  apply (@leaderboardEffect_after_submit test_host filled_state sample_world 0%nat).
  - vm_compute. discriminate.
  - vm_compute. discriminate.
  - reflexivity.
Defined.


Lemma dev_proxy_forwards_sample :
  DevProxy.target
  +:+ DevProxy.rewrite (LegacyClient.url (LegacyClient.request_of legacy_state))
  = "https://adventofcode.com/2024/leaderboard/private/view/123456.json"
  ∧ DevProxy.on_proxyReq
      (DevProxy.incoming_headers
         (LegacyClient.headers (LegacyClient.request_of legacy_state)))
    = [ ("cookie", "session=secret") ].
Proof.
  apply (dev_proxy_forwards legacy_state).
  - reflexivity.
  - reflexivity.
  - reflexivity.
  - vm_compute. discriminate.
Defined.

Lemma legacy_handleSubmit_fetches_every_time_sample :
  let fetch := fun _ : LegacyClient.Request =>
                 Client.Responded 200 (Client.Json example_doc) in
  snd (LegacyClient.handleSubmit fetch
         (fst (LegacyClient.handleSubmit fetch legacy_state)))
  = [ {| LegacyClient.url := "/aoc/2024/leaderboard/private/view/123456.json";
         LegacyClient.headers := [ ("Accept", "application/json");
                                   ("X-Aoc-Session", "secret") ];
         LegacyClient.credentials := "omit" |} ].
Proof.
  intros fetch.
  destruct (legacy_handleSubmit_fetches_every_time fetch fetch legacy_state)
    as (_ & Hsecond & _).
  - vm_compute. discriminate.
  - vm_compute. discriminate.
  - exact Hsecond.
Defined.

Lemma default_player_is_listed_sample :
  let st := fst (Client.run sample_world 0
                   (@Client.handleSubmit test_host filled_state)) in
  length (@Component.playerSubmissions test_host st)
  = (2 * length (Component.dayNumbers st))%nat.
Proof.
  intros st.
  destruct (@default_player_is_listed test_host st example_doc) as (_ & Hlen & _).
  - reflexivity.
  - vm_compute. discriminate.
  - reflexivity.
  - exact Hlen.
Defined.

Lemma resubmit_within_fifteen_minutes_sample :
  ∃ t, last (snd (Client.run sample_world 0
                    (@Client.handleSubmit test_host filled_state)))
       = Some (Client.Clock t)
    ∧ ∀ (w' : Client.World) (n' : nat),
        Client.confirm_answer w' Client.confirm_message = true ->
        let again :=
          Client.run w' n'
            (@Client.handleSubmit test_host
               (fst (Client.run sample_world 0
                       (@Client.handleSubmit test_host filled_state)))) in
        (Client.clock w' n' - t < 15 * 60 * 1000 ->
         Client.fetches (snd again) = []
         ∧ Client.leaderboard (fst again) = Some example_doc
         ∧ Client.cache (fst again)
           = Client.cache (fst (Client.run sample_world 0
                                  (@Client.handleSubmit test_host filled_state))))
        ∧ (15 * 60 * 1000 <= Client.clock w' n' - t ->
           Client.fetches (snd again) = [Client.request_of filled_state]).
Proof.
  apply (@resubmit_within_fifteen_minutes test_host filled_state sample_world 0%nat
           200 example_doc).
  - vm_compute. discriminate.
  - vm_compute. discriminate.
  - reflexivity.
  - intros cached Hcached. vm_compute in Hcached. discriminate.
  - reflexivity.
  - lia.
Defined.
